(** * Current-draw beep test bench: acquisition, parsing and spike detection

    A shallow embedding of [current_code.py] (the functions [run_test],
    [detect_beep] and [run_beep_sequence]; [Current_module.py] carries the
    same three functions, character for character) together with the
    properties the design document states about them, followed by the rest
    of the program ([setup_instruments] in its two versions, [main],
    [export_summary_to_csv], and [run_at_voltage] of [Current_module.py])
    and by further properties read off the code.

    Conventions of the embedding
    - a Python [float] is a binary64 value: Rocq's primitive [float];
    - a Python [int] is a [Z];
    - a Python [str] is a [list ascii], one element per code point below 256
      (pyvisa decodes instrument replies with the ascii codec);
    - a raised exception is a value of [exn]; a computation that may raise
      returns a [result];
    - the [while] loop of [detect_beep] runs on fuel: [None] means that the
      fuel ran out before the loop ended;
    - the drivers run in a world that answers their accesses one by one and
      records what happens ([Bench]); the session around them runs in a
      laboratory that also holds the resource listing and the keyboard
      ([Session]). *)

From Stdlib Require Import ZArith List Bool Lia Floats String Ascii.
Import ListNotations.

Set Warnings "-inexact-float".

Open Scope Z_scope.

(** ** Python values and exceptions *)

(** The exception classes the three functions can meet.  All of them derive
    from [Exception], so an [except Exception] clause catches every one. *)
Inductive exn : Type :=
| VisaIOError
| ValueError
| OverflowError
| AttributeError
| IndexError
| ZeroDivisionError.

Inductive result (A : Type) : Type :=
| Ok (a : A)
| Raise (e : exn).
Arguments Ok {A} a.
Arguments Raise {A} e.

Definition pystr : Type := list ascii.

Definition str (s : string) : pystr := list_ascii_of_string s.

Definition pystr_eqb (a b : pystr) : bool :=
  String.eqb (string_of_list_ascii a) (string_of_list_ascii b).

(** Python's truth test on a list: [not l]. *)
Definition is_nil {A : Type} (l : list A) : bool :=
  match l with [] => true | _ :: _ => false end.

(** What a Python function hands back: [detect_beep] returns a [bool] on two
    of its paths and falls off its end (returning [None]) on the third. *)
Inductive pyval : Type :=
| PyNone
| PyBool (b : bool).

(** ** The spike detector: [detect_beep] *)

Module Detector.

(** [np.array(readings) > threshold]: element-wise comparison; a NaN
    reading compares false. *)
Definition above_threshold (readings : list float) (threshold : float) : list bool :=
  map (fun x => PrimFloat.ltb threshold x) readings.

(** [above[i]] on a numpy array: a negative index counts from the end, an
    index outside [-len, len) raises IndexError. *)
Definition np_index (above : list bool) (i : Z) : result bool :=
  let n := Z.of_nat (List.length above) in
  if (0 <=? i) && (i <? n) then
    match nth_error above (Z.to_nat i) with
    | Some b => Ok b
    | None => Raise IndexError
    end
  else if (- n <=? i) && (i <? 0) then
    match nth_error above (Z.to_nat (n + i)) with
    | Some b => Ok b
    | None => Raise IndexError
    end
  else Raise IndexError.

(** The two loop variables: the cursor [i] and the list [spike_indices]. *)
Record scan_state : Type := mkScan {
  cursor : Z;
  spike_indices : list Z
}.

Definition scan_init : scan_state := mkScan 0 [].

Inductive step_result : Type :=
| Continue (st : scan_state)
| Finished (spikes : list Z)
| Raised (e : exn).

(** One evaluation of the loop test and, when it holds, of the loop body. *)
Definition scan_step (above : list bool) (min_gap : Z) (st : scan_state) : step_result :=
  if cursor st <? Z.of_nat (List.length above) then
    match np_index above (cursor st) with
    | Raise e => Raised e
    | Ok true =>
        Continue (mkScan (cursor st + min_gap) (spike_indices st ++ [cursor st]))
    | Ok false =>
        Continue (mkScan (cursor st + 1) (spike_indices st))
    end
  else Finished (spike_indices st).

Fixpoint scan_loop (fuel : nat) (above : list bool) (min_gap : Z) (st : scan_state)
  : option (result (list Z)) :=
  match fuel with
  | O => None
  | S fuel' =>
      match scan_step above min_gap st with
      | Continue st' => scan_loop fuel' above min_gap st'
      | Finished spikes => Some (Ok spikes)
      | Raised e => Some (Raise e)
      end
  end.

(** The state after [n] passes through the loop body, when the loop is
    still running there. *)
Fixpoint scan_iter (n : nat) (above : list bool) (min_gap : Z) (st : scan_state)
  : option scan_state :=
  match n with
  | O => Some st
  | S n' =>
      match scan_step above min_gap st with
      | Continue st' => scan_iter n' above min_gap st'
      | _ => None
      end
  end.

(** Lines printed by [detect_beep]. *)
Inductive report : Type :=
| SpikeCount (label : pystr) (num_spikes : nat)
| DoubleVerdict (detected : bool)
| TripleVerdict (detected : bool).

Definition default_threshold : float := 0.005%float.
Definition default_min_gap : Z := 10.

(** [detect_beep(readings, label, threshold, min_gap)]: the printed lines
    and the returned value. *)
Definition detect_beep (fuel : nat) (readings : list float) (label : pystr)
    (threshold : float) (min_gap : Z) : option (result (list report * pyval)) :=
  let above := above_threshold readings threshold in
  match scan_loop fuel above min_gap scan_init with
  | None => None
  | Some (Raise e) => Some (Raise e)
  | Some (Ok spike_indices) =>
      let num_spikes := List.length spike_indices in
      let line := SpikeCount label num_spikes in
      if pystr_eqb label (str "Double Beep") then
        let detected := (2 <=? num_spikes)%nat in
        Some (Ok ([line; DoubleVerdict detected], PyBool detected))
      else if pystr_eqb label (str "Triple Beep") then
        let detected := (3 <=? num_spikes)%nat in
        Some (Ok ([line; TripleVerdict detected], PyBool detected))
      else Some (Ok ([line], PyNone))
  end.

(** The value [detect_beep] returns, without the printed lines. *)
Definition detect_value (fuel : nat) (readings : list float) (label : pystr)
    (threshold : float) (min_gap : Z) : option (result pyval) :=
  match detect_beep fuel readings label threshold min_gap with
  | None => None
  | Some (Raise e) => Some (Raise e)
  | Some (Ok (_, v)) => Some (Ok v)
  end.

(** Consecutive entries grow by at least [gap]. *)
Fixpoint spaced (gap : Z) (l : list Z) : Prop :=
  match l with
  | [] => True
  | x :: tl =>
      match tl with
      | [] => True
      | y :: _ => x + gap <= y
      end /\ spaced gap tl
  end.

Fixpoint increasing (l : list Z) : Prop :=
  match l with
  | [] => True
  | x :: tl =>
      match tl with
      | [] => True
      | y :: _ => x < y
      end /\ increasing tl
  end.

(** The readings of the design document's debounce example, followed by
    [n] more quiet samples. *)
Definition example_readings (n : nat) : list float :=
  [0; 0; 0.01; 0.01; 0; 0; 0; 0; 0; 0; 0.02; 0]%float ++ repeat 0%float n.

(** *** Vocabulary of the properties *)

(** Loop invariant for [min_gap >= 1]: the recorded indices are spaced and
    the cursor is at least [min_gap] past each of them. *)
Definition gap_invariant (g : Z) (st : scan_state) : Prop :=
  0 <= cursor st /\
  spaced g (spike_indices st) /\
  Forall (fun s => s + g <= cursor st) (spike_indices st).

(** Loop invariant for [min_gap <= 0]: as soon as one index is recorded,
    the cursor stays at or left of a cell that is above the threshold, so
    the loop cannot end normally any more. *)
Definition held_back (above : list bool) (st : scan_state) : Prop :=
  (spike_indices st = [] /\ 0 <= cursor st) \/
  (exists s0 : nat, nth_error above s0 = Some true /\ cursor st <= Z.of_nat s0).

(** The readings of the debounce example compared with the threshold
    0.005. *)
Definition example_above (n : nat) : list bool :=
  [false; false; true; true; false; false; false; false; false; false; true; false]
    ++ repeat false n.

(** The indices the scan records on the debounce example, by [min_gap]. *)
Definition example_spikes (g : Z) : list Z :=
  if g =? 1 then [2; 3; 10] else if g <=? 8 then [2; 10] else [2].

End Detector.

(** ** Python text primitives used by the parser *)

Module PyText.

Definition code (c : ascii) : N := N_of_ascii c.

Definition in_range (lo hi : N) (c : ascii) : bool :=
  (N.leb lo (code c)) && (N.leb (code c) hi).

(** The decimal digits [0]..[9]. *)
Definition is_decimal (c : ascii) : bool := in_range 48 57 c.

(** [str.isdigit]: below code point 256 these are the ten decimal digits
    and the superscripts two, three and one (178, 179, 185). *)
Definition isdigit (c : ascii) : bool :=
  is_decimal c || N.eqb (code c) 178 || N.eqb (code c) 179 || N.eqb (code c) 185.

(** [str.isspace], the characters [str.strip] removes: tab to carriage
    return, the four separators 28..31, space, NEL (133) and NBSP (160). *)
Definition isspace (c : ascii) : bool :=
  in_range 9 13 c || in_range 28 32 c || N.eqb (code c) 133 || N.eqb (code c) 160.

(** Dropping the leading, resp. trailing, characters that satisfy [p]. *)
Fixpoint lstrip_by (p : ascii -> bool) (s : pystr) : pystr :=
  match s with
  | c :: t => if p c then lstrip_by p t else s
  | [] => []
  end.

Fixpoint rstrip_by (p : ascii -> bool) (s : pystr) : pystr :=
  match s with
  | c :: t =>
      let r := rstrip_by p t in
      if is_nil r && p c then [] else c :: r
  | [] => []
  end.

(** [s.strip()] *)
Definition strip (s : pystr) : pystr := rstrip_by isspace (lstrip_by isspace s).

Definition comma : ascii := ","%char.

(** [',' in s] *)
Definition has_comma (s : pystr) : bool := existsb (Ascii.eqb comma) s.

(** [s.split(',')]: always at least one piece. *)
Fixpoint split_comma (s : pystr) : list pystr :=
  match s with
  | [] => [[]]
  | c :: t =>
      if Ascii.eqb comma c then [] :: split_comma t
      else match split_comma t with
           | piece :: pieces => (c :: piece) :: pieces
           | [] => [[c]]
           end
  end.

(** [','.join(pieces)] *)
Fixpoint join_comma (pieces : list pystr) : pystr :=
  match pieces with
  | [] => []
  | [p] => p
  | p :: rest => p ++ comma :: join_comma rest
  end.

End PyText.

(** ** Python's [float(str)] *)

Module PyFloat.
Import PyText.

(** The shape of a decimal numeral as CPython's scanner reads it:
    sign, integer digits, point, fraction digits, exponent. *)
Record exponent_part : Type := mkExp {
  marker : ascii;
  exp_sign : option bool;
  exp_digits : pystr
}.

Record shape : Type := mkShape {
  sign : option bool;
  int_digits : pystr;
  point : bool;
  frac_digits : pystr;
  expo : option exponent_part
}.

(** An optional leading [+] ([Some false]) or [-] ([Some true]). *)
Definition take_sign (s : pystr) : option bool * pystr :=
  match s with
  | c :: t =>
      if Ascii.eqb c "-" then (Some true, t)
      else if Ascii.eqb c "+" then (Some false, t)
      else (None, s)
  | [] => (None, [])
  end.

(** The longest prefix of decimal digits, and what follows it. *)
Fixpoint span_digits (s : pystr) : pystr * pystr :=
  match s with
  | c :: t =>
      if is_decimal c then let (d, r) := span_digits t in (c :: d, r)
      else ([], s)
  | [] => ([], [])
  end.

Definition is_exp_marker (c : ascii) : bool := Ascii.eqb c "e" || Ascii.eqb c "E".

Definition scan_exponent (s : pystr) : option (option exponent_part) :=
  match s with
  | [] => Some None
  | c :: t =>
      if is_exp_marker c then
        let (sg, t1) := take_sign t in
        let (ds, t2) := span_digits t1 in
        if is_nil ds || negb (is_nil t2) then None
        else Some (Some (mkExp c sg ds))
      else None
  end.

(** The whole string must be one numeral. *)
Definition scan_shape (s : pystr) : option shape :=
  let (sg, s1) := take_sign s in
  let (ip, s2) := span_digits s1 in
  let '(pt, fp, s3) :=
    match s2 with
    | c :: t => if Ascii.eqb c "." then let (fp, r) := span_digits t in (true, fp, r)
                else (false, [], s2)
    | [] => (false, [], [])
    end in
  if is_nil ip && is_nil fp then None
  else match scan_exponent s3 with
       | Some ex => Some (mkShape sg ip pt fp ex)
       | None => None
       end.

Definition digit_value (c : ascii) : Z := Z.of_N (code c) - 48.

Definition digits_value (ds : pystr) : Z :=
  fold_left (fun acc c => 10 * acc + digit_value c) ds 0.

Definition is_minus (sg : option bool) : bool :=
  match sg with Some true => true | _ => false end.

(** The numeral stands for [(-1)^negative * mantissa * 10^exponent]. *)
Record number : Type := mkNumber {
  negative : bool;
  mantissa : Z;
  exponent : Z
}.

Definition number_of_shape (sh : shape) : number :=
  let shift := - Z.of_nat (List.length (frac_digits sh)) in
  let e :=
    match expo sh with
    | None => 0
    | Some ex =>
        let v := digits_value (exp_digits ex) in
        if is_minus (exp_sign ex) then - v else v
    end in
  mkNumber (is_minus (sign sh)) (digits_value (int_digits sh ++ frac_digits sh)) (shift + e).

(** Correct rounding of a numeral to binary64, ties to even; a value too
    large becomes an infinity, one too small a zero. *)
Definition round_number (n : number) : float :=
  match mantissa n with
  | Zpos m =>
      if 0 <=? exponent n then
        SF2Prim (binary_normalize prec emax
                   ((if negative n then Zneg m else Zpos m) * 10 ^ exponent n) 0 false)
      else
        SF2Prim (SFdiv prec emax
                   (S754_finite (negative n) m 0)
                   (S754_finite false (Z.to_pos (10 ^ (- exponent n))) 0))
  | _ => if negative n then neg_zero else PrimFloat.zero
  end.

(** The characters [float] strips at both ends: C whitespace, and the
    non-ASCII spaces NEL and NBSP. *)
Definition float_space (c : ascii) : bool :=
  in_range 9 13 c || N.eqb (code c) 32 || N.eqb (code c) 133 || N.eqb (code c) 160.

Definition strip_space (s : pystr) : pystr :=
  rstrip_by float_space (lstrip_by float_space s).

Definition underscore : ascii := "_"%char.

(** Digit-group underscores: each one must stand between two decimal
    digits; they are removed before scanning. *)
Fixpoint drop_underscores (prev_digit prev_underscore : bool) (s : pystr) : option pystr :=
  match s with
  | [] => if prev_underscore then None else Some []
  | c :: t =>
      if Ascii.eqb c underscore then
        if prev_digit then drop_underscores false true t else None
      else if prev_underscore && negb (is_decimal c) then None
      else match drop_underscores (is_decimal c) false t with
           | Some r => Some (c :: r)
           | None => None
           end
  end.

Definition lower (c : ascii) : ascii :=
  if in_range 65 90 c then ascii_of_N (code c + 32) else c.

(** [inf], [infinity] and [nan], in any letter case, after the sign. *)
Definition scan_special (s : pystr) : option float :=
  let (sg, body) := take_sign s in
  let word := map lower body in
  if pystr_eqb word (str "inf") || pystr_eqb word (str "infinity") then
    Some (if is_minus sg then neg_infinity else infinity)
  else if pystr_eqb word (str "nan") then Some nan
  else None.

(** The finite numeral a string spells for [float], if it spells one. *)
Definition py_number (s : pystr) : option number :=
  match drop_underscores false false s with
  | None => None
  | Some s1 =>
      match scan_shape (strip_space s1) with
      | Some sh => Some (number_of_shape sh)
      | None => None
      end
  end.

(** [float(s)]; [None] stands for the ValueError. *)
Definition py_float (s : pystr) : option float :=
  match drop_underscores false false s with
  | None => None
  | Some s1 =>
      let body := strip_space s1 in
      match scan_shape body with
      | Some sh => Some (round_number (number_of_shape sh))
      | None => scan_special body
      end
  end.

(** *** Vocabulary of the properties *)

Definition all_decimal (ds : pystr) : Prop := Forall (fun c => is_decimal c = true) ds.

(** What follows a run of digits does not start with a digit. *)
Definition stops (r : pystr) : Prop :=
  match r with
  | [] => True
  | c :: _ => is_decimal c = false
  end.

Definition render_sign (sg : option bool) : pystr :=
  match sg with
  | Some true => ["-"%char]
  | Some false => ["+"%char]
  | None => []
  end.

Definition render_exp (ex : option exponent_part) : pystr :=
  match ex with
  | Some e => marker e :: render_sign (exp_sign e) ++ exp_digits e
  | None => []
  end.

Definition render_frac (sh : shape) : pystr :=
  if point sh then "."%char :: frac_digits sh else [].

Definition render (sh : shape) : pystr :=
  render_sign (sign sh) ++ int_digits sh ++ render_frac sh ++ render_exp (expo sh).

Definition wf_exp (ex : option exponent_part) : Prop :=
  match ex with
  | Some e => is_exp_marker (marker e) = true /\ all_decimal (exp_digits e)
              /\ exp_digits e <> []
  | None => True
  end.

Definition wf (sh : shape) : Prop :=
  all_decimal (int_digits sh) /\ all_decimal (frac_digits sh) /\
  (point sh = false -> frac_digits sh = []) /\
  (int_digits sh ++ frac_digits sh <> []) /\
  wf_exp (expo sh).

(** A string that is not opened by a sign character. *)
Definition unsigned (r : pystr) : Prop :=
  match r with
  | c :: _ => Ascii.eqb c "-" = false /\ Ascii.eqb c "+" = false
  | [] => True
  end.

Definition unplus_sign (sg : option bool) : option bool :=
  match sg with
  | Some true => Some true
  | _ => None
  end.

Definition unplus_exp (ex : option exponent_part) : option exponent_part :=
  match ex with
  | Some e => Some (mkExp (marker e) (unplus_sign (exp_sign e)) (exp_digits e))
  | None => None
  end.

Definition unplus (sh : shape) : shape :=
  mkShape (unplus_sign (sign sh)) (int_digits sh) (point sh) (frac_digits sh)
          (unplus_exp (expo sh)).

(** A decimal numeral: a text [float] reads through its number scanner. *)
Definition float_literal (s : pystr) : Prop := exists n, py_number s = Some n.

End PyFloat.

(** ** The sample-stream parser (the text handling inside [run_test]) *)

Module Parser.
Import PyText PyFloat.

(** [c.isdigit() or c in '.-Ee'] *)
Definition keep (c : ascii) : bool :=
  isdigit c || Ascii.eqb c "." || Ascii.eqb c "-" || Ascii.eqb c "E" || Ascii.eqb c "e".

(** [''.join(c for c in value if ...)] *)
Definition clean (value : pystr) : pystr := filter keep value.

(** The two warnings the parser prints. *)
Inductive warning : Type :=
| SkippingInvalid (value : pystr)
| InvalidSingle (raw_data : pystr).

(** One pass through the body of the [for] loop: the reading appended, if
    any, and the warning printed, if any. *)
Definition parse_token (value : pystr) : list float * list warning :=
  let clean_value := clean value in
  if is_nil clean_value then ([], [])
  else match py_float clean_value with
       | Some x => ([x], [])
       | None => ([], [SkippingInvalid value])
       end.

(** The [else] branch: the payload holds a single value. *)
Definition parse_single (raw_data : pystr) : list float * list warning :=
  let clean_value := clean raw_data in
  if is_nil clean_value then ([], [])
  else match py_float clean_value with
       | Some x => ([x], [])
       | None => ([], [InvalidSingle raw_data])
       end.

(** From [raw_data.strip()] to the final [readings]. *)
Definition parse_payload (raw_data : pystr) : list float * list warning :=
  let raw_data := strip raw_data in
  if has_comma raw_data then
    let outcomes := map parse_token (split_comma raw_data) in
    (flat_map fst outcomes, flat_map snd outcomes)
  else parse_single raw_data.

Definition parse_readings (raw_data : pystr) : list float := fst (parse_payload raw_data).

(** *** Vocabulary of the properties *)

(** The cleaned pieces of a text. *)
Definition clean_pieces (s : pystr) : list pystr := map clean (split_comma s).

Definition push_kept (c : ascii) (pieces : list pystr) : list pystr :=
  match pieces with
  | piece :: rest => (if keep c then c :: piece else piece) :: rest
  | [] => []
  end.

(** What one cleaned piece adds to the readings: nothing when it is empty
    or when [float] rejects it. *)
Definition reading_of (clean_value : pystr) : list float :=
  if is_nil clean_value then []
  else match py_float clean_value with
       | Some x => [x]
       | None => []
       end.

(** A piece that triggers no warning. *)
Definition quiet (clean_value : pystr) : Prop :=
  clean_value = [] \/ exists x, py_float clean_value = Some x.

(** A numeral and the value [float] gives it. *)
Definition spells (literal : pystr) (value : float) : Prop :=
  float_literal literal /\ py_float literal = Some value.

End Parser.

(** ** Python arithmetic on mixed [int] and [float] operands *)

Module PyNum.

Inductive pynum : Type :=
| PyInt (z : Z)
| PyFloat (f : float).

(** [float(z)] for an [int]: correctly rounded, OverflowError when the
    rounded value is not finite. *)
Definition float_of_int (z : Z) : result float :=
  match binary_normalize prec emax z 0 false with
  | S754_infinity _ => Raise OverflowError
  | sf => Ok (SF2Prim sf)
  end.

Definition to_float (a : pynum) : result float :=
  match a with
  | PyInt z => float_of_int z
  | PyFloat f => Ok f
  end.

(** [a * b] *)
Definition py_mul (a b : pynum) : result pynum :=
  match a, b with
  | PyInt x, PyInt y => Ok (PyInt (x * y))
  | _, _ =>
      match to_float a, to_float b with
      | Ok x, Ok y => Ok (PyFloat (x * y))
      | Raise e, _ => Raise e
      | _, Raise e => Raise e
      end
  end.

(** [int(f)] for a [float]: truncation towards zero. *)
Definition int_of_float (f : float) : result Z :=
  match Prim2SF f with
  | S754_nan => Raise ValueError
  | S754_infinity _ => Raise OverflowError
  | S754_zero _ => Ok 0
  | S754_finite s m e =>
      let magnitude :=
        if 0 <=? e then Z.shiftl (Zpos m) e else Z.shiftr (Zpos m) (- e) in
      Ok (if s then - magnitude else magnitude)
  end.

(** [int(a)] *)
Definition py_int (a : pynum) : result Z :=
  match a with
  | PyInt z => Ok z
  | PyFloat f => int_of_float f
  end.

(** [min(r)]: ValueError on an empty list. *)
Definition py_min (r : list float) : result float :=
  match r with
  | [] => Raise ValueError
  | x :: t => Ok (fold_left (fun m y => if PrimFloat.ltb y m then y else m) t x)
  end.

(** [max(r)] *)
Definition py_max (r : list float) : result float :=
  match r with
  | [] => Raise ValueError
  | x :: t => Ok (fold_left (fun m y => if PrimFloat.ltb m y then y else m) t x)
  end.

(** [sum(r)]: left-to-right addition starting from 0 (CPython 3.12 and
    later add a compensation term, which can only move the last bits of
    the printed average). *)
Definition py_sum (r : list float) : float := fold_left PrimFloat.add r PrimFloat.zero.

(** [sum(r) / len(r)]: ZeroDivisionError when [r] is empty. *)
Definition py_mean (r : list float) : result float :=
  if Nat.eqb (List.length r) 0 then Raise ZeroDivisionError
  else match float_of_int (Z.of_nat (List.length r)) with
       | Raise e => Raise e
       | Ok n => Ok (py_sum r / n)%float
       end.

End PyNum.

(** ** The bench: instruments, console and the two drivers *)

Module Bench.
Import PyNum.

Inductive device : Type := PowerSupply | Multimeter.

(** An instrument argument: [None] is Python's [None]. *)
Definition handle : Type := option device.

(** The SCPI messages the program sends.  [VOLT v] is [":VOLT "] followed
    by [v] printed with two decimals; [NPLC x] and [SAMP_COUN n] carry the
    value that is printed into the message. *)
Inductive scpi : Type :=
| INST_CH1
| VOLT (v : float)
| OUTP_ON
| CLS
| CONF_CURR_DC
| CURR_DC_NPLC (nplc : pynum)
| SAMP_COUN (n : Z)
| TRIG_SOUR_IMM
| INIT
| FETC.

(** One access to an instrument: [write], [query], or setting the
    [timeout] attribute. *)
Inductive access : Type :=
| Write (c : scpi)
| Query (c : scpi)
| SetTimeout (ms : Z).

Record acquisition : Type := mkAcquisition {
  label : pystr;
  voltage : float;
  readings : list float
}.

(** The lines the drivers print. *)
Inductive console : Type :=
| Running (label : pystr) (voltage : float)
| Initialized (sample_count : Z)
| ParserWarning (w : Parser.warning)
| MeasurementError (e : exn)
| CannotRun
| NoReadings
| MainHeader (v_main : float)
| MainStats (lo_mA hi_mA avg_mA : float)
| Detection (line : Detector.report).

Inductive event : Type :=
| Instr (d : device) (a : access)
| Print (line : console)
| Sleep (seconds : float)
| Plot (results : list acquisition).

(** What the outside answers to one access: a reply text (empty for a
    plain write), or a communication failure, which pyvisa raises as
    VisaIOError. *)
Inductive reply : Type :=
| Answer (payload : pystr)
| Failure.

(** The outside world: the answer to the [k]-th access, the number of
    accesses made so far, and everything that happened, oldest first. *)
Record world : Type := mkWorld {
  replies : nat -> reply;
  accesses : nat;
  trace : list event
}.

(** A driver step: [None] when the fuel of a detector loop runs out. *)
Definition M (A : Type) : Type := world -> option (result A * world).

Definition ret {A : Type} (a : A) : M A := fun w => Some (Ok a, w).

Definition raise {A : Type} (e : exn) : M A := fun w => Some (Raise e, w).

Definition bind {A B : Type} (m : M A) (k : A -> M B) : M B :=
  fun w =>
    match m w with
    | None => None
    | Some (Ok a, w') => k a w'
    | Some (Raise e, w') => Some (Raise e, w')
    end.

(** [try: body except Exception as e: handler e] *)
Definition try_except {A : Type} (body : M A) (handler : exn -> M A) : M A :=
  fun w =>
    match body w with
    | None => None
    | Some (Ok a, w') => Some (Ok a, w')
    | Some (Raise e, w') => handler e w'
    end.

Definition lift {A : Type} (r : result A) : M A :=
  match r with
  | Ok a => ret a
  | Raise e => raise e
  end.

Definition log (ev : event) : M unit :=
  fun w => Some (Ok tt, mkWorld (replies w) (accesses w) (trace w ++ [ev])).

Definition print (line : console) : M unit := log (Print line).

Fixpoint print_all (lines : list console) : M unit :=
  match lines with
  | [] => ret tt
  | line :: rest => bind (print line) (fun _ => print_all rest)
  end.

(** An access through a handle: AttributeError on [None]; otherwise the
    access is made and the world answers. *)
Definition instr (h : handle) (a : access) : M pystr :=
  fun w =>
    match h with
    | None => Some (Raise AttributeError, w)
    | Some d =>
        let w' := mkWorld (replies w) (S (accesses w)) (trace w ++ [Instr d a]) in
        match replies w (accesses w) with
        | Answer payload => Some (Ok payload, w')
        | Failure => Some (Raise VisaIOError, w')
        end
    end.

Definition write (h : handle) (c : scpi) : M unit :=
  bind (instr h (Write c)) (fun _ => ret tt).

Definition query (h : handle) (c : scpi) : M pystr := instr h (Query c).

Definition set_timeout (h : handle) (ms : Z) : M unit :=
  bind (instr h (SetTimeout ms)) (fun _ => ret tt).

(** [time.sleep(seconds)]: ValueError for NaN or a negative length,
    OverflowError when the length does not fit 64-bit nanoseconds.  A length
    that fits but carries the deadline past the range of the monotonic clock
    is answered with OSError by the operating system; that depends on the
    reading of the clock and is recorded here as a wait.  [run_test] calls
    [sleep] inside its [try] block only, so no exception of the wait leaves
    [run_test]. *)
Definition sleep (seconds : float) : M unit :=
  let ns := (seconds * 1e9)%float in
  if PrimFloat.is_nan seconds then raise ValueError
  else if PrimFloat.leb 9223372036854775808 ns
          || PrimFloat.ltb ns (-9223372036854775808) then raise OverflowError
  else if PrimFloat.ltb seconds 0 then raise ValueError
  else log (Sleep seconds).

(** [plot_results(results)]: the call is recorded.  What matplotlib does
    with the results, an exception it raises included, is not decided by the
    instruments; [Scripts.sequence_with] leaves it open. *)
Definition plot_results (results : list acquisition) : M unit := log (Plot results).

Declare Scope bench_scope.
Delimit Scope bench_scope with bench.
Notation "x <- m ;; k" := (bind m (fun x => k))
  (at level 61, m at next level, right associativity) : bench_scope.
Notation "m ;; k" := (bind m (fun _ => k))
  (at level 61, right associativity) : bench_scope.
Open Scope bench_scope.

(** [int(sample_count * nplc * 1000 * 2)] *)
Definition timeout_ms (sample_count : Z) (nplc : pynum) : result Z :=
  match py_mul (PyInt sample_count) nplc with
  | Raise e => Raise e
  | Ok a =>
      match py_mul a (PyInt 1000) with
      | Raise e => Raise e
      | Ok b =>
          match py_mul b (PyInt 2) with
          | Raise e => Raise e
          | Ok c => py_int c
          end
      end
  end.

(** [sample_count * 0.01] *)
Definition settle_seconds (sample_count : Z) : result float :=
  match float_of_int sample_count with
  | Raise e => Raise e
  | Ok n => Ok (n * 0.01)%float
  end.

(** The body of the [try] block of [run_test]. *)
Definition measure (dmm : handle) (voltage : float) (label : pystr)
    (nplc : pynum) (sample_count : Z) : M acquisition :=
  ms <- lift (timeout_ms sample_count nplc) ;;
  set_timeout dmm ms ;;
  write dmm CLS ;;
  write dmm CONF_CURR_DC ;;
  write dmm (CURR_DC_NPLC nplc) ;;
  write dmm (SAMP_COUN sample_count) ;;
  write dmm TRIG_SOUR_IMM ;;
  write dmm INIT ;;
  print (Initialized sample_count) ;;
  seconds <- lift (settle_seconds sample_count) ;;
  sleep seconds ;;
  raw_data <- query dmm FETC ;;
  let (readings, warnings) := Parser.parse_payload raw_data in
  print_all (map ParserWarning warnings) ;;
  ret (mkAcquisition label voltage readings).

(** [run_test(psu, dmm, voltage, label, nplc, sample_count)] *)
Definition run_test (psu dmm : handle) (voltage : float) (label : pystr)
    (nplc : pynum) (sample_count : Z) : M acquisition :=
  write psu INST_CH1 ;;
  write psu (VOLT voltage) ;;
  write psu OUTP_ON ;;
  print (Running label voltage) ;;
  try_except
    (measure dmm voltage label nplc sample_count)
    (fun e =>
       print (MeasurementError e) ;;
       ret (mkAcquisition label voltage [])).

Definition default_nplc : pynum := PyFloat 0.1.
Definition default_sample_count : Z := 100.

(** A call of [detect_beep] from a driver: its lines go to the console. *)
Definition call_detect_beep (fuel : nat) (readings : list float) (label : pystr)
    (threshold : float) (min_gap : Z) : M pyval :=
  fun w =>
    match Detector.detect_beep fuel readings label threshold min_gap with
    | None => None
    | Some (Raise e) => Some (Raise e, w)
    | Some (Ok (lines, v)) =>
        match print_all (map Detection lines) w with
        | Some (_, w') => Some (Ok v, w')
        | None => None
        end
    end.

(** [run_beep_sequence(psu, dmm, v_main, v_double, v_triple)] *)
Definition run_beep_sequence (fuel : nat) (psu dmm : handle)
    (v_main v_double v_triple : float) : M pyval :=
  match psu with
  | None => print CannotRun ;; ret PyNone
  | Some _ =>
      write psu OUTP_ON ;;
      result_main <- run_test psu dmm v_main (str "Main Test")
                       default_nplc default_sample_count ;;
      let r := readings result_main in
      let max_current :=
        match r with
        | [] => Ok (PyInt 0)
        | _ :: _ => match py_max r with Ok x => Ok (PyFloat x) | Raise e => Raise e end
        end in
      _ <- lift max_current ;;
      if is_nil r then print NoReadings ;; ret PyNone
      else
        print (MainHeader v_main) ;;
        lo <- lift (py_min r) ;;
        hi <- lift (py_max r) ;;
        avg <- lift (py_mean r) ;;
        print (MainStats (lo * 1000) (hi * 1000) (avg * 1000)) ;;
        result_double <- run_test psu dmm v_double (str "Double Beep")
                           default_nplc default_sample_count ;;
        double_detected <- call_detect_beep fuel (readings result_double)
                             (str "Double Beep")
                             Detector.default_threshold Detector.default_min_gap ;;
        result_triple <- run_test psu dmm v_triple (str "Triple Beep") (PyInt 1) 600 ;;
        triple_detected <- call_detect_beep fuel (readings result_triple)
                             (str "Triple Beep") 0.005%float 10 ;;
        plot_results [result_main; result_double; result_triple] ;;
        ret PyNone
  end.

(** *** Vocabulary of the properties *)

(** The world after one more event. *)
Definition logged (w : world) (ev : event) : world :=
  mkWorld (replies w) (accesses w) (trace w ++ [ev]).

(** The world after one more access to an instrument. *)
Definition advanced (w : world) (d : device) (a : access) : world :=
  mkWorld (replies w) (S (accesses w)) (trace w ++ [Instr d a]).

(** The world after several events in a row. *)
Fixpoint logged_all (w : world) (evs : list event) : world :=
  match evs with
  | [] => w
  | ev :: rest => logged_all (logged w ev) rest
  end.

(** A wait that [time.sleep] accepts. *)
Definition sleep_allowed (seconds : float) : Prop :=
  forall w, sleep seconds w = Some (Ok tt, logged w (Sleep seconds)).

(** The numbers [run_test] computes from its sampling profile are usable:
    the timeout is an integer and the wait is accepted. *)
Definition profile_usable (nplc : pynum) (sample_count : Z) : Prop :=
  (exists ms, timeout_ms sample_count nplc = Ok ms) /\
  (exists seconds, settle_seconds sample_count = Ok seconds /\ sleep_allowed seconds).

(** The answer to the [k]-th access from now. *)
Definition upcoming (w : world) (k : nat) : reply := replies w (k + accesses w).

(** The world right after the three power-supply writes and the
    announcement line of [run_test]. *)
Definition programmed (w : world) (d : device) (voltage : float) (label : pystr) : world :=
  logged
    (advanced (advanced (advanced w d (Write INST_CH1)) d (Write (VOLT voltage)))
              d (Write OUTP_ON))
    (Print (Running label voltage)).

(** Every exception the step [m] can end with satisfies [P]. *)
Definition lets_out {A : Type} (m : M A) (P : exn -> Prop) : Prop :=
  forall w e w', m w = Some (Raise e, w') -> P e.

(** Two runs in a row: what the second returns. *)
Definition two_runs (psu dmm : handle) (voltage1 : float) (label1 : pystr)
    (voltage2 : float) (label2 : pystr) : M (acquisition * acquisition) :=
  first <- run_test psu dmm voltage1 label1 default_nplc default_sample_count ;;
  second <- run_test psu dmm voltage2 label2 default_nplc default_sample_count ;;
  ret (first, second).

(** The instrument accesses among the events of a trace. *)
Definition commands_sent (events : list event) : list (device * access) :=
  flat_map (fun ev => match ev with Instr d a => [(d, a)] | _ => [] end) events.

(** A bench on which every access fails. *)
Definition dead_bench : world := mkWorld (fun _ => Failure) 0 [].

(** A bench whose access number [j] fails and whose other accesses are
    answered with [payload]. *)
Definition glitch_bench (j : nat) (payload : pystr) : world :=
  mkWorld (fun k => if Nat.eqb k j then Failure else Answer payload) 0 [].

(** A bench whose power supply answers and whose multimeter
    fails at its first access. *)
Definition mute_multimeter : world :=
  mkWorld (fun k => if Nat.ltb k 4 then Answer [] else Failure) 0 [].

End Bench.

(** ** The summary file: [export_summary_to_csv] *)

Module Summary.
Import PyNum.





















End Summary.

(** ** The session: [setup_instruments], [main] and [run_at_voltage] *)

Module Session.
Import PyNum Bench.

Definition dmm_addr : pystr := str "USB0::0x0957::0x0607::my47026696::0::INSTR".
Definition psu_addr : pystr := str "USB0::0x1AB1::0x0E11::dp8c163452166::0::INSTR".

(** [addr in available_resources] *)
Definition listed (addr : pystr) (available_resources : list pystr) : bool :=
  existsb (pystr_eqb addr) available_resources.

(** What can end a function early: an exception of one of the classes of
    [exn], the EOFError of [input] at the end of the input, or the
    SystemExit of [exit()]. *)
Inductive signal : Type :=
| Exception (e : exn)
| EOFError
| SystemExit.

(** The classes an [except Exception] clause catches: SystemExit derives
    from BaseException only. *)
Definition is_exception (sg : signal) : bool :=
  match sg with
  | SystemExit => false
  | _ => true
  end.

(** The classes an [except ValueError] clause catches. *)
Definition is_value_error (sg : signal) : bool :=
  match sg with
  | Exception ValueError => true
  | _ => false
  end.

Inductive outcome (A : Type) : Type :=
| Done (a : A)
| Stop (sg : signal).
Arguments Done {A} a.
Arguments Stop {A} sg.

(** The messages of the session: the two queries and writes that the
    drivers never send, and the drivers' own. *)
Inductive message : Type :=
| IDN
| OUTP_OFF
| VOLT_0
| Scpi (c : scpi).

(** What is done with an instrument during the session. *)
Inductive operation : Type :=
| OpenResource
| Timeout (ms : Z)
| QueryMessage (m : message)
| WriteMessage (m : message)
| Close.

(** The lines the session prints. *)
Inductive notice : Type :=
| Available (available_resources : list pystr)
| DmmId (id : pystr)
| DmmFailed (e : signal)
| DmmNotFound
| PsuId (id : pystr)
| PsuConnected
| ContinueTest
| PsuFailed (e : signal)
| PsuNotFound
| CheckPsu
| StopTesting
| DmmUnavailable
| EnterVoltages
| InvalidInput
| ErrorLine (e : signal)
| Closing
| DmmClosed
| PsuClosed
| CloseError (e : signal)
| RunningAt (voltage : float)
| TurnedOff.

Inductive prompt : Type :=
| MainVoltage
| DoubleVoltage
| TripleVoltage.

(** Everything that happens during a session, oldest first in the
    journal. *)
Inductive action : Type :=
| Driver (ev : event)
| ListResources
| Touch (d : device) (op : operation)
| Pause (seconds : float)
| Say (line : notice)
| Ask (p : prompt).

(** The laboratory: what creating the resource manager and listing the
    resources gives, the answer to the [k]-th access to an instrument, the
    number of accesses made so far, the lines still waiting on the standard
    input, and the journal. *)
Record lab : Type := mkLab {
  resources : result (list pystr);
  answers : nat -> reply;
  asked : nat;
  keyboard : list pystr;
  journal : list action
}.

(** A session step: [None] when the fuel of a detector loop runs out. *)
Definition L (A : Type) : Type := lab -> option (outcome A * lab).

Definition ret {A : Type} (a : A) : L A := fun s => Some (Done a, s).

Definition raise {A : Type} (sg : signal) : L A := fun s => Some (Stop sg, s).

Definition bind {A B : Type} (m : L A) (k : A -> L B) : L B :=
  fun s =>
    match m s with
    | None => None
    | Some (Done a, s') => k a s'
    | Some (Stop sg, s') => Some (Stop sg, s')
    end.

(** [try: body except Exception as e: handler e] *)
Definition attempt {A : Type} (body : L A) (handler : signal -> L A) : L A :=
  fun s =>
    match body s with
    | None => None
    | Some (Done a, s') => Some (Done a, s')
    | Some (Stop sg, s') =>
        if is_exception sg then handler sg s' else Some (Stop sg, s')
    end.

(** [try: body finally: cleanup] *)
Definition finally {A : Type} (body : L A) (cleanup : L unit) : L A :=
  fun s =>
    match body s with
    | None => None
    | Some (o, s') =>
        match cleanup s' with
        | None => None
        | Some (Done _, s'') => Some (o, s'')
        | Some (Stop sg, s'') => Some (Stop sg, s'')
        end
    end.

Definition record (a : action) : L unit :=
  fun s =>
    Some (Done tt,
          mkLab (resources s) (answers s) (asked s) (keyboard s) (journal s ++ [a])).

Definition say (line : notice) : L unit := record (Say line).

(** [time.sleep(seconds)] with one of the constants of the source, all of
    them accepted. *)
Definition pause (seconds : float) : L unit := record (Pause seconds).

(** [rm = pyvisa.ResourceManager()] followed by [rm.list_resources()]. *)
Definition list_resources : L (list pystr) :=
  fun s =>
    let s' := mkLab (resources s) (answers s) (asked s) (keyboard s)
                    (journal s ++ [ListResources]) in
    match resources s with
    | Ok available_resources => Some (Done available_resources, s')
    | Raise e => Some (Stop (Exception e), s')
    end.

(** One access to an instrument: the laboratory answers, or the access
    fails with VisaIOError. *)
Definition touch (d : device) (op : operation) : L pystr :=
  fun s =>
    let s' := mkLab (resources s) (answers s) (S (asked s)) (keyboard s)
                    (journal s ++ [Touch d op]) in
    match answers s (asked s) with
    | Answer payload => Some (Done payload, s')
    | Failure => Some (Stop (Exception VisaIOError), s')
    end.

(** An access through a variable that may hold [None]. *)
Definition touch_handle (h : handle) (op : operation) : L pystr :=
  match h with
  | None => raise (Exception AttributeError)
  | Some d => touch d op
  end.

(** [input(prompt)] *)
Definition input (p : prompt) : L pystr :=
  fun s =>
    match keyboard s with
    | [] =>
        Some (Stop EOFError,
              mkLab (resources s) (answers s) (asked s) [] (journal s ++ [Ask p]))
    | line :: rest =>
        Some (Done line,
              mkLab (resources s) (answers s) (asked s) rest (journal s ++ [Ask p]))
    end.

(** A call of one of the drivers: it meets the answers that come next, and
    its events enter the journal. *)
Definition drive {A : Type} (m : M A) : L A :=
  fun s =>
    match m (mkWorld (fun k => answers s (k + asked s)) 0 []) with
    | None => None
    | Some (r, w') =>
        Some (match r with
              | Ok a => Done a
              | Raise e => Stop (Exception e)
              end,
              mkLab (resources s) (answers s) (accesses w' + asked s) (keyboard s)
                    (journal s ++ map Driver (trace w')))
    end.

Declare Scope session_scope.
Delimit Scope session_scope with session.
Notation "x <- m ;; k" := (bind m (fun x => k))
  (at level 61, m at next level, right associativity) : session_scope.
Notation "m ;; k" := (bind m (fun _ => k))
  (at level 61, right associativity) : session_scope.
Local Open Scope session_scope.

(** The multimeter paragraph of [setup_instruments], the same in both
    files: the value left in [dmm]. *)
Definition connect_dmm (available_resources : list pystr) : L handle :=
  if listed dmm_addr available_resources then
    attempt
      (touch Multimeter OpenResource ;;
       touch Multimeter (Timeout 3000) ;;
       pause 0.2 ;;
       id <- touch Multimeter (QueryMessage IDN) ;;
       say (DmmId id) ;;
       touch Multimeter (WriteMessage (Scpi CLS)) ;;
       ret (Some Multimeter))
      (fun e => say (DmmFailed e) ;; ret None)
  else
    say DmmNotFound ;; ret None.

(** The lines both files share at the start of the [try] block of the
    power-supply paragraph. *)
Definition initialize_psu : L unit :=
  touch PowerSupply OpenResource ;;
  touch PowerSupply (Timeout 3000) ;;
  pause 0.2 ;;
  id <- touch PowerSupply (QueryMessage IDN) ;;
  say (PsuId id) ;;
  touch PowerSupply (WriteMessage (Scpi CLS)) ;;
  touch PowerSupply (WriteMessage (Scpi INST_CH1)) ;;
  touch PowerSupply (WriteMessage OUTP_OFF) ;;
  touch PowerSupply (WriteMessage VOLT_0) ;;
  pause 0.2.

(** The power-supply paragraph of [setup_instruments] in current_code.py:
    the value left in [psu]. *)
Definition connect_psu (available_resources : list pystr) : L handle :=
  if listed psu_addr available_resources then
    attempt
      (initialize_psu ;;
       ret (Some PowerSupply))
      (fun e => say (PsuFailed e) ;; ret None)
  else
    say PsuNotFound ;; say CheckPsu ;; ret None.

(** [setup_instruments()] of current_code.py: the pair [(psu, dmm)]. *)
Definition setup_instruments : L (handle * handle) :=
  available_resources <- list_resources ;;
  say (Available available_resources) ;;
  dmm <- connect_dmm available_resources ;;
  pause 0.5 ;;
  psu <- connect_psu available_resources ;;
  ret (psu, dmm).

(** The power-supply paragraph of [setup_instruments] in
    Current_module.py. *)
Definition connect_psu_or_exit (available_resources : list pystr) : L handle :=
  if listed psu_addr available_resources then
    attempt
      (initialize_psu ;;
       say PsuConnected ;;
       say ContinueTest ;;
       ret (Some PowerSupply))
      (fun e => say (PsuFailed e) ;; ret None)
  else
    say PsuNotFound ;; say CheckPsu ;; say StopTesting ;; raise SystemExit.

(** [setup_instruments()] of Current_module.py. *)
Definition setup_instruments_or_exit : L (handle * handle) :=
  available_resources <- list_resources ;;
  say (Available available_resources) ;;
  dmm <- connect_dmm available_resources ;;
  pause 0.5 ;;
  psu <- connect_psu_or_exit available_resources ;;
  ret (psu, dmm).

(** [float(input(prompt))] *)
Definition read_voltage (p : prompt) : L float :=
  line <- input p ;;
  match PyFloat.py_float line with
  | Some v => ret v
  | None => raise (Exception ValueError)
  end.

(** The [try] block of [main] after the call of [setup_instruments]. *)
Definition run_tests (fuel : nat) (psu dmm : handle) : L unit :=
  match dmm with
  | None => say DmmUnavailable
  | Some _ =>
      say EnterVoltages ;;
      v_main <- read_voltage MainVoltage ;;
      v_double <- read_voltage DoubleVoltage ;;
      v_triple <- read_voltage TripleVoltage ;;
      drive (run_beep_sequence fuel psu dmm v_main v_double v_triple) ;;
      ret tt
  end.

(** The two [except] clauses of [main]. *)
Definition report_errors (body : L unit) : L unit :=
  fun s =>
    match body s with
    | None => None
    | Some (Done a, s') => Some (Done a, s')
    | Some (Stop sg, s') =>
        if is_value_error sg then say InvalidInput s'
        else if is_exception sg then say (ErrorLine sg) s'
        else Some (Stop sg, s')
    end.

(** The [finally] block of [main]. *)
Definition close_instruments (psu dmm : handle) : L unit :=
  say Closing ;;
  attempt
    (match dmm with
     | Some d => touch d Close ;; say DmmClosed
     | None => ret tt
     end ;;
     match psu with
     | Some d => touch d Close ;; say PsuClosed
     | None => ret tt
     end)
    (fun e => say (CloseError e)).

(** [main()]: [psu] and [dmm] are [None] until [setup_instruments] has
    returned. *)
Definition main (fuel : nat) : L unit :=
  fun s =>
    match setup_instruments s with
    | None => None
    | Some (Done (psu, dmm), s') =>
        finally (report_errors (run_tests fuel psu dmm)) (close_instruments psu dmm) s'
    | Some (Stop sg, s') =>
        finally (report_errors (raise sg)) (close_instruments None None) s'
    end.

(** [run_at_voltage(psu, dmm, voltage)] of Current_module.py *)
Definition run_at_voltage (psu dmm : handle) (voltage : float) : L unit :=
  list_resources ;;
  touch_handle psu (WriteMessage (Scpi INST_CH1)) ;;
  touch_handle psu (WriteMessage (Scpi (VOLT voltage))) ;;
  touch_handle psu (WriteMessage (Scpi OUTP_ON)) ;;
  say (RunningAt voltage) ;;
  pause 3 ;;
  touch_handle psu (WriteMessage OUTP_OFF) ;;
  say TurnedOff.

End Session.

(** ** Journals: vocabulary for the properties of the session *)

Module Journals.
Import PyNum Bench Session.

(** The laboratory after one more action that is not an access. *)
Definition noted (s : lab) (a : action) : lab :=
  mkLab (resources s) (answers s) (asked s) (keyboard s) (journal s ++ [a]).

(** The laboratory after one more access to an instrument. *)
Definition touched (s : lab) (d : device) (op : operation) : lab :=
  mkLab (resources s) (answers s) (S (asked s)) (keyboard s) (journal s ++ [Touch d op]).

(** An access of a driver, as an operation of the session. *)
Definition operation_of (a : access) : operation :=
  match a with
  | Write c => WriteMessage (Scpi c)
  | Query c => QueryMessage (Scpi c)
  | SetTimeout ms => Timeout ms
  end.

Definition driver_touch (p : device * access) : device * operation :=
  (fst p, operation_of (snd p)).

(** The accesses to the instruments among the actions of a journal, those
    of the drivers included. *)
Definition touches (j : list action) : list (device * operation) :=
  flat_map (fun a =>
              match a with
              | Touch d op => [(d, op)]
              | Driver (Instr d a) => [(d, operation_of a)]
              | _ => []
              end) j.

(** The events of the drivers among the actions of a journal. *)
Definition drivers (j : list action) : list event :=
  flat_map (fun a => match a with Driver ev => [ev] | _ => [] end) j.

(** How far a run of [len] accesses gets from access number [start] on:
    the number of accesses made, the failing one included, and whether all
    were answered. *)
Fixpoint reach (answers : nat -> reply) (start len : nat) : nat * bool :=
  match len with
  | O => (O, true)
  | S len' =>
      match answers start with
      | Failure => (1%nat, false)
      | Answer _ =>
          let (n, ok) := reach answers (S start) len' in
          (S n, ok)
      end
  end.

(** The accesses of the two paragraphs of [setup_instruments] when nothing
    fails. *)
Definition dmm_script : list (device * operation) :=
  [(Multimeter, OpenResource); (Multimeter, Timeout 3000);
   (Multimeter, QueryMessage IDN); (Multimeter, WriteMessage (Scpi CLS))].

Definition psu_script : list (device * operation) :=
  [(PowerSupply, OpenResource); (PowerSupply, Timeout 3000);
   (PowerSupply, QueryMessage IDN); (PowerSupply, WriteMessage (Scpi CLS));
   (PowerSupply, WriteMessage (Scpi INST_CH1)); (PowerSupply, WriteMessage OUTP_OFF);
   (PowerSupply, WriteMessage VOLT_0)].

(** How far the multimeter paragraph gets, and how far the power-supply
    paragraph gets after it. *)
Definition dmm_reach (available_resources : list pystr) (s : lab) : nat * bool :=
  if listed dmm_addr available_resources then reach (answers s) (asked s) 4
  else (0%nat, false).

Definition psu_reach (available_resources : list pystr) (s : lab) : nat * bool :=
  if listed psu_addr available_resources then
    reach (answers s) (fst (dmm_reach available_resources s) + asked s) 7
  else (0%nat, false).

Definition connected (d : device) (ok : bool) : handle :=
  if ok then Some d else None.

(** The accesses of the [finally] block of [main] when nothing fails. *)
Definition close_script (psu dmm : handle) : list (device * operation) :=
  match dmm with Some d => [(d, Close)] | None => [] end
  ++ match psu with Some d => [(d, Close)] | None => [] end.

(** The accesses of [run_at_voltage] when nothing fails. *)
Definition voltage_script (d : device) (voltage : float) : list (device * operation) :=
  [(d, WriteMessage (Scpi INST_CH1)); (d, WriteMessage (Scpi (VOLT voltage)));
   (d, WriteMessage (Scpi OUTP_ON)); (d, WriteMessage OUTP_OFF)].

(** What separates a laboratory [s'] from an earlier one [s] when only the
    accesses [ts] were made in between, none of them by a driver, and the
    keyboard was left alone. *)
Definition evolves (s s' : lab) (ts : list (device * operation)) : Prop :=
  resources s' = resources s /\
  answers s' = answers s /\
  keyboard s' = keyboard s /\
  asked s' = (List.length ts + asked s)%nat /\
  touches (journal s') = touches (journal s) ++ ts /\
  drivers (journal s') = drivers (journal s).

(** The laboratory after [input(p)]: the first waiting line, if any, is
    consumed. *)
Definition prompted (s : lab) (p : prompt) : lab :=
  mkLab (resources s) (answers s) (asked s) (tl (keyboard s)) (journal s ++ [Ask p]).

(** What separates a laboratory [s'] from an earlier one [s] when nothing
    was done but printing, waiting and reading the keyboard. *)
Definition talks (s s' : lab) : Prop :=
  resources s' = resources s /\
  answers s' = answers s /\
  asked s' = asked s /\
  touches (journal s') = touches (journal s) /\
  drivers (journal s') = drivers (journal s).

(** The bench a driver called from laboratory [s] finds. *)
Definition bench_of (s : lab) : world :=
  mkWorld (fun k => answers s (k + asked s)%nat) 0 [].

(** The laboratory after a driver call that left the bench [w']. *)
Definition driven (s : lab) (w' : world) : lab :=
  mkLab (resources s) (answers s) (accesses w' + asked s) (keyboard s)
        (journal s ++ map Driver (trace w')).

(** The line [main] prints for a failure of the resource listing. *)
Definition listing_report (e : exn) : notice :=
  match e with
  | ValueError => InvalidInput
  | _ => ErrorLine (Exception e)
  end.

(** An outcome that an [except Exception] clause handles, if it is a stop
    at all. *)
Definition catchable {A : Type} (o : outcome A) : Prop :=
  match o with
  | Done _ => True
  | Stop sg => is_exception sg = true
  end.

(** A laboratory whose instruments answer every access with [payload],
    with [lines] typed on the keyboard. *)
Definition steady_lab (available_resources : list pystr) (payload : pystr)
    (lines : list pystr) : lab :=
  mkLab (Ok available_resources) (fun _ => Answer payload) 0 lines [].

End Journals.

(** ** Pulses: vocabulary for further properties of the scan *)

Module Pulses.
Import Detector.

(** Index [i] is a position of the array whose cell is above the threshold. *)
Definition active (above : list bool) (i : Z) : Prop :=
  0 <= i /\ nth_error above (Z.to_nat i) = Some true.

(** A choice of above-threshold positions, each at least [gap] after the
    one before. *)
Definition selection (above : list bool) (gap : Z) (l : list Z) : Prop :=
  spaced gap l /\ Forall (active above) l.

(** All above-threshold positions from position [start] on, in order. *)
Fixpoint active_from (start : nat) (above : list bool) : list Z :=
  match above with
  | [] => []
  | b :: rest =>
      if b then Z.of_nat start :: active_from (S start) rest
      else active_from (S start) rest
  end.

Definition active_indices (above : list bool) : list Z := active_from 0 above.

(** No reading is above the threshold. *)
Definition all_quiet (readings : list float) (threshold : float) : Prop :=
  Forall (fun x => PrimFloat.ltb threshold x = false) readings.

(** Position [k] holds the first reading above the threshold. *)
Definition first_active (above : list bool) (k : nat) : Prop :=
  nth_error above k = Some true /\
  forall j, (j < k)%nat -> nth_error above j = Some false.

(** Reading number [i] exists and is above the threshold. *)
Definition over (readings : list float) (threshold : float) (i : Z) : Prop :=
  0 <= i /\
  exists x, nth_error readings (Z.to_nat i) = Some x /\ PrimFloat.ltb threshold x = true.

End Pulses.

(** ** Payloads: vocabulary for further properties of the parser *)

Module Payloads.
Import PyText Parser.

(** A character that is neither kept nor a comma. *)
Definition is_noise (c : ascii) : bool := negb (keep c) && negb (Ascii.eqb comma c).

(** The number of commas of a payload. *)
Definition commas (s : pystr) : nat := List.length (filter (Ascii.eqb comma) s).

(** A text without any decimal digit. *)
Definition digitless (s : pystr) : Prop := Forall (fun c => is_decimal c = false) s.

End Payloads.

(** ** Scripts: vocabulary for further properties of the drivers *)

Module Scripts.
Import PyNum Bench.

(** The accesses [run_test] makes when nothing fails, in order; [ms] is the
    timeout it computed. *)
Definition run_script (d d' : device) (voltage : float) (nplc : pynum)
    (sample_count ms : Z) : list (device * access) :=
  [(d, Write INST_CH1); (d, Write (VOLT voltage)); (d, Write OUTP_ON);
   (d', SetTimeout ms); (d', Write CLS); (d', Write CONF_CURR_DC);
   (d', Write (CURR_DC_NPLC nplc)); (d', Write (SAMP_COUN sample_count));
   (d', Write TRIG_SOUR_IMM); (d', Write INIT); (d', Query FETC)].

(** The last event of a world's trace. *)
Definition ends_with (w : world) (ev : event) : Prop :=
  exists before, trace w = before ++ [ev].

(** What a step guarantees about the value it returns. *)
Definition returns {A : Type} (m : M A) (P : A -> Prop) : Prop :=
  forall w a w', m w = Some (Ok a, w') -> P a.

(** What a step guarantees about the value it returns and the world it
    leaves. *)
Definition leaves {A : Type} (m : M A) (Q : A -> world -> Prop) : Prop :=
  forall w a w', m w = Some (Ok a, w') -> Q a w'.

(** What the sequencer has done when it returns: refused, given up for want
    of data, or plotted the three results in their order. *)
Definition sequence_outcome (v_main v_double v_triple : float) (v : pyval) (w' : world)
  : Prop :=
  v = PyNone /\
  (ends_with w' (Print CannotRun) \/
   ends_with w' (Print NoReadings) \/
   exists main double triple,
     ends_with w' (Plot [main; double; triple]) /\
     readings main <> [] /\
     label main = str "Main Test" /\ voltage main = v_main /\
     label double = str "Double Beep" /\ voltage double = v_double /\
     label triple = str "Triple Beep" /\ voltage triple = v_triple).

(** A step that always comes back. *)
Definition total {A : Type} (m : M A) : Prop :=
  forall w, exists r w', m w = Some (r, w').

(** From some fuel on, the step ends, and always in the same way. *)
Definition settles {A : Type} (m : nat -> M A) : Prop :=
  forall w, exists fuel0 r w',
    forall fuel, (fuel0 <= fuel)%nat -> m fuel w = Some (r, w').

(** The events that are a call of [plot_results]. *)
Definition is_plot (ev : event) : bool :=
  match ev with
  | Plot _ => true
  | _ => false
  end.

(** Between the worlds [w] and [w'] events were added, none of them a call
    of [plot_results]. *)
Definition unplotted (w w' : world) : Prop :=
  exists new, trace w' = trace w ++ new /\ Forall (fun ev => is_plot ev = false) new.

(** The step plots nothing, however it ends. *)
Definition plots_nothing {A : Type} (m : M A) : Prop :=
  forall w r w', m w = Some (r, w') -> unplotted w w'.

(** [run_beep_sequence] with its last call left open: [plot] stands for
    whatever [plot_results] does with the three results, an exception it may
    raise included. *)
Definition sequence_with (plot : list acquisition -> M unit) (fuel : nat)
    (psu dmm : handle) (v_main v_double v_triple : float) : M pyval :=
  match psu with
  | None => print CannotRun ;; ret PyNone
  | Some _ =>
      write psu OUTP_ON ;;
      result_main <- run_test psu dmm v_main (str "Main Test")
                       default_nplc default_sample_count ;;
      let r := readings result_main in
      let max_current :=
        match r with
        | [] => Ok (PyInt 0)
        | _ :: _ => match py_max r with Ok x => Ok (PyFloat x) | Raise e => Raise e end
        end in
      _ <- lift max_current ;;
      if is_nil r then print NoReadings ;; ret PyNone
      else
        print (MainHeader v_main) ;;
        lo <- lift (py_min r) ;;
        hi <- lift (py_max r) ;;
        avg <- lift (py_mean r) ;;
        print (MainStats (lo * 1000) (hi * 1000) (avg * 1000)) ;;
        result_double <- run_test psu dmm v_double (str "Double Beep")
                           default_nplc default_sample_count ;;
        double_detected <- call_detect_beep fuel (readings result_double)
                             (str "Double Beep")
                             Detector.default_threshold Detector.default_min_gap ;;
        result_triple <- run_test psu dmm v_triple (str "Triple Beep") (PyInt 1) 600 ;;
        triple_detected <- call_detect_beep fuel (readings result_triple)
                             (str "Triple Beep") 0.005%float 10 ;;
        plot [result_main; result_double; result_triple] ;;
        ret PyNone
  end.

(** How an exception [e] came out of the sequencer between the worlds [w]
    and [w']: before the plot, and then it is one of two, or out of the
    plot itself. *)
Definition raised_well (plot : list acquisition -> M unit) (w : world) (e : exn)
    (w' : world) : Prop :=
  ((e = VisaIOError \/ e = OverflowError) /\ unplotted w w')
  \/
  (exists w1 results,
     unplotted w w1 /\ plot results w1 = Some (Raise e, w')).

(** Every exception the step raises came out in one of these two ways. *)
Definition raises_well {A : Type} (plot : list acquisition -> M unit) (m : M A) : Prop :=
  forall w e w', m w = Some (Raise e, w') -> raised_well plot w e w'.

End Scripts.

(** ** Facts about the detector's scan *)

Module DetectorFacts.
Import Detector.

Lemma np_index_in_range (above : list bool) (c : Z) (b : bool) :
  0 <= c -> nth_error above (Z.to_nat c) = Some b -> np_index above c = Ok b.
Proof.
  intros Hc Hn. unfold np_index.
  assert (Hlt : (Z.to_nat c < List.length above)%nat)
    by (apply nth_error_Some; congruence).
  replace ((0 <=? c) && (c <? Z.of_nat (List.length above))) with true.
  - now rewrite Hn.
  - symmetry. apply andb_true_iff. split; [apply Z.leb_le | apply Z.ltb_lt]; lia.
Qed.

Lemma nth_error_in_range (above : list bool) (c : Z) :
  0 <= c < Z.of_nat (List.length above) ->
  exists b, nth_error above (Z.to_nat c) = Some b.
Proof.
  intros Hc. destruct (nth_error above (Z.to_nat c)) as [b|] eqn:E.
  - now exists b.
  - apply nth_error_None in E. lia.
Qed.

(** The loop body at a cursor inside the array. *)
Lemma scan_step_at (above : list bool) (g c : Z) (l : list Z) (b : bool) :
  0 <= c -> nth_error above (Z.to_nat c) = Some b ->
  scan_step above g (mkScan c l) =
    Continue (if b then mkScan (c + g) (l ++ [c]) else mkScan (c + 1) l).
Proof.
  intros Hc Hn. unfold scan_step; cbn [cursor spike_indices].
  assert (Hlt : (Z.to_nat c < List.length above)%nat)
    by (apply nth_error_Some; congruence).
  replace (c <? Z.of_nat (List.length above)) with true
    by (symmetry; apply Z.ltb_lt; lia).
  rewrite (np_index_in_range above c b Hc Hn). now destruct b.
Qed.

Lemma scan_step_exit (above : list bool) (g : Z) (st : scan_state) :
  Z.of_nat (List.length above) <= cursor st ->
  scan_step above g st = Finished (spike_indices st).
Proof.
  intros H. unfold scan_step.
  replace (cursor st <? Z.of_nat (List.length above)) with false; [reflexivity|].
  symmetry. apply Z.ltb_ge. lia.
Qed.

Lemma scan_loop_more_fuel (above : list bool) (g : Z) (fuel : nat) :
  forall st r extra,
    scan_loop fuel above g st = Some r ->
    scan_loop (fuel + extra) above g st = Some r.
Proof.
  induction fuel as [|fuel IH]; intros st r extra H; [discriminate|].
  cbn [scan_loop Nat.add] in *.
  destruct (scan_step above g st); auto.
Qed.

Lemma scan_loop_fuel_le (above : list bool) (g : Z) (f1 f2 : nat) st r :
  (f1 <= f2)%nat ->
  scan_loop f1 above g st = Some r -> scan_loop f2 above g st = Some r.
Proof.
  intros Hle H. replace f2 with (f1 + (f2 - f1))%nat by lia.
  now apply scan_loop_more_fuel.
Qed.

(** With [min_gap >= 1] the cursor moves right on every pass, so a fuel
    above the number of cells left is enough. *)
Lemma scan_loop_total (above : list bool) (g : Z) :
  1 <= g ->
  forall fuel st,
    0 <= cursor st ->
    Z.max 0 (Z.of_nat (List.length above) - cursor st) < Z.of_nat fuel ->
    exists spikes, scan_loop fuel above g st = Some (Ok spikes).
Proof.
  intros Hg. induction fuel as [|fuel IH]; intros [c l] Hc Hf; cbn [cursor] in *.
  - lia.
  - cbn [scan_loop].
    destruct (Z_lt_le_dec c (Z.of_nat (List.length above))) as [Hin|Hout].
    + destruct (nth_error_in_range above c (conj Hc Hin)) as [b Hb].
      rewrite (scan_step_at above g c l b Hc Hb).
      destruct b; apply IH; cbn [cursor]; lia.
    + rewrite scan_step_exit by (cbn [cursor]; lia). now exists l.
Qed.

Lemma scan_from_start_total (above : list bool) (g : Z) :
  1 <= g ->
  exists spikes, forall fuel, (List.length above < fuel)%nat ->
    scan_loop fuel above g scan_init = Some (Ok spikes).
Proof.
  intros Hg.
  destruct (scan_loop_total above g Hg (S (List.length above)) scan_init)
    as [spikes Hs]; cbn [cursor scan_init]; try lia.
  exists spikes. intros fuel Hf.
  apply (scan_loop_fuel_le above g (S (List.length above))); [lia | exact Hs].
Qed.

(** With [min_gap = 0] the cursor never gets past a cell that is above the
    threshold: the loop test stays true whatever the fuel. *)
Lemma scan_loop_stuck (above : list bool) (k : nat) :
  nth_error above k = Some true ->
  forall fuel st,
    0 <= cursor st <= Z.of_nat k ->
    scan_loop fuel above 0 st = None.
Proof.
  intros Hk. induction fuel as [|fuel IH]; intros [c l] Hc; cbn [cursor] in *;
    [reflexivity|].
  assert (Hlen : (k < List.length above)%nat) by (apply nth_error_Some; congruence).
  destruct (nth_error_in_range above c) as [b Hb]; [lia|].
  cbn [scan_loop]. rewrite (scan_step_at above 0 c l b) by (lia || assumption).
  destruct b; apply IH; cbn [cursor]; [lia|].
  assert (c <> Z.of_nat k).
  { intros ->. rewrite Nat2Z.id in Hb. congruence. }
  lia.
Qed.

(** *** Spacing of the recorded indices *)

Lemma spaced_snoc (g c : Z) (l : list Z) :
  spaced g l -> Forall (fun s => s + g <= c) l -> spaced g (l ++ [c]).
Proof.
  induction l as [|x tl IH]; intros Hs Hall; cbn [spaced app].
  - auto.
  - destruct Hs as [Hx Htl]. inversion Hall as [|? ? Hxc Hrest]; subst.
    split; [|now apply IH].
    destruct tl as [|y tl']; cbn [app]; [exact Hxc | exact Hx].
Qed.

Lemma spaced_increasing (g : Z) (l : list Z) :
  1 <= g -> spaced g l -> increasing l.
Proof.
  intros Hg. induction l as [|x tl IH]; cbn [spaced increasing]; [auto|].
  intros [Hx Htl]. split; [|now apply IH].
  destruct tl; [exact I | lia].
Qed.

Lemma gap_invariant_step (above : list bool) (g : Z) (st st' : scan_state) :
  1 <= g -> gap_invariant g st -> scan_step above g st = Continue st' ->
  gap_invariant g st'.
Proof.
  intros Hg (Hc & Hs & Hall) Hstep. destruct st as [c l]; cbn [cursor spike_indices] in *.
  unfold scan_step in Hstep; cbn [cursor spike_indices] in Hstep.
  destruct (c <? Z.of_nat (List.length above)); [|discriminate].
  destruct (np_index above c) as [[|]|]; inversion Hstep; subst; clear Hstep;
    unfold gap_invariant; cbn [cursor spike_indices].
  - split; [lia|]. split; [now apply spaced_snoc|].
    apply Forall_app; split.
    + eapply Forall_impl; [|exact Hall]. cbn; intros; lia.
    + constructor; [lia | constructor].
  - split; [lia|]. split; [exact Hs|].
    eapply Forall_impl; [|exact Hall]. cbn; intros; lia.
Qed.

Lemma gap_invariant_finish (above : list bool) (g : Z) :
  1 <= g ->
  forall fuel st spikes,
    gap_invariant g st ->
    scan_loop fuel above g st = Some (Ok spikes) ->
    spaced g spikes.
Proof.
  intros Hg. induction fuel as [|fuel IH]; intros st spikes Hinv H; [discriminate|].
  cbn [scan_loop] in H.
  destruct (scan_step above g st) as [st'| l |e] eqn:E.
  - eapply IH; [|exact H]. eapply gap_invariant_step; eauto.
  - unfold scan_step in E. destruct (cursor st <? _); [|].
    + destruct (np_index above (cursor st)) as [[|]|]; discriminate.
    + inversion E; subst. inversion H; subst. apply Hinv.
  - discriminate.
Qed.

Lemma gap_invariant_iter (above : list bool) (g : Z) :
  1 <= g ->
  forall n st st',
    gap_invariant g st -> scan_iter n above g st = Some st' -> gap_invariant g st'.
Proof.
  intros Hg. induction n as [|n IH]; intros st st' Hinv H; cbn [scan_iter] in H.
  - now inversion H; subst.
  - destruct (scan_step above g st) as [st1| |] eqn:E; try discriminate.
    eapply IH; [|exact H]. eapply gap_invariant_step; eauto.
Qed.

Lemma held_back_step (above : list bool) (g : Z) (st st' : scan_state) :
  g <= 0 -> held_back above st -> scan_step above g st = Continue st' ->
  held_back above st'.
Proof.
  intros Hg Hinv Hstep. destruct st as [c l]; cbn [cursor spike_indices] in *.
  unfold scan_step in Hstep; cbn [cursor spike_indices] in Hstep.
  destruct (c <? Z.of_nat (List.length above)) eqn:Hlt; [|discriminate].
  apply Z.ltb_lt in Hlt.
  destruct (np_index above c) as [b|] eqn:Hb; [|discriminate].
  destruct Hinv as [[Hnil Hc]|[s0 [Hs0 Hle]]]; cbn [cursor spike_indices] in *.
  - destruct (nth_error_in_range above c (conj Hc Hlt)) as [b' Hb'].
    rewrite (np_index_in_range above c b' Hc Hb') in Hb. inversion Hb; subst b'.
    destruct b; inversion Hstep; subst; clear Hstep.
    + right. exists (Z.to_nat c). split; [exact Hb'|]. cbn [cursor]. lia.
    + left. cbn [cursor spike_indices]. split; [reflexivity | lia].
  - right. exists s0. split; [exact Hs0|].
    destruct b; inversion Hstep; subst; clear Hstep; cbn [cursor]; [lia|].
    assert (c <> Z.of_nat s0).
    { intros ->. rewrite (np_index_in_range above (Z.of_nat s0) true) in Hb.
      - discriminate.
      - lia.
      - now rewrite Nat2Z.id. }
    lia.
Qed.

Lemma held_back_finish (above : list bool) (g : Z) :
  g <= 0 ->
  forall fuel st spikes,
    held_back above st ->
    scan_loop fuel above g st = Some (Ok spikes) ->
    spikes = [].
Proof.
  intros Hg. induction fuel as [|fuel IH]; intros st spikes Hinv H; [discriminate|].
  cbn [scan_loop] in H.
  destruct (scan_step above g st) as [st'| l |e] eqn:E.
  - eapply IH; [|exact H]. eapply held_back_step; eauto.
  - unfold scan_step in E.
    destruct (cursor st <? Z.of_nat (List.length above)) eqn:Hlt.
    + destruct (np_index above (cursor st)) as [[|]|]; discriminate.
    + apply Z.ltb_ge in Hlt. inversion E; subst. inversion H; subst.
      destruct Hinv as [[Hnil _]|[s0 [Hs0 Hle]]]; [exact Hnil|].
      assert ((s0 < List.length above)%nat) by (apply nth_error_Some; congruence).
      lia.
  - discriminate.
Qed.

(** Every pass that ends normally leaves spaced, increasing indices. *)
Lemma finished_scan_spaced (above : list bool) (g : Z) (fuel : nat) (spikes : list Z) :
  scan_loop fuel above g scan_init = Some (Ok spikes) ->
  increasing spikes /\ spaced g spikes.
Proof.
  intros H. destruct (Z_le_gt_dec 1 g) as [Hg|Hg].
  - assert (Hs : spaced g spikes).
    { eapply (gap_invariant_finish above g Hg fuel scan_init); [|exact H].
      unfold gap_invariant, scan_init; cbn. repeat split; auto; lia. }
    split; [now apply (spaced_increasing g)|exact Hs].
  - assert (spikes = []) as ->.
    { eapply (held_back_finish above g) with (st := scan_init); [lia| |exact H].
      left. cbn. split; [reflexivity|lia]. }
    cbn. auto.
Qed.

(** *** A tail without activity *)

Lemma scan_loop_quiet (above : list bool) (g : Z) :
  forall fuel st,
    0 <= cursor st ->
    (forall k, (Z.to_nat (cursor st) <= k)%nat -> (k < List.length above)%nat ->
               nth_error above k = Some false) ->
    Z.max 0 (Z.of_nat (List.length above) - cursor st) < Z.of_nat fuel ->
    scan_loop fuel above g st = Some (Ok (spike_indices st)).
Proof.
  induction fuel as [|fuel IH]; intros [c l] Hc Hq Hf; cbn [cursor spike_indices] in *;
    [lia|].
  cbn [scan_loop].
  destruct (Z_lt_le_dec c (Z.of_nat (List.length above))) as [Hin|Hout].
  - rewrite (scan_step_at above g c l false Hc) by (apply Hq; lia).
    apply (IH (mkScan (c + 1) l)); cbn [cursor]; try lia.
    intros k Hk Hlen. apply Hq; lia.
  - now rewrite scan_step_exit by (cbn [cursor]; lia).
Qed.

(** *** The debounce example *)

Lemma example_above_eq (n : nat) :
  above_threshold (example_readings n) default_threshold = example_above n.
Proof.
  unfold above_threshold, example_readings, example_above.
  rewrite map_app. f_equal.
  induction n as [|n IH]; cbn [repeat map]; [reflexivity|]. now rewrite IH.
Qed.

Lemma example_above_length (n : nat) : List.length (example_above n) = (12 + n)%nat.
Proof. unfold example_above. rewrite length_app, repeat_length. reflexivity. Qed.

Lemma example_above_quiet (n k : nat) :
  (11 <= k)%nat -> (k < List.length (example_above n))%nat ->
  nth_error (example_above n) k = Some false.
Proof.
  rewrite example_above_length. intros Hk Hlen. unfold example_above.
  destruct (Nat.eq_dec k 11) as [->|Hne]; [reflexivity|].
  rewrite nth_error_app2 by (cbn; lia).
  apply nth_error_repeat. cbn. lia.
Qed.

Lemma scan_loop_at (above : list bool) (g c : Z) (l : list Z) (b : bool) (fuel : nat) :
  0 <= c -> nth_error above (Z.to_nat c) = Some b ->
  scan_loop (S fuel) above g (mkScan c l) =
    scan_loop fuel above g (if b then mkScan (c + g) (l ++ [c]) else mkScan (c + 1) l).
Proof.
  intros Hc Hn. cbn [scan_loop]. now rewrite (scan_step_at above g c l b Hc Hn).
Qed.

Ltac scan_one :=
  lazymatch goal with
  | |- scan_loop (S ?f) (example_above ?n) ?g (mkScan ?c ?l) = _ =>
      let b := eval cbv in (nth_error (example_above 0) (Z.to_nat c)) in
      lazymatch b with
      | Some ?v =>
          rewrite (scan_loop_at (example_above n) g c l v f ltac:(lia) eq_refl);
          cbn [app];
          let c1 := eval cbv in (c + 1) in change (c + 1) with c1;
          tryif is_var g then idtac
          else (let cg := eval cbv in (c + g) in change (c + g) with cg)
      end
  end.

Ltac scan_rest n :=
  rewrite scan_loop_quiet;
  [ reflexivity
  | cbn [cursor]; lia
  | cbn [cursor]; intros k Hk Hlen; apply example_above_quiet; [lia | exact Hlen]
  | cbn [cursor]; rewrite example_above_length; lia ].

Lemma example_scan_tight (n : nat) (g : Z) :
  1 <= g ->
  scan_loop (13 + n) (example_above n) g scan_init = Some (Ok (example_spikes g)).
Proof.
  intros Hg. unfold scan_init, example_spikes.
  change (13 + n)%nat with (S (S (S (10 + n)))).
  do 3 scan_one.
  destruct (Z_le_gt_dec 9 g) as [Hbig|Hsmall].
  - replace (g =? 1) with false by (symmetry; apply Z.eqb_neq; lia).
    replace (g <=? 8) with false by (symmetry; apply Z.leb_gt; lia).
    scan_rest n.
  - assert (Hcases : g = 1 \/ g = 2 \/ g = 3 \/ g = 4 \/ g = 5 \/ g = 6 \/ g = 7 \/ g = 8)
      by lia.
    change (10 + n)%nat with (S (S (S (S (S (S (S (S (S (1 + n)))))))))).
    repeat (destruct Hcases as [->|Hcases] || subst g);
      cbn [Z.eqb Z.leb Z.compare Pos.compare Pos.compare_cont Pos.eqb];
      repeat scan_one; scan_rest n.
Qed.

Lemma example_scan (n : nat) (g : Z) (fuel : nat) :
  1 <= g -> (12 + n < fuel)%nat ->
  scan_loop fuel (example_above n) g scan_init = Some (Ok (example_spikes g)).
Proof.
  intros Hg Hf. apply (scan_loop_fuel_le _ g (13 + n)); [lia|].
  now apply example_scan_tight.
Qed.

End DetectorFacts.

(** ** Facts about the text primitives *)

Module TextFacts.
Import PyText PyFloat Parser.

Ltac all_chars c :=
  destruct c as [[|] [|] [|] [|] [|] [|] [|] [|]];
  vm_compute; try reflexivity; try discriminate; auto.

Lemma isspace_not_kept (c : ascii) : isspace c = true -> keep c = false.
Proof. all_chars c. Qed.

Lemma float_space_not_kept (c : ascii) : float_space c = true -> keep c = false.
Proof. all_chars c. Qed.

Lemma isspace_not_comma (c : ascii) : isspace c = true -> Ascii.eqb comma c = false.
Proof. all_chars c. Qed.

Lemma float_space_not_comma (c : ascii) : float_space c = true -> Ascii.eqb comma c = false.
Proof. all_chars c. Qed.

Lemma kept_not_float_space (c : ascii) : keep c = true -> float_space c = false.
Proof. all_chars c. Qed.

Lemma kept_not_underscore (c : ascii) : keep c = true -> Ascii.eqb c underscore = false.
Proof. all_chars c. Qed.

Lemma underscore_not_kept (c : ascii) : Ascii.eqb c underscore = true -> keep c = false.
Proof. all_chars c. Qed.

Lemma underscore_not_comma (c : ascii) :
  Ascii.eqb c underscore = true -> Ascii.eqb comma c = false.
Proof. all_chars c. Qed.

Lemma decimal_kept (c : ascii) : is_decimal c = true -> keep c = true.
Proof. all_chars c. Qed.

Lemma decimal_not_comma (c : ascii) : is_decimal c = true -> Ascii.eqb comma c = false.
Proof. all_chars c. Qed.

Lemma decimal_not_sign (c : ascii) :
  is_decimal c = true -> Ascii.eqb c "-" = false /\ Ascii.eqb c "+" = false.
Proof. all_chars c. Qed.

Lemma marker_kept (c : ascii) : is_exp_marker c = true -> keep c = true.
Proof. all_chars c. Qed.

Lemma marker_not_decimal (c : ascii) : is_exp_marker c = true -> is_decimal c = false.
Proof. all_chars c. Qed.

Lemma marker_not_point (c : ascii) : is_exp_marker c = true -> Ascii.eqb c "." = false.
Proof. all_chars c. Qed.

Lemma marker_not_comma (c : ascii) : is_exp_marker c = true -> Ascii.eqb comma c = false.
Proof. all_chars c. Qed.

(** *** Stripping *)

Section Strip.
Variable p : ascii -> bool.
Hypothesis p_not_kept : forall c, p c = true -> keep c = false.
Hypothesis p_not_comma : forall c, p c = true -> Ascii.eqb comma c = false.

Lemma clean_lstrip_by (s : pystr) : clean (lstrip_by p s) = clean s.
Proof.
  induction s as [|c t IH]; cbn [lstrip_by]; [reflexivity|].
  destruct (p c) eqn:E; [|reflexivity].
  rewrite IH. unfold clean. cbn [filter]. now rewrite (p_not_kept c E).
Qed.

Lemma clean_rstrip_by (s : pystr) : clean (rstrip_by p s) = clean s.
Proof.
  induction s as [|c t IH]; cbn [rstrip_by]; [reflexivity|].
  destruct (is_nil (rstrip_by p t) && p c) eqn:E.
  - apply andb_true_iff in E as [En Ep].
    destruct (rstrip_by p t); [|discriminate].
    unfold clean in *. cbn [filter] in *. now rewrite (p_not_kept c Ep).
  - unfold clean in *. cbn [filter]. now rewrite IH.
Qed.

Lemma has_comma_lstrip_by (s : pystr) : has_comma (lstrip_by p s) = has_comma s.
Proof.
  induction s as [|c t IH]; cbn [lstrip_by]; [reflexivity|].
  destruct (p c) eqn:E; [|reflexivity].
  rewrite IH. unfold has_comma. cbn [existsb]. now rewrite (p_not_comma c E).
Qed.

Lemma has_comma_rstrip_by (s : pystr) : has_comma (rstrip_by p s) = has_comma s.
Proof.
  induction s as [|c t IH]; cbn [rstrip_by]; [reflexivity|].
  destruct (is_nil (rstrip_by p t) && p c) eqn:E.
  - apply andb_true_iff in E as [En Ep].
    destruct (rstrip_by p t); [|discriminate].
    unfold has_comma in *. cbn [existsb] in *. now rewrite (p_not_comma c Ep).
  - unfold has_comma in *. cbn [existsb]. now rewrite IH.
Qed.
End Strip.

(** *** Splitting and joining *)

Lemma split_comma_cons (s : pystr) : exists piece pieces, split_comma s = piece :: pieces.
Proof.
  induction s as [|c t (piece & pieces & IH)]; cbn [split_comma]; [now eexists _, _|].
  destruct (Ascii.eqb comma c); [now eexists _, _|]. rewrite IH. now eexists _, _.
Qed.

Lemma clean_pieces_cons (c : ascii) (s : pystr) :
  Ascii.eqb comma c = false ->
  clean_pieces (c :: s) = push_kept c (clean_pieces s).
Proof.
  intros Hc. unfold clean_pieces. cbn [split_comma]. rewrite Hc.
  destruct (split_comma_cons s) as (piece & pieces & ->).
  cbn [map push_kept]. unfold clean at 1. cbn [filter]. now destruct (keep c).
Qed.

Section StripPieces.
Variable p : ascii -> bool.
Hypothesis p_not_kept : forall c, p c = true -> keep c = false.
Hypothesis p_not_comma : forall c, p c = true -> Ascii.eqb comma c = false.

Lemma push_dropped (c : ascii) (s : pystr) :
  p c = true -> clean_pieces (c :: s) = clean_pieces s.
Proof.
  intros Hp. rewrite clean_pieces_cons by auto.
  unfold clean_pieces. destruct (split_comma_cons s) as (piece & pieces & ->).
  cbn [map push_kept]. now rewrite (p_not_kept c Hp).
Qed.

Lemma clean_pieces_lstrip_by (s : pystr) :
  clean_pieces (lstrip_by p s) = clean_pieces s.
Proof.
  induction s as [|c t IH]; cbn [lstrip_by]; [reflexivity|].
  destruct (p c) eqn:E; [|reflexivity].
  now rewrite IH, push_dropped.
Qed.

Lemma clean_pieces_rstrip_by (s : pystr) :
  clean_pieces (rstrip_by p s) = clean_pieces s.
Proof.
  induction s as [|c t IH]; cbn [rstrip_by]; [reflexivity|].
  destruct (is_nil (rstrip_by p t) && p c) eqn:E.
  - apply andb_true_iff in E as [En Ep].
    destruct (rstrip_by p t); [|discriminate].
    now rewrite push_dropped, <- IH.
  - destruct (Ascii.eqb comma c) eqn:Hc.
    + unfold clean_pieces in *. cbn [split_comma]. rewrite Hc. cbn [map]. now rewrite IH.
    + now rewrite !clean_pieces_cons, IH.
Qed.
End StripPieces.

Lemma clean_pieces_strip (s : pystr) : clean_pieces (strip s) = clean_pieces s.
Proof.
  unfold strip.
  rewrite (clean_pieces_rstrip_by isspace isspace_not_kept isspace_not_comma).
  apply (clean_pieces_lstrip_by isspace isspace_not_kept isspace_not_comma).
Qed.

Lemma clean_strip (s : pystr) : clean (strip s) = clean s.
Proof.
  unfold strip. rewrite (clean_rstrip_by isspace isspace_not_kept).
  apply (clean_lstrip_by isspace isspace_not_kept).
Qed.

Lemma has_comma_strip (s : pystr) : has_comma (strip s) = has_comma s.
Proof.
  unfold strip. rewrite (has_comma_rstrip_by isspace isspace_not_comma).
  apply (has_comma_lstrip_by isspace isspace_not_comma).
Qed.

Lemma has_comma_app (a b : pystr) : has_comma (a ++ b) = has_comma a || has_comma b.
Proof. apply existsb_app. Qed.

Lemma split_comma_free (s : pystr) : has_comma s = false -> split_comma s = [s].
Proof.
  induction s as [|c t IH]; cbn [split_comma has_comma existsb]; [reflexivity|].
  intros H. apply orb_false_iff in H as [Hc Ht]. rewrite Hc.
  unfold has_comma in IH. now rewrite (IH Ht).
Qed.

Lemma split_comma_app (a b : pystr) :
  has_comma a = false -> split_comma (a ++ comma :: b) = a :: split_comma b.
Proof.
  induction a as [|c t IH]; cbn [app split_comma has_comma existsb].
  - intros _. now rewrite Ascii.eqb_refl.
  - intros H. apply orb_false_iff in H as [Hc Ht]. rewrite Hc.
    unfold has_comma in IH. now rewrite (IH Ht).
Qed.

Lemma split_join (pieces : list pystr) :
  pieces <> [] -> Forall (fun piece => has_comma piece = false) pieces ->
  split_comma (join_comma pieces) = pieces.
Proof.
  induction pieces as [|piece rest IH]; intros Hne Hall; [congruence|].
  inversion Hall as [|? ? Hp Hrest]; subst.
  destruct rest as [|next rest'].
  - cbn [join_comma]. now apply split_comma_free.
  - change (join_comma (piece :: next :: rest'))
      with (piece ++ comma :: join_comma (next :: rest')).
    rewrite split_comma_app by exact Hp. f_equal. apply IH; [discriminate | exact Hrest].
Qed.

Lemma has_comma_join (pieces : list pystr) :
  Forall (fun piece => has_comma piece = false) pieces ->
  has_comma (join_comma pieces) = (2 <=? List.length pieces)%nat.
Proof.
  induction pieces as [|piece rest IH]; intros Hall; [reflexivity|].
  inversion Hall as [|? ? Hp Hrest]; subst.
  destruct rest as [|next rest'].
  - cbn [join_comma]. exact Hp.
  - change (join_comma (piece :: next :: rest'))
      with (piece ++ comma :: join_comma (next :: rest')).
    rewrite has_comma_app, Hp. cbn [has_comma existsb orb].
    now rewrite Ascii.eqb_refl.
Qed.

(** The characters of a piece are characters of the text that was split. *)
Lemma split_comma_chars (s : pystr) (piece : pystr) (c : ascii) :
  In piece (split_comma s) -> In c piece -> In c s.
Proof.
  revert piece. induction s as [|x t IH]; intros piece Hp Hc; cbn [split_comma] in Hp.
  - destruct Hp as [<-|[]]. exact Hc.
  - destruct (Ascii.eqb comma x).
    + destruct Hp as [<-|Hp]; [contradiction|]. right. eapply IH; eauto.
    + destruct (split_comma t) as [|first rest] eqn:E; [discriminate (f_equal (@List.length _) E) || idtac|].
      * destruct Hp as [<-|[]]. destruct Hc as [<-|[]]. now left.
      * destruct Hp as [<-|Hp].
        -- destruct Hc as [<-|Hc]; [now left|]. right. apply (IH first); [now left|exact Hc].
        -- right. apply (IH piece); [now right|exact Hc].
Qed.

(** A text none of whose characters is kept is cleaned to nothing. *)
Lemma clean_none (s : pystr) : (forall c, In c s -> keep c = false) -> clean s = [].
Proof.
  unfold clean. induction s as [|x t IH]; intros H; cbn [filter]; [reflexivity|].
  rewrite (H x (or_introl eq_refl)). apply IH. intros c Hc. apply H. now right.
Qed.

Lemma clean_nil_chars (s : pystr) : clean s = [] -> forall c, In c s -> keep c = false.
Proof.
  intros H c Hc. destruct (keep c) eqn:K; [|reflexivity].
  assert (Hin : In c (clean s)) by (apply filter_In; auto).
  rewrite H in Hin. contradiction.
Qed.

End TextFacts.

(** ** Facts about [float(str)] on decimal numerals *)

Module FloatFacts.
Import PyText PyFloat Parser TextFacts.

Lemma span_digits_spec (s d r : pystr) :
  span_digits s = (d, r) -> s = d ++ r /\ all_decimal d /\ stops r.
Proof.
  revert d r. induction s as [|c t IH]; intros d r H; cbn [span_digits] in H.
  - inversion H; subst. repeat split; constructor.
  - destruct (is_decimal c) eqn:E.
    + destruct (span_digits t) as [d' r'] eqn:E'. inversion H; subst.
      destruct (IH d' r eq_refl) as (-> & Hd & Hr).
      repeat split; [constructor; assumption | exact Hr].
    + inversion H; subst. repeat split; [constructor | exact E].
Qed.

Lemma span_digits_app (d r : pystr) :
  all_decimal d -> stops r -> span_digits (d ++ r) = (d, r).
Proof.
  intros Hd Hr. induction Hd as [|c d Hc Hd IH]; cbn [app span_digits].
  - destruct r as [|c t]; [reflexivity|]. cbn [stops span_digits] in *. now rewrite Hr.
  - now rewrite Hc, IH.
Qed.

Lemma clean_decimal (ds : pystr) : all_decimal ds -> clean ds = ds.
Proof.
  induction 1 as [|c d Hc Hd IH]; [reflexivity|].
  unfold clean in *. cbn [filter]. now rewrite (decimal_kept c Hc), IH.
Qed.

Lemma clean_app (a b : pystr) : clean (a ++ b) = clean a ++ clean b.
Proof. apply filter_app. Qed.

Lemma has_comma_decimal (ds : pystr) : all_decimal ds -> has_comma ds = false.
Proof.
  induction 1 as [|c d Hc Hd IH]; [reflexivity|].
  unfold has_comma in *. cbn [existsb]. now rewrite (decimal_not_comma c Hc), IH.
Qed.

(** *** Writing a shape out *)

Lemma take_sign_spec (s : pystr) (sg : option bool) (r : pystr) :
  take_sign s = (sg, r) ->
  s = render_sign sg ++ r /\
  (sg = None -> match r with
                | c :: _ => Ascii.eqb c "-" = false /\ Ascii.eqb c "+" = false
                | [] => True
                end).
Proof.
  destruct s as [|c t]; cbn [take_sign]; intros H.
  - inversion H; subst. now split.
  - destruct (Ascii.eqb c "-") eqn:Em.
    + inversion H; subst. apply Ascii.eqb_eq in Em as ->. split; [reflexivity|discriminate].
    + destruct (Ascii.eqb c "+") eqn:Ep; inversion H; subst.
      * apply Ascii.eqb_eq in Ep as ->. split; [reflexivity|discriminate].
      * split; [reflexivity|]. now intros _.
Qed.

Lemma take_sign_render (sg : option bool) (r : pystr) :
  (sg = None -> unsigned r) -> take_sign (render_sign sg ++ r) = (sg, r).
Proof.
  destruct sg as [[|]|]; intros H; [reflexivity | reflexivity |].
  cbn [render_sign app]. specialize (H eq_refl).
  destruct r as [|c t]; [reflexivity|]. cbn [take_sign unsigned] in *.
  destruct H as [-> ->]. reflexivity.
Qed.

Lemma scan_exponent_spec (s : pystr) (ex : option exponent_part) :
  scan_exponent s = Some ex -> s = render_exp ex /\ wf_exp ex.
Proof.
  destruct s as [|c t]; cbn [scan_exponent]; intros H.
  - inversion H; subst. now split.
  - destruct (is_exp_marker c) eqn:Em; [|discriminate].
    destruct (take_sign t) as [sg t1] eqn:Es.
    destruct (span_digits t1) as [ds t2] eqn:Ed.
    destruct ds as [|d ds]; [discriminate|].
    destruct t2; [|discriminate]. cbn in H. inversion H; subst; clear H.
    apply take_sign_spec in Es as [-> _].
    apply span_digits_spec in Ed as (-> & Hd & _).
    cbn [render_exp marker exp_sign exp_digits wf_exp]. rewrite app_nil_r.
    repeat split; [exact Em | exact Hd | discriminate].
Qed.

Lemma all_decimal_unsigned (ds r : pystr) :
  all_decimal ds -> ds <> [] -> unsigned (ds ++ r).
Proof.
  intros Hd Hne. destruct Hd as [|c d Hc Hd]; [congruence|].
  cbn [app unsigned]. now apply decimal_not_sign.
Qed.

Lemma scan_exponent_render (ex : option exponent_part) :
  wf_exp ex -> scan_exponent (render_exp ex) = Some ex.
Proof.
  destruct ex as [[m sg ds]|]; [|reflexivity].
  cbn [wf_exp render_exp scan_exponent marker exp_sign exp_digits].
  intros (Hm & Hd & Hne). rewrite Hm.
  rewrite take_sign_render
    by (intros _; rewrite <- (app_nil_r ds); now apply all_decimal_unsigned).
  rewrite <- (app_nil_r ds) at 1.
  rewrite span_digits_app by (exact Hd || exact I).
  destruct ds; [congruence|reflexivity].
Qed.

Lemma is_nil_app_false (a b : pystr) :
  is_nil a && is_nil b = false -> a ++ b <> [].
Proof. destruct a, b; cbn; congruence. Qed.

Lemma scan_shape_spec (s : pystr) (sh : shape) :
  scan_shape s = Some sh -> s = render sh /\ wf sh.
Proof.
  unfold scan_shape. intros H.
  destruct (take_sign s) as [sg s1] eqn:Es.
  destruct (span_digits s1) as [ip s2] eqn:Ei.
  apply take_sign_spec in Es as [-> _].
  apply span_digits_spec in Ei as (-> & Hip & Hstop).
  destruct s2 as [|c t].
  - rewrite andb_true_r in H. destruct (is_nil ip) eqn:En; [discriminate|].
    cbn [scan_exponent] in H. inversion H; subst; clear H.
    unfold render, render_frac, wf; cbn [sign int_digits point frac_digits expo render_exp wf_exp].
    repeat split; auto; [constructor|]. destruct ip; [discriminate|]. discriminate.
  - destruct (Ascii.eqb c ".") eqn:Ec.
    + destruct (span_digits t) as [fp r] eqn:Ef.
      apply span_digits_spec in Ef as (-> & Hfp & _).
      destruct (is_nil ip && is_nil fp) eqn:En; [discriminate|].
      destruct (scan_exponent r) as [ex|] eqn:Ee; [|discriminate].
      inversion H; subst; clear H.
      apply scan_exponent_spec in Ee as [-> Hex]. apply Ascii.eqb_eq in Ec as ->.
      unfold render, render_frac, wf; cbn [sign int_digits point frac_digits expo].
      repeat split; auto; [discriminate | now apply is_nil_app_false].
    + rewrite andb_true_r in H. destruct (is_nil ip) eqn:En; [discriminate|].
      destruct (scan_exponent (c :: t)) as [ex|] eqn:Ee; [|discriminate].
      inversion H; subst; clear H.
      apply scan_exponent_spec in Ee as [Hr Hex]. rewrite Hr.
      unfold render, render_frac, wf; cbn [sign int_digits point frac_digits expo].
      repeat split; auto; [constructor|]. destruct ip; discriminate.
Qed.

Lemma stops_render_exp (ex : option exponent_part) : wf_exp ex -> stops (render_exp ex).
Proof.
  destruct ex as [[m sg ds]|]; cbn; [|auto]. intros (Hm & _ & _).
  now apply marker_not_decimal.
Qed.

Lemma scan_shape_render (sh : shape) : wf sh -> scan_shape (render sh) = Some sh.
Proof.
  destruct sh as [sg ip pt fp ex]. unfold wf, render, render_frac, scan_shape.
  cbn [sign int_digits point frac_digits expo].
  intros (Hip & Hfp & Hpt & Hne & Hex).
  rewrite take_sign_render.
  2:{ intros _. destruct ip as [|c ip'].
      - destruct pt; [cbn; split; reflexivity|].
        rewrite (Hpt eq_refl) in Hne. now contradiction Hne.
      - now apply all_decimal_unsigned. }
  cbv beta iota.
  destruct pt.
  - rewrite span_digits_app by (exact Hip || exact eq_refl).
    cbn [app]. cbv beta iota. rewrite Ascii.eqb_refl.
    rewrite span_digits_app by (exact Hfp || now apply stops_render_exp). cbv beta iota.
    destruct (is_nil ip && is_nil fp) eqn:En.
    { destruct ip, fp; cbn in En; try discriminate. now contradiction Hne. }
    now rewrite scan_exponent_render.
  - rewrite (Hpt eq_refl) in *. rewrite app_nil_r in Hne. cbn [app].
    rewrite span_digits_app by (exact Hip || now apply stops_render_exp). cbv beta iota.
    assert (Hnil : is_nil ip = false) by (destruct ip; [congruence|reflexivity]).
    destruct ex as [[m esg eds]|].
    + cbn [render_exp marker exp_sign exp_digits].
      destruct Hex as (Hm & Hd & Hn). cbn [marker] in Hm.
      rewrite (marker_not_point m Hm), Hnil. cbn [andb is_nil].
      change (m :: render_sign esg ++ eds) with (render_exp (Some (mkExp m esg eds))).
      rewrite scan_exponent_render; [reflexivity|]. now repeat split.
    + cbn [render_exp]. now rewrite Hnil.
Qed.

(** *** Cleaning a numeral: only the plus signs go *)

Lemma clean_render_sign (sg : option bool) :
  clean (render_sign sg) = render_sign (unplus_sign sg).
Proof. now destruct sg as [[|]|]. Qed.

Lemma clean_render_exp (ex : option exponent_part) :
  wf_exp ex -> clean (render_exp ex) = render_exp (unplus_exp ex).
Proof.
  destruct ex as [[m sg ds]|]; [|reflexivity].
  cbn [wf_exp render_exp unplus_exp marker exp_sign exp_digits]. intros (Hm & Hd & _).
  unfold clean at 1. cbn [filter]. rewrite (marker_kept m Hm). f_equal.
  fold (clean (render_sign sg ++ ds)).
  now rewrite clean_app, clean_render_sign, clean_decimal.
Qed.

Lemma clean_render (sh : shape) : wf sh -> clean (render sh) = render (unplus sh).
Proof.
  destruct sh as [sg ip pt fp ex]. unfold wf, render, render_frac.
  cbn [sign int_digits point frac_digits expo unplus].
  intros (Hip & Hfp & _ & _ & Hex).
  rewrite !clean_app, clean_render_sign, clean_decimal, clean_render_exp by assumption.
  do 2 f_equal. destruct pt; [|reflexivity].
  unfold clean at 1. cbn [filter]. change (keep ".") with true. cbv iota.
  change (filter keep fp) with (clean fp). now rewrite clean_decimal.
Qed.

Lemma wf_unplus (sh : shape) : wf sh -> wf (unplus sh).
Proof.
  destruct sh as [sg ip pt fp [[m esg eds]|]]; unfold wf; cbn; tauto.
Qed.

Lemma is_minus_unplus (sg : option bool) : is_minus (unplus_sign sg) = is_minus sg.
Proof. now destruct sg as [[|]|]. Qed.

Lemma number_of_unplus (sh : shape) : number_of_shape (unplus sh) = number_of_shape sh.
Proof.
  destruct sh as [sg ip pt fp [[m esg eds]|]]; unfold number_of_shape;
    cbn [unplus unplus_exp sign int_digits point frac_digits expo marker exp_sign exp_digits];
    now rewrite !is_minus_unplus.
Qed.

Lemma clean_render_not_nil (sh : shape) : wf sh -> clean (render sh) <> [].
Proof.
  destruct sh as [sg ip pt fp ex]. unfold wf, render, render_frac.
  cbn [sign int_digits point frac_digits expo].
  intros (Hip & Hfp & Hpt & Hne & _).
  rewrite !clean_app, (clean_decimal ip Hip).
  destruct ip as [|c ip'].
  - destruct pt; [|rewrite (Hpt eq_refl) in Hne; now contradiction Hne].
    unfold clean at 2. cbn [filter]. change (keep ".") with true. cbn iota.
    intros H. apply app_eq_nil in H as [_ H]. cbn in H. discriminate.
  - intros H. apply app_eq_nil in H as [_ H]. discriminate.
Qed.

Lemma has_comma_render (sh : shape) : wf sh -> has_comma (render sh) = false.
Proof.
  destruct sh as [sg ip pt fp ex]. unfold wf, render, render_frac.
  cbn [sign int_digits point frac_digits expo].
  intros (Hip & Hfp & _ & _ & Hex).
  rewrite !has_comma_app, (has_comma_decimal ip Hip).
  replace (has_comma (render_sign sg)) with false by (now destruct sg as [[|]|]).
  replace (has_comma (if pt then "."%char :: fp else [])) with false.
  2:{ destruct pt; [|reflexivity]. unfold has_comma. cbn [existsb].
      fold (has_comma fp). now rewrite (has_comma_decimal fp Hfp). }
  cbn [orb]. destruct ex as [[m esg eds]|]; [|reflexivity].
  cbn [render_exp marker exp_sign exp_digits wf_exp] in *. destruct Hex as (Hm & Hd & _).
  unfold has_comma. cbn [existsb]. rewrite (marker_not_comma m Hm). cbn [orb].
  fold (has_comma (render_sign esg ++ eds)).
  rewrite has_comma_app, (has_comma_decimal eds Hd). now destruct esg as [[|]|].
Qed.

(** *** Underscores and blanks around a numeral *)

Lemma drop_underscores_spec (s : pystr) :
  forall pd pu s1,
    drop_underscores pd pu s = Some s1 ->
    clean s1 = clean s /\ has_comma s1 = has_comma s.
Proof.
  induction s as [|c t IH]; intros pd pu s1 H; cbn [drop_underscores] in H.
  - destruct pu; inversion H; subst. now split.
  - destruct (Ascii.eqb c underscore) eqn:Eu.
    + destruct pd; [|discriminate]. destruct (IH _ _ _ H) as [Hc Hk].
      unfold clean, has_comma in *. cbn [filter existsb].
      now rewrite (underscore_not_kept c Eu), (underscore_not_comma c Eu).
    + destruct (pu && negb (is_decimal c)); [discriminate|].
      destruct (drop_underscores (is_decimal c) false t) as [r|] eqn:Er; [|discriminate].
      inversion H; subst. destruct (IH _ _ _ Er) as [Hc Hk].
      unfold clean, has_comma in *. cbn [filter existsb]. now rewrite Hc, Hk.
Qed.

Lemma drop_underscores_kept (s : pystr) :
  Forall (fun c => keep c = true) s ->
  forall pd, drop_underscores pd false s = Some s.
Proof.
  induction 1 as [|c t Hc Ht IH]; intros pd; cbn [drop_underscores]; [reflexivity|].
  rewrite (kept_not_underscore c Hc). cbn [andb]. now rewrite IH.
Qed.

Lemma lstrip_by_kept (s : pystr) :
  Forall (fun c => keep c = true) s -> lstrip_by float_space s = s.
Proof.
  destruct 1 as [|c t Hc Ht]; cbn [lstrip_by]; [reflexivity|].
  now rewrite (kept_not_float_space c Hc).
Qed.

Lemma rstrip_by_kept (s : pystr) :
  Forall (fun c => keep c = true) s -> rstrip_by float_space s = s.
Proof.
  induction 1 as [|c t Hc Ht IH]; cbn [rstrip_by]; [reflexivity|].
  rewrite IH, (kept_not_float_space c Hc). now rewrite andb_false_r.
Qed.

Lemma clean_all_kept (s : pystr) : Forall (fun c => keep c = true) (clean s).
Proof. apply Forall_forall. intros c Hc. now apply filter_In in Hc. Qed.

(** [float] on an already cleaned text only has to scan it. *)
Lemma py_float_clean (s : pystr) :
  py_float (clean s) =
    match scan_shape (clean s) with
    | Some sh => Some (round_number (number_of_shape sh))
    | None => scan_special (clean s)
    end.
Proof.
  unfold py_float, strip_space.
  rewrite (drop_underscores_kept _ (clean_all_kept s)).
  now rewrite (lstrip_by_kept _ (clean_all_kept s)), (rstrip_by_kept _ (clean_all_kept s)).
Qed.

Lemma py_number_float (s : pystr) (n : number) :
  py_number s = Some n -> py_float s = Some (round_number n).
Proof.
  unfold py_number, py_float.
  destruct (drop_underscores false false s) as [s1|]; [|discriminate].
  destruct (scan_shape (strip_space s1)); [|discriminate]. now intros [= <-].
Qed.

(** Cleaning a numeral keeps its value, and a numeral holds no comma. *)
Lemma literal_survives_cleaning (s : pystr) (n : number) :
  py_number s = Some n ->
  clean s <> [] /\ py_float (clean s) = Some (round_number n) /\ has_comma s = false.
Proof.
  unfold py_number. intros H.
  destruct (drop_underscores false false s) as [s1|] eqn:Eu; [|discriminate].
  destruct (scan_shape (strip_space s1)) as [sh|] eqn:Es; [|discriminate].
  inversion H; subst; clear H.
  destruct (drop_underscores_spec _ _ _ _ Eu) as [Hc Hk].
  apply scan_shape_spec in Es as [Hbody Hwf].
  assert (Hclean : clean s = clean (render sh)).
  { rewrite <- Hc, <- Hbody. unfold strip_space.
    now rewrite (clean_rstrip_by _ float_space_not_kept),
                (clean_lstrip_by _ float_space_not_kept). }
  assert (Hcomma : has_comma s = has_comma (render sh)).
  { rewrite <- Hk, <- Hbody. unfold strip_space.
    now rewrite (has_comma_rstrip_by _ float_space_not_comma),
                (has_comma_lstrip_by _ float_space_not_comma). }
  split; [|split].
  - rewrite Hclean. now apply clean_render_not_nil.
  - rewrite py_float_clean, Hclean, (clean_render sh Hwf).
    rewrite (scan_shape_render _ (wf_unplus sh Hwf)). now rewrite number_of_unplus.
  - rewrite Hcomma. now apply has_comma_render.
Qed.

End FloatFacts.

(** ** Facts about the sample-stream parser *)

Module ParserFacts.
Import PyText PyFloat Parser TextFacts FloatFacts.

Lemma fst_parse_token (value : pystr) : fst (parse_token value) = reading_of (clean value).
Proof.
  unfold parse_token, reading_of. destruct (is_nil (clean value)); [reflexivity|].
  now destruct (py_float (clean value)).
Qed.

Lemma snd_parse_token (value : pystr) : quiet (clean value) -> snd (parse_token value) = [].
Proof.
  unfold parse_token. intros [H|[x H]]; rewrite H; [reflexivity|].
  now destruct (is_nil (clean value)).
Qed.

Lemma readings_of_tokens (tokens : list pystr) :
  flat_map fst (map parse_token tokens) = flat_map reading_of (map clean tokens).
Proof.
  induction tokens as [|t ts IH]; cbn [map flat_map]; [reflexivity|].
  now rewrite fst_parse_token, IH.
Qed.

Lemma warnings_of_tokens (tokens : list pystr) :
  Forall quiet (map clean tokens) -> flat_map snd (map parse_token tokens) = [].
Proof.
  induction tokens as [|t ts IH]; cbn [map flat_map]; [reflexivity|].
  intros H. inversion H; subst. now rewrite snd_parse_token, IH.
Qed.

(** The readings depend on the payload only through its cleaned pieces. *)
Lemma parse_readings_pieces (raw_data : pystr) :
  parse_readings raw_data =
    flat_map reading_of
      (if has_comma raw_data then clean_pieces raw_data else [clean raw_data]).
Proof.
  unfold parse_readings, parse_payload. rewrite has_comma_strip.
  destruct (has_comma raw_data).
  - cbn [fst]. rewrite readings_of_tokens.
    change (map clean (split_comma (strip raw_data))) with (clean_pieces (strip raw_data)).
    now rewrite clean_pieces_strip.
  - cbn [flat_map]. rewrite app_nil_r, <- (clean_strip raw_data).
    unfold parse_single, reading_of. destruct (is_nil (clean (strip raw_data))); [reflexivity|].
    now destruct (py_float (clean (strip raw_data))).
Qed.

Lemma parse_warnings_quiet (raw_data : pystr) :
  Forall quiet (if has_comma raw_data then clean_pieces raw_data else [clean raw_data]) ->
  snd (parse_payload raw_data) = [].
Proof.
  unfold parse_payload. rewrite has_comma_strip.
  destruct (has_comma raw_data); intros H.
  - cbn [snd]. apply warnings_of_tokens.
    change (map clean (split_comma (strip raw_data))) with (clean_pieces (strip raw_data)).
    now rewrite clean_pieces_strip.
  - inversion H as [|? ? Hq _]; subst. rewrite <- (clean_strip raw_data) in Hq.
    unfold parse_single. destruct Hq as [Hq|[x Hq]]; rewrite Hq; [reflexivity|].
    now destruct (is_nil (clean (strip raw_data))).
Qed.

Lemma spells_cleaned (literal : pystr) (value : float) :
  spells literal value ->
  reading_of (clean literal) = [value] /\ quiet (clean literal)
  /\ has_comma literal = false.
Proof.
  intros [[n Hn] Hv]. rewrite (py_number_float _ _ Hn) in Hv. inversion Hv; subst.
  destruct (literal_survives_cleaning _ _ Hn) as (Hne & Hf & Hc).
  repeat split; [|right; eauto|exact Hc].
  unfold reading_of. rewrite Hf. destruct (clean literal); [congruence|reflexivity].
Qed.

Lemma round_trip_pieces (literals : list pystr) (values : list float) :
  Forall2 spells literals values ->
  flat_map reading_of (map clean literals) = values
  /\ Forall quiet (map clean literals)
  /\ Forall (fun piece => has_comma piece = false) literals.
Proof.
  induction 1 as [|l v ls vs Hlv _ (IHr & IHq & IHc)]; cbn [map flat_map].
  - repeat split; constructor.
  - destruct (spells_cleaned l v Hlv) as (Hr & Hq & Hc).
    rewrite Hr, IHr. repeat split; constructor; assumption.
Qed.

Lemma parse_joined (literals : list pystr) (values : list float) :
  Forall2 spells literals values ->
  parse_payload (join_comma literals) = (values, []).
Proof.
  intros H. destruct (round_trip_pieces _ _ H) as (Hr & Hq & Hc).
  assert (Hpieces :
    (if has_comma (join_comma literals) then clean_pieces (join_comma literals)
     else [clean (join_comma literals)]) =
    match literals with [] => [[]] | _ => map clean literals end).
  { rewrite (has_comma_join _ Hc).
    destruct literals as [|l1 [|l2 ls]]; [reflexivity | reflexivity |].
    cbn [List.length Nat.leb]. unfold clean_pieces.
    rewrite split_join; [reflexivity | discriminate | exact Hc]. }
  rewrite (surjective_pairing (parse_payload (join_comma literals))). f_equal.
  - change (fst (parse_payload (join_comma literals)))
      with (parse_readings (join_comma literals)).
    rewrite parse_readings_pieces, Hpieces.
    destruct literals; [inversion H; reflexivity | exact Hr].
  - apply parse_warnings_quiet. rewrite Hpieces.
    destruct literals; [repeat constructor | exact Hq].
Qed.

(** Tokens that are cleaned to nothing add neither a reading nor a
    warning. *)
Lemma parse_tokens_nothing (tokens : list pystr) :
  (forall t, In t tokens -> clean t = []) ->
  flat_map fst (map parse_token tokens) = [] /\
  flat_map snd (map parse_token tokens) = [].
Proof.
  induction tokens as [|t ts IH]; intros H; [split; reflexivity|].
  assert (Ht : parse_token t = ([], [])).
  { unfold parse_token. now rewrite (H t (or_introl eq_refl)). }
  destruct IH as [IHr IHw]; [intros t' Ht'; apply H; now right|].
  cbn [map flat_map]. rewrite Ht, IHr, IHw. split; reflexivity.
Qed.

(** A payload that the cleaning empties, commas or not, parses to
    nothing. *)
Lemma cleaned_away (raw_data : pystr) :
  clean raw_data = [] -> parse_payload raw_data = ([], []).
Proof.
  intros H. unfold parse_payload.
  assert (Hs : clean (strip raw_data) = []) by now rewrite clean_strip.
  destruct (has_comma (strip raw_data)).
  - destruct (parse_tokens_nothing (split_comma (strip raw_data))) as [Hr Hw].
    { intros t Ht. apply clean_none. intros c Hc.
      apply (clean_nil_chars _ Hs). exact (split_comma_chars _ _ _ Ht Hc). }
    now rewrite Hr, Hw.
  - unfold parse_single. now rewrite Hs.
Qed.

(** A payload that is blank is emptied by the cleaning. *)
Lemma blank_is_cleaned_away (raw_data : pystr) :
  strip raw_data = [] -> clean raw_data = [].
Proof. intros H. rewrite <- clean_strip, H. reflexivity. Qed.

End ParserFacts.

(** ** Facts about the drivers *)

Module BenchFacts.
Import PyNum Bench.

Lemma bind_print {A : Type} (line : console) (k : unit -> M A) (w : world) :
  bind (print line) k w = k tt (logged w (Print line)).
Proof. reflexivity. Qed.

Lemma bind_lift_ok {A B : Type} (a : A) (k : A -> M B) (w : world) :
  bind (lift (Ok a)) k w = k a w.
Proof. reflexivity. Qed.

Lemma bind_lift_raise {A B : Type} (e : exn) (k : A -> M B) (w : world) :
  bind (lift (Raise e)) k w = Some (Raise e, w).
Proof. reflexivity. Qed.

Lemma bind_write_none {A : Type} (c : scpi) (k : unit -> M A) (w : world) :
  bind (write None c) k w = Some (Raise AttributeError, w).
Proof. reflexivity. Qed.

Lemma bind_write {A : Type} (d : device) (c : scpi) (k : unit -> M A) (w : world) :
  bind (write (Some d) c) k w =
    match replies w (accesses w) with
    | Answer _ => k tt (advanced w d (Write c))
    | Failure => Some (Raise VisaIOError, advanced w d (Write c))
    end.
Proof.
  cbv [bind write instr ret advanced]. now destruct (replies w (accesses w)).
Qed.

Lemma bind_set_timeout {A : Type} (h : handle) (ms : Z) (k : unit -> M A) (w : world) :
  bind (set_timeout h ms) k w =
    match h with
    | None => Some (Raise AttributeError, w)
    | Some d =>
        match replies w (accesses w) with
        | Answer _ => k tt (advanced w d (SetTimeout ms))
        | Failure => Some (Raise VisaIOError, advanced w d (SetTimeout ms))
        end
    end.
Proof.
  cbv [bind set_timeout instr ret advanced]. destruct h; [|reflexivity].
  now destruct (replies w (accesses w)).
Qed.

Lemma bind_query {A : Type} (d : device) (c : scpi) (k : pystr -> M A) (w : world) :
  bind (query (Some d) c) k w =
    match replies w (accesses w) with
    | Answer payload => k payload (advanced w d (Query c))
    | Failure => Some (Raise VisaIOError, advanced w d (Query c))
    end.
Proof.
  cbv [bind query instr advanced]. now destruct (replies w (accesses w)).
Qed.

Lemma print_all_logged (lines : list console) (w : world) :
  print_all lines w = Some (Ok tt, logged_all w (map Print lines)).
Proof.
  revert w. induction lines as [|l ls IH]; intros w; cbn [print_all map logged_all].
  - reflexivity.
  - now rewrite bind_print, IH.
Qed.

Lemma bind_print_all {A : Type} (lines : list console) (k : unit -> M A) (w : world) :
  bind (print_all lines) k w = k tt (logged_all w (map Print lines)).
Proof. unfold bind. now rewrite print_all_logged. Qed.

(** [sleep] either logs the wait or raises; it never runs out of fuel. *)
Lemma sleep_cases (seconds : float) (w : world) :
  sleep seconds w = Some (Ok tt, logged w (Sleep seconds)) \/
  exists e, sleep seconds w = Some (Raise e, w).
Proof.
  unfold sleep. destruct (is_nan seconds); [right; now eexists|].
  destruct (_ || _); [right; now eexists|].
  destruct (PrimFloat.ltb seconds 0); [right; now eexists|]. now left.
Qed.

Lemma sleep_ok_allowed (seconds : float) (w w' : world) :
  sleep seconds w = Some (Ok tt, w') -> sleep_allowed seconds.
Proof.
  unfold sleep_allowed, sleep. destruct (is_nan seconds); [discriminate|].
  destruct (_ || _); [discriminate|].
  destruct (PrimFloat.ltb seconds 0); [discriminate|]. reflexivity.
Qed.

(** The body of the [try] block: it always comes back, and its result, if
    it has one, carries the label and the voltage it was given. *)
Ltac came_back :=
  eexists _, _; split; [reflexivity | cbn; auto].

Lemma measure_total (dmm : handle) (voltage : float) (label : pystr)
    (nplc : pynum) (sample_count : Z) (w : world) :
  exists r w', measure dmm voltage label nplc sample_count w = Some (r, w') /\
    match r with
    | Ok res => Bench.label res = label /\ Bench.voltage res = voltage
    | Raise _ => True
    end.
Proof.
  unfold measure.
  destruct (timeout_ms sample_count nplc) as [ms|e];
    [rewrite bind_lift_ok | rewrite bind_lift_raise; came_back].
  rewrite bind_set_timeout. destruct dmm as [d|]; [|came_back].
  destruct (replies w (accesses w)); [|came_back].
  repeat (rewrite bind_write; cbn [advanced replies accesses];
          match goal with
          | |- context [match replies w ?k with _ => _ end] =>
              destruct (replies w k); [|came_back]
          end).
  rewrite bind_print.
  destruct (settle_seconds sample_count) as [secs|e];
    [rewrite bind_lift_ok | rewrite bind_lift_raise; came_back].
  match goal with
  | |- context [bind (sleep secs) ?k ?w0] =>
      unfold bind at 1; destruct (sleep_cases secs w0) as [-> | [e ->]];
      [|came_back]
  end.
  rewrite bind_query; cbn [logged advanced replies accesses].
  match goal with
  | |- context [match replies w ?k with _ => _ end] =>
      destruct (replies w k) as [raw|]; [|came_back]
  end.
  destruct (Parser.parse_payload raw) as [rs ws].
  rewrite bind_print_all. unfold ret. came_back.
Qed.

(** When the [try] block delivers a result, every one of its eight
    accesses was answered and the readings are the parsed last answer. *)
Lemma measure_ok (dmm : handle) (voltage : float) (label : pystr)
    (nplc : pynum) (sample_count : Z) (w w' : world) (res : acquisition) :
  measure dmm voltage label nplc sample_count w = Some (Ok res, w') ->
  exists raw,
    dmm <> None /\
    (forall k, (k < 7)%nat -> upcoming w k <> Failure) /\
    upcoming w 7 = Answer raw /\
    res = mkAcquisition label voltage (Parser.parse_readings raw) /\
    profile_usable nplc sample_count.
Proof.
  unfold measure, profile_usable.
  destruct (timeout_ms sample_count nplc) as [ms|e];
    [rewrite bind_lift_ok | rewrite bind_lift_raise; discriminate].
  rewrite bind_set_timeout. destruct dmm as [d|]; [|discriminate].
  destruct (replies w (accesses w)) eqn:E0; [|discriminate].
  rewrite bind_write; cbn [advanced replies accesses].
  destruct (replies w (S (accesses w))) eqn:E1; [|discriminate].
  rewrite bind_write; cbn [advanced replies accesses].
  destruct (replies w (S (S (accesses w)))) eqn:E2; [|discriminate].
  rewrite bind_write; cbn [advanced replies accesses].
  destruct (replies w (S (S (S (accesses w))))) eqn:E3; [|discriminate].
  rewrite bind_write; cbn [advanced replies accesses].
  destruct (replies w (S (S (S (S (accesses w)))))) eqn:E4; [|discriminate].
  rewrite bind_write; cbn [advanced replies accesses].
  destruct (replies w (S (S (S (S (S (accesses w))))))) eqn:E5; [|discriminate].
  rewrite bind_write; cbn [advanced replies accesses].
  destruct (replies w (S (S (S (S (S (S (accesses w)))))))) eqn:E6; [|discriminate].
  rewrite bind_print.
  destruct (settle_seconds sample_count) as [secs|e];
    [rewrite bind_lift_ok | rewrite bind_lift_raise; discriminate].
  match goal with
  | |- context [bind (sleep secs) ?k ?w0] =>
      unfold bind at 1; destruct (sleep_cases secs w0) as [Hs | [e ->]];
      [rewrite Hs; apply sleep_ok_allowed in Hs|discriminate]
  end.
  rewrite bind_query; cbn [logged advanced replies accesses].
  destruct (replies w (S (S (S (S (S (S (S (accesses w))))))))) as [raw|] eqn:E7;
    [|discriminate].
  destruct (Parser.parse_payload raw) as [rs ws] eqn:Ep.
  rewrite bind_print_all. unfold ret. intros [= <- _].
  exists raw. split; [discriminate|].
  split; [|split; [exact E7 | split;
    [unfold Parser.parse_readings; now rewrite Ep | split; eauto]]].
  intros k Hk. unfold upcoming.
  assert (Hc : (k = 0 \/ k = 1 \/ k = 2 \/ k = 3 \/ k = 4 \/ k = 5 \/ k = 6)%nat) by lia.
  repeat (destruct Hc as [->|Hc] || subst k); cbn [Nat.add]; congruence.
Qed.

(** With the default sampling profile the only way for the [try] block to
    fail is an access that fails. *)
Lemma measure_default (d : device) (voltage : float) (label : pystr)
    (w : world) (raw : pystr) :
  (forall k, (k < 7)%nat -> upcoming w k <> Failure) ->
  upcoming w 7 = Answer raw ->
  exists w',
    measure (Some d) voltage label default_nplc default_sample_count w =
      Some (Ok (mkAcquisition label voltage (Parser.parse_readings raw)), w')
    /\ accesses w' = (8 + accesses w)%nat /\ replies w' = replies w.
Proof.
  intros Hans Hraw. unfold upcoming in *.
  pose proof (Hans 0%nat ltac:(lia)) as H0. pose proof (Hans 1%nat ltac:(lia)) as H1.
  pose proof (Hans 2%nat ltac:(lia)) as H2. pose proof (Hans 3%nat ltac:(lia)) as H3.
  pose proof (Hans 4%nat ltac:(lia)) as H4. pose proof (Hans 5%nat ltac:(lia)) as H5.
  pose proof (Hans 6%nat ltac:(lia)) as H6. cbn [Nat.add] in *. clear Hans.
  unfold measure.
  change (timeout_ms default_sample_count default_nplc) with (Ok (A := Z) 20000).
  rewrite bind_lift_ok, bind_set_timeout.
  destruct (replies w (accesses w)); [|congruence].
  rewrite bind_write; cbn [advanced replies accesses].
  destruct (replies w (S (accesses w))); [|congruence].
  rewrite bind_write; cbn [advanced replies accesses].
  destruct (replies w (S (S (accesses w)))); [|congruence].
  rewrite bind_write; cbn [advanced replies accesses].
  destruct (replies w (S (S (S (accesses w))))); [|congruence].
  rewrite bind_write; cbn [advanced replies accesses].
  destruct (replies w (S (S (S (S (accesses w)))))); [|congruence].
  rewrite bind_write; cbn [advanced replies accesses].
  destruct (replies w (S (S (S (S (S (accesses w))))))); [|congruence].
  rewrite bind_write; cbn [advanced replies accesses].
  destruct (replies w (S (S (S (S (S (S (accesses w)))))))); [|congruence].
  rewrite bind_print.
  change (settle_seconds default_sample_count) with (Ok (A := float) 1%float).
  rewrite bind_lift_ok.
  match goal with
  | |- context [bind (sleep 1) ?k ?w0] =>
      change (bind (sleep 1) k w0) with (k tt (logged w0 (Sleep 1)))
  end.
  cbv beta. rewrite bind_query; cbn [logged advanced replies accesses]. rewrite Hraw.
  unfold Parser.parse_readings. destruct (Parser.parse_payload raw) as [rs ws].
  rewrite bind_print_all. unfold ret. eexists. split; [reflexivity|].
  cbn [fst]. split.
  - generalize (map Print (map ParserWarning ws)).
    intros evs. match goal with |- accesses (logged_all ?w0 evs) = _ =>
      assert (Hgen : forall es w1, accesses (logged_all w1 es) = accesses w1)
        by (induction es as [|e es IH]; intros w1; cbn [logged_all];
            [reflexivity | now rewrite IH]);
      now rewrite Hgen end.
  - generalize (map Print (map ParserWarning ws)).
    intros evs. match goal with |- replies (logged_all ?w0 evs) = _ =>
      assert (Hgen : forall es w1, replies (logged_all w1 es) = replies w1)
        by (induction es as [|e es IH]; intros w1; cbn [logged_all];
            [reflexivity | now rewrite IH]);
      now rewrite Hgen end.
Qed.

Lemma run_test_programmed (d : device) (dmm : handle) (voltage : float) (label : pystr)
    (nplc : pynum) (sample_count : Z) (w : world) :
  (forall k, (k < 3)%nat -> upcoming w k <> Failure) ->
  run_test (Some d) dmm voltage label nplc sample_count w =
    try_except
      (measure dmm voltage label nplc sample_count)
      (fun e => print (MeasurementError e) ;; ret (mkAcquisition label voltage []))
      (programmed w d voltage label).
Proof.
  intros Hans. unfold upcoming in Hans.
  pose proof (Hans 0%nat ltac:(lia)) as H0. pose proof (Hans 1%nat ltac:(lia)) as H1.
  pose proof (Hans 2%nat ltac:(lia)) as H2. cbn [Nat.add] in *. clear Hans.
  unfold run_test.
  rewrite bind_write. destruct (replies w (accesses w)); [|congruence].
  rewrite bind_write; cbn [advanced replies accesses].
  destruct (replies w (S (accesses w))); [|congruence].
  rewrite bind_write; cbn [advanced replies accesses].
  destruct (replies w (S (S (accesses w)))); [|congruence].
  now rewrite bind_print.
Qed.

(** [run_test] lets an exception out only from its first three lines. *)
Lemma run_test_raises (psu dmm : handle) (voltage : float) (label : pystr)
    (nplc : pynum) (sample_count : Z) (w w' : world) (e : exn) :
  run_test psu dmm voltage label nplc sample_count w = Some (Raise e, w') ->
  e = VisaIOError \/ e = AttributeError.
Proof.
  unfold run_test. destruct psu as [d|]; [|rewrite bind_write_none; intros [= <- _]; auto].
  rewrite bind_write. destruct (replies w (accesses w)); [|intros [= <- _]; auto].
  rewrite bind_write; cbn [advanced replies accesses].
  destruct (replies w (S (accesses w))); [|intros [= <- _]; auto].
  rewrite bind_write; cbn [advanced replies accesses].
  destruct (replies w (S (S (accesses w)))); [|intros [= <- _]; auto].
  rewrite bind_print. unfold try_except.
  match goal with
  | |- context [measure dmm voltage label nplc sample_count ?w0] =>
      destruct (measure_total dmm voltage label nplc sample_count w0) as (r & w1 & -> & _)
  end.
  destruct r; [discriminate|]. rewrite bind_print. unfold ret. discriminate.
Qed.

(** [run_test] always comes back. *)
Lemma run_test_total (psu dmm : handle) (voltage : float) (label : pystr)
    (nplc : pynum) (sample_count : Z) (w : world) :
  exists r w', run_test psu dmm voltage label nplc sample_count w = Some (r, w').
Proof.
  unfold run_test. destruct psu as [d|]; [|rewrite bind_write_none; now eexists _, _].
  rewrite bind_write. destruct (replies w (accesses w)); [|now eexists _, _].
  rewrite bind_write; cbn [advanced replies accesses].
  destruct (replies w (S (accesses w))); [|now eexists _, _].
  rewrite bind_write; cbn [advanced replies accesses].
  destruct (replies w (S (S (accesses w)))); [|now eexists _, _].
  rewrite bind_print. unfold try_except.
  match goal with
  | |- context [measure dmm voltage label nplc sample_count ?w0] =>
      destruct (measure_total dmm voltage label nplc sample_count w0) as (r & w1 & -> & _)
  end.
  destruct r; [now eexists _, _|]. rewrite bind_print. unfold ret. now eexists _, _.
Qed.

Lemma upcoming_programmed (w : world) (d : device) (voltage : float) (label : pystr)
    (k : nat) :
  upcoming (programmed w d voltage label) k = upcoming w (3 + k).
Proof.
  unfold upcoming, programmed, logged, advanced; cbn [replies accesses].
  f_equal. lia.
Qed.

(** Once the power supply is programmed, [run_test] returns a result with
    the label and voltage of the request; the readings are empty unless
    all eight multimeter accesses were answered. *)
Lemma run_test_returns (d : device) (dmm : handle) (voltage : float) (label : pystr)
    (nplc : pynum) (sample_count : Z) (w : world) :
  (forall k, (k < 3)%nat -> upcoming w k <> Failure) ->
  exists res w',
    run_test (Some d) dmm voltage label nplc sample_count w = Some (Ok res, w') /\
    Bench.label res = label /\ Bench.voltage res = voltage /\
    (readings res = [] \/
     (dmm <> None /\ profile_usable nplc sample_count /\
      forall k, (3 <= k < 11)%nat -> upcoming w k <> Failure)).
Proof.
  intros Hans. rewrite (run_test_programmed d dmm voltage label nplc sample_count w Hans).
  unfold try_except.
  destruct (measure_total dmm voltage label nplc sample_count (programmed w d voltage label))
    as (r & w1 & Hm & Hr).
  rewrite Hm. destruct r as [res|e].
  - destruct Hr as [Hl Hv]. exists res, w1. repeat split; auto.
    destruct (measure_ok _ _ _ _ _ _ _ _ Hm) as (raw & Hd & Hk & Hraw & _ & Hprof).
    right. split; [exact Hd|]. split; [exact Hprof|]. intros k Hk3.
    destruct (Nat.eq_dec k 10) as [->|Hne].
    + rewrite upcoming_programmed in Hraw. cbn [Nat.add] in Hraw. congruence.
    + specialize (Hk (k - 3)%nat ltac:(lia)). rewrite upcoming_programmed in Hk.
      now replace (3 + (k - 3))%nat with k in Hk by lia.
  - rewrite bind_print. unfold ret. eexists _, _. repeat split; auto.
Qed.

(** With answering instruments and the default profile, [run_test]
    returns the parsed reply to the fetch. *)
Lemma run_test_default (d d' : device) (voltage : float) (label : pystr)
    (w : world) (raw : pystr) :
  (forall k, (k < 10)%nat -> upcoming w k <> Failure) ->
  upcoming w 10 = Answer raw ->
  exists w',
    run_test (Some d) (Some d') voltage label default_nplc default_sample_count w =
      Some (Ok (mkAcquisition label voltage (Parser.parse_readings raw)), w').
Proof.
  intros Hans Hraw.
  rewrite run_test_programmed by (intros k Hk; apply Hans; lia).
  unfold try_except.
  destruct (measure_default d' voltage label (programmed w d voltage label) raw)
    as (w' & -> & _).
  - intros k Hk. rewrite upcoming_programmed. apply Hans. lia.
  - now rewrite upcoming_programmed.
  - now exists w'.
Qed.

(** *** Which exceptions a driver step can let out *)

Lemma lets_out_bind {A B : Type} (m : M A) (k : A -> M B) (P : exn -> Prop) :
  lets_out m P -> (forall a, lets_out (k a) P) -> lets_out (bind m k) P.
Proof.
  intros Hm Hk w e w'. unfold bind.
  destruct (m w) as [[[a|e0] w1]|] eqn:E; [| |discriminate].
  - apply Hk.
  - intros [= <- <-]. exact (Hm _ _ _ E).
Qed.

Lemma lets_out_ret {A : Type} (a : A) (P : exn -> Prop) : lets_out (ret a) P.
Proof. intros w e w'. discriminate. Qed.

Lemma lets_out_log (ev : event) (P : exn -> Prop) : lets_out (log ev) P.
Proof. intros w e w'. discriminate. Qed.

Lemma lets_out_lift {A : Type} (r : result A) (P : exn -> Prop) :
  (forall e, r = Raise e -> P e) -> lets_out (lift r) P.
Proof.
  intros H w e w'. destruct r as [a|e0]; [discriminate|].
  intros [= <- _]. now apply H.
Qed.

Lemma lets_out_write (h : handle) (c : scpi) (P : exn -> Prop) :
  P VisaIOError -> P AttributeError -> lets_out (write h c) P.
Proof.
  intros Hv Ha w e w'. cbv [write bind instr ret]. destruct h; [|now intros [= <- _]].
  destruct (replies w (accesses w)); [discriminate | now intros [= <- _]].
Qed.

Lemma lets_out_run_test (psu dmm : handle) (voltage : float) (label : pystr)
    (nplc : pynum) (sample_count : Z) (P : exn -> Prop) :
  P VisaIOError -> P AttributeError ->
  lets_out (run_test psu dmm voltage label nplc sample_count) P.
Proof.
  intros Hv Ha w e w' H. now destruct (run_test_raises _ _ _ _ _ _ _ _ _ H) as [-> | ->].
Qed.

Lemma np_index_raises (above : list bool) (i : Z) (e : exn) :
  Detector.np_index above i = Raise e -> e = IndexError.
Proof.
  unfold Detector.np_index.
  destruct (_ && _); [destruct (nth_error _ _); congruence|].
  destruct (_ && _); [destruct (nth_error _ _); congruence|congruence].
Qed.

Lemma scan_loop_raises (above : list bool) (g : Z) (fuel : nat) :
  forall st e, Detector.scan_loop fuel above g st = Some (Raise e) -> e = IndexError.
Proof.
  induction fuel as [|fuel IH]; intros st e; cbn [Detector.scan_loop]; [discriminate|].
  unfold Detector.scan_step.
  destruct (Detector.cursor st <? Z.of_nat (List.length above)); [|discriminate].
  destruct (Detector.np_index above (Detector.cursor st)) as [[|]|e0] eqn:E;
    try apply IH.
  intros [= <-]. exact (np_index_raises _ _ _ E).
Qed.

Lemma lets_out_detect (fuel : nat) (rs : list float) (label : pystr)
    (threshold : float) (min_gap : Z) (P : exn -> Prop) :
  P IndexError -> lets_out (call_detect_beep fuel rs label threshold min_gap) P.
Proof.
  intros Hi w e w'. unfold call_detect_beep, Detector.detect_beep.
  destruct (Detector.scan_loop fuel _ min_gap Detector.scan_init) as [[spikes|e0]|] eqn:E;
    [| |discriminate].
  - destruct (pystr_eqb label (str "Double Beep"));
      [|destruct (pystr_eqb label (str "Triple Beep"))];
      rewrite print_all_logged; discriminate.
  - intros [= <- _]. now rewrite (scan_loop_raises _ _ _ _ _ E).
Qed.

Lemma py_mean_raises (r : list float) (e : exn) :
  r <> [] -> py_mean r = Raise e -> e = OverflowError.
Proof.
  intros Hne. unfold py_mean. destruct r as [|x t]; [congruence|].
  cbn [List.length Nat.eqb]. unfold float_of_int.
  destruct (binary_normalize _ _ _ _ _); congruence.
Qed.

(** The sequencer never lets a ZeroDivisionError out. *)
Lemma sequence_no_zero_division (fuel : nat) (psu dmm : handle)
    (v_main v_double v_triple : float) :
  lets_out (run_beep_sequence fuel psu dmm v_main v_double v_triple)
           (fun e => e <> ZeroDivisionError).
Proof.
  unfold run_beep_sequence. destruct psu as [d|].
  2:{ apply lets_out_bind; [apply lets_out_log | intros; apply lets_out_ret]. }
  apply lets_out_bind; [apply lets_out_write; discriminate|]. intros _.
  apply lets_out_bind; [apply lets_out_run_test; discriminate|]. intros result_main.
  destruct (readings result_main) as [|x t] eqn:Er.
  - apply lets_out_bind; [apply lets_out_lift; discriminate|]. intros _.
    cbn [is_nil]. apply lets_out_bind; [apply lets_out_log | intros; apply lets_out_ret].
  - apply lets_out_bind; [apply lets_out_lift; cbn [py_max]; discriminate|]. intros _.
    cbn [is_nil].
    apply lets_out_bind; [apply lets_out_log|]. intros _.
    apply lets_out_bind; [apply lets_out_lift; discriminate|]. intros lo.
    apply lets_out_bind; [apply lets_out_lift; discriminate|]. intros hi.
    apply lets_out_bind.
    { apply lets_out_lift. intros e He.
      rewrite (py_mean_raises (x :: t) e); [discriminate | discriminate | exact He]. }
    intros avg.
    apply lets_out_bind; [apply lets_out_log|]. intros _.
    apply lets_out_bind; [apply lets_out_run_test; discriminate|]. intros result_double.
    apply lets_out_bind; [apply lets_out_detect; discriminate|]. intros double_detected.
    apply lets_out_bind; [apply lets_out_run_test; discriminate|]. intros result_triple.
    apply lets_out_bind; [apply lets_out_detect; discriminate|]. intros triple_detected.
    apply lets_out_bind; [apply lets_out_log | intros; apply lets_out_ret].
Qed.

(** What the sequencer does when the main run comes back empty. *)
Lemma sequence_aborts_on_empty_main (fuel : nat) (d : device) (dmm : handle)
    (v_main v_double v_triple : float) (w w1 : world) (res : acquisition) :
  upcoming w 0 <> Failure ->
  run_test (Some d) dmm v_main (str "Main Test") default_nplc default_sample_count
           (advanced w d (Write OUTP_ON)) = Some (Ok res, w1) ->
  readings res = [] ->
  run_beep_sequence fuel (Some d) dmm v_main v_double v_triple w =
    Some (Ok PyNone, logged w1 (Print NoReadings)).
Proof.
  intros Hans Hrun Hempty. unfold run_beep_sequence, upcoming in *. cbn [Nat.add] in Hans.
  rewrite bind_write. destruct (replies w (accesses w)); [|congruence].
  unfold bind at 1. rewrite Hrun, Hempty. reflexivity.
Qed.

(** A failing power-supply write ends [run_test] with the exception. *)
Lemma run_test_power_supply_failure (d : device) (dmm : handle) (voltage : float)
    (label : pystr) (nplc : pynum) (sample_count : Z) (w : world) :
  (exists k, (k < 3)%nat /\ upcoming w k = Failure) ->
  exists w', run_test (Some d) dmm voltage label nplc sample_count w =
               Some (Raise VisaIOError, w').
Proof.
  intros (k & Hk & Hf). unfold upcoming in Hf. unfold run_test.
  rewrite bind_write. destruct (replies w (accesses w)) eqn:E0; [|now eexists].
  rewrite bind_write; cbn [advanced replies accesses].
  destruct (replies w (S (accesses w))) eqn:E1; [|now eexists].
  rewrite bind_write; cbn [advanced replies accesses].
  destruct (replies w (S (S (accesses w)))) eqn:E2; [|now eexists].
  assert (Hc : (k = 0 \/ k = 1 \/ k = 2)%nat) by lia.
  repeat (destruct Hc as [->|Hc] || subst k); cbn [Nat.add] in Hf; congruence.
Qed.

(** With the default profile, a run whose first failing access is the
    [j]-th multimeter access ends right after that access. *)
Lemma measure_default_failure (d : device) (voltage : float) (label : pystr)
    (w : world) (j : nat) :
  (j < 8)%nat ->
  (forall k, (k < j)%nat -> upcoming w k <> Failure) ->
  upcoming w j = Failure ->
  exists w',
    measure (Some d) voltage label default_nplc default_sample_count w =
      Some (Raise VisaIOError, w')
    /\ accesses w' = (S j + accesses w)%nat /\ replies w' = replies w.
Proof.
  intros Hj Hans Hfail. unfold upcoming in *.
  unfold measure.
  change (timeout_ms default_sample_count default_nplc) with (Ok (A := Z) 20000).
  rewrite bind_lift_ok, bind_set_timeout.
  destruct (replies w (accesses w)) eqn:E0.
  2:{ destruct j as [|j]; [eexists; repeat split|].
      specialize (Hans 0%nat ltac:(lia)). cbn [Nat.add] in Hans. congruence. }
  rewrite bind_write; cbn [advanced replies accesses].
  destruct (replies w (S (accesses w))) eqn:E1.
  2:{ destruct j as [|[|j]]; [cbn [Nat.add] in Hfail; congruence | eexists; repeat split |].
      specialize (Hans 1%nat ltac:(lia)). cbn [Nat.add] in Hans. congruence. }
  rewrite bind_write; cbn [advanced replies accesses].
  destruct (replies w (S (S (accesses w)))) eqn:E2.
  2:{ destruct j as [|[|[|j]]]; try (cbn [Nat.add] in Hfail; congruence);
        [eexists; repeat split|].
      specialize (Hans 2%nat ltac:(lia)). cbn [Nat.add] in Hans. congruence. }
  rewrite bind_write; cbn [advanced replies accesses].
  destruct (replies w (S (S (S (accesses w))))) eqn:E3.
  2:{ destruct j as [|[|[|[|j]]]]; try (cbn [Nat.add] in Hfail; congruence);
        [eexists; repeat split|].
      specialize (Hans 3%nat ltac:(lia)). cbn [Nat.add] in Hans. congruence. }
  rewrite bind_write; cbn [advanced replies accesses].
  destruct (replies w (S (S (S (S (accesses w)))))) eqn:E4.
  2:{ destruct j as [|[|[|[|[|j]]]]]; try (cbn [Nat.add] in Hfail; congruence);
        [eexists; repeat split|].
      specialize (Hans 4%nat ltac:(lia)). cbn [Nat.add] in Hans. congruence. }
  rewrite bind_write; cbn [advanced replies accesses].
  destruct (replies w (S (S (S (S (S (accesses w))))))) eqn:E5.
  2:{ destruct j as [|[|[|[|[|[|j]]]]]]; try (cbn [Nat.add] in Hfail; congruence);
        [eexists; repeat split|].
      specialize (Hans 5%nat ltac:(lia)). cbn [Nat.add] in Hans. congruence. }
  rewrite bind_write; cbn [advanced replies accesses].
  destruct (replies w (S (S (S (S (S (S (accesses w)))))))) eqn:E6.
  2:{ destruct j as [|[|[|[|[|[|[|j]]]]]]]; try (cbn [Nat.add] in Hfail; congruence);
        [eexists; repeat split|].
      specialize (Hans 6%nat ltac:(lia)). cbn [Nat.add] in Hans. congruence. }
  rewrite bind_print.
  change (settle_seconds default_sample_count) with (Ok (A := float) 1%float).
  rewrite bind_lift_ok.
  match goal with
  | |- context [bind (sleep 1) ?k ?w0] =>
      change (bind (sleep 1) k w0) with (k tt (logged w0 (Sleep 1)))
  end.
  cbv beta. rewrite bind_query; cbn [logged advanced replies accesses].
  destruct (replies w (S (S (S (S (S (S (S (accesses w))))))))) eqn:E7.
  - destruct j as [|[|[|[|[|[|[|[|j]]]]]]]]; try (cbn [Nat.add] in Hfail; congruence). lia.
  - destruct j as [|[|[|[|[|[|[|[|j]]]]]]]]; try (cbn [Nat.add] in Hfail; congruence);
      [eexists; repeat split | lia].
Qed.

Lemma failure_is_isolated (d d' : device) (voltage1 : float) (label1 : pystr)
    (voltage2 : float) (label2 : pystr) (w : world) (j : nat) (raw : pystr) :
  (3 <= j < 11)%nat ->
  (forall k, (k < j)%nat -> upcoming w k <> Failure) ->
  upcoming w j = Failure ->
  (forall k, (j < k < j + 11)%nat -> upcoming w k <> Failure) ->
  upcoming w (j + 11) = Answer raw ->
  exists w',
    two_runs (Some d) (Some d') voltage1 label1 voltage2 label2 w =
      Some (Ok (mkAcquisition label1 voltage1 [],
                mkAcquisition label2 voltage2 (Parser.parse_readings raw)), w').
Proof.
  intros Hj Hbefore Hfail Hafter Hraw. unfold two_runs.
  unfold bind at 1.
  rewrite run_test_programmed by (intros k Hk; apply Hbefore; lia).
  unfold try_except.
  destruct (measure_default_failure d' voltage1 label1 (programmed w d voltage1 label1)
              (j - 3)) as (w1 & -> & Hacc & Hrep).
  - lia.
  - intros k Hk. rewrite upcoming_programmed. apply Hbefore. lia.
  - rewrite upcoming_programmed. now replace (3 + (j - 3))%nat with j by lia.
  - rewrite bind_print. unfold ret.
    assert (Hup : forall k, upcoming (logged w1 (Print (MeasurementError VisaIOError))) k
                            = upcoming w (S j + k)).
    { intros k. unfold upcoming, logged; cbn [replies accesses]. rewrite Hrep, Hacc.
      unfold programmed, logged, advanced; cbn [replies accesses]. f_equal. lia. }
    unfold bind at 1.
    destruct (run_test_default d d' voltage2 label2
                (logged w1 (Print (MeasurementError VisaIOError))) raw) as (w2 & ->).
    + intros k Hk. rewrite Hup. apply Hafter. lia.
    + rewrite Hup. now replace (S j + 10)%nat with (j + 11)%nat by lia.
    + now exists w2.
Qed.

End BenchFacts.

(** * The properties stated by the design document *)

Import PyText PyFloat Parser PyNum Bench Detector.
Import DetectorFacts TextFacts FloatFacts ParserFacts BenchFacts.

Lemma pystr_eqb_neq (a b : pystr) : a <> b -> pystr_eqb a b = false.
Proof.
  intros Hne. unfold pystr_eqb. apply String.eqb_neq. intros H.
  apply Hne. rewrite <- (list_ascii_of_string_of_list_ascii a),
    <- (list_ascii_of_string_of_list_ascii b). now rewrite H.
Qed.

Lemma above_threshold_length (readings : list float) (threshold : float) :
  List.length (above_threshold readings threshold) = List.length readings.
Proof. apply length_map. Qed.

(** C1, as the code contradicts it: on a bench whose power supply does not
    answer, [run_test] raises VisaIOError out of its first line, before the
    [try] block is entered; no result is returned. *)
Lemma run_test_power_supply_failure_escapes :
  run_test (Some PowerSupply) (Some Multimeter) 5 (str "Main Test")
           default_nplc default_sample_count dead_bench
  = Some (Raise VisaIOError,
          mkWorld (fun _ => Failure) 1 [Instr PowerSupply (Write INST_CH1)])
  /\ ~ (exists res w',
          run_test (Some PowerSupply) (Some Multimeter) 5 (str "Main Test")
                   default_nplc default_sample_count dead_bench = Some (Ok res, w')).
Proof.
  assert (H : run_test (Some PowerSupply) (Some Multimeter) 5 (str "Main Test")
                default_nplc default_sample_count dead_bench
              = Some (Raise VisaIOError,
                      mkWorld (fun _ => Failure) 1 [Instr PowerSupply (Write INST_CH1)]))
    by reflexivity.
  split; [exact H|]. intros (res & w' & H'). rewrite H in H'. discriminate.
Qed.

(** C1 (amended): a failure of one of the three power-supply writes that
    open [run_test] is let out to the caller.  Once those three writes are
    answered, the call returns a result with the label and the voltage of the
    request, and with no readings as soon as the multimeter handle is
    missing, the timeout or the wait cannot be computed or is refused, or one
    of the eight multimeter accesses (timeout, five configuration writes,
    start, fetch) fails.  A run that failed at a multimeter access leaves the
    next run untouched: of two runs in a row with the default sampling
    profile, the first returns no readings and the second returns the parsed
    reply to its fetch. *)
Theorem run_test_isolates_multimeter_failures
    (d : device) (dmm : handle) (voltage : float) (label : pystr)
    (nplc : pynum) (sample_count : Z) (w : world) :
  ((exists k, (k < 3)%nat /\ upcoming w k = Failure) ->
   exists w', run_test (Some d) dmm voltage label nplc sample_count w
              = Some (Raise VisaIOError, w'))
  /\
  ((forall k, (k < 3)%nat -> upcoming w k <> Failure) ->
   (exists res w',
      run_test (Some d) dmm voltage label nplc sample_count w = Some (Ok res, w') /\
      Bench.label res = label /\ Bench.voltage res = voltage /\
      ((dmm = None \/ ~ profile_usable nplc sample_count \/
        exists k, (3 <= k < 11)%nat /\ upcoming w k = Failure) ->
       readings res = []))
   /\
   (forall (d' : device) (j : nat) (voltage2 : float) (label2 : pystr) (raw : pystr),
      (3 <= j < 11)%nat ->
      (forall k, (k < j)%nat -> upcoming w k <> Failure) ->
      upcoming w j = Failure ->
      (forall k, (j < k < j + 11)%nat -> upcoming w k <> Failure) ->
      upcoming w (j + 11) = Answer raw ->
      exists w',
        two_runs (Some d) (Some d') voltage label voltage2 label2 w =
          Some (Ok (mkAcquisition label voltage [],
                    mkAcquisition label2 voltage2 (parse_readings raw)), w'))).
Proof.
  split; [apply run_test_power_supply_failure|].
  intros Hpsu. split.
  - destruct (run_test_returns d dmm voltage label nplc sample_count w Hpsu)
      as (res & w' & Hrun & Hl & Hv & Hcases).
    exists res, w'. repeat split; auto.
    intros Hfail. destruct Hcases as [Hempty|(Hd & Hprof & Hans)]; [exact Hempty|].
    destruct Hfail as [Hnone|[Hbad|(k & Hk & Hf)]]; [contradiction | contradiction |].
    now contradiction (Hans k Hk).
  - intros d' j voltage2 label2 raw Hj Hbefore Hfail Hafter Hraw.
    apply (failure_is_isolated d d' voltage label voltage2 label2 w j raw); assumption.
Qed.

Lemma run_test_isolates_multimeter_failures_witness :
  exists res w',
    run_test (Some PowerSupply) (Some Multimeter) 5 (str "Main Test")
             default_nplc default_sample_count (glitch_bench 5 (str "0.1,0.2"))
      = Some (Ok res, w')
    /\ readings res = []
    /\ exists w'',
         two_runs (Some PowerSupply) (Some Multimeter) 5 (str "Main Test")
                  5.2 (str "Double Beep") (glitch_bench 5 (str "0.1,0.2"))
         = Some (Ok (mkAcquisition (str "Main Test") 5 [],
                     mkAcquisition (str "Double Beep") 5.2
                                   (parse_readings (str "0.1,0.2"))), w'').
Proof.
  destruct (run_test_isolates_multimeter_failures PowerSupply (Some Multimeter) 5
              (str "Main Test") default_nplc default_sample_count
              (glitch_bench 5 (str "0.1,0.2"))) as [_ H].
  assert (Hpsu : forall k, (k < 3)%nat ->
                   upcoming (glitch_bench 5 (str "0.1,0.2")) k <> Failure).
  { intros k Hk. unfold upcoming, glitch_bench; cbn [replies accesses].
    rewrite Nat.add_0_r. destruct (Nat.eqb_spec k 5); [lia | discriminate]. }
  destruct (H Hpsu) as [(res & w' & Hrun & _ & _ & Hempty) Hnext].
  exists res, w'. split; [exact Hrun|]. split.
  - apply Hempty. right. right. exists 5%nat. split; [lia | reflexivity].
  - apply (Hnext Multimeter 5%nat 5.2%float (str "Double Beep") (str "0.1,0.2")).
    + lia.
    + intros k Hk. unfold upcoming, glitch_bench; cbn [replies accesses].
      rewrite Nat.add_0_r. destruct (Nat.eqb_spec k 5); [lia | discriminate].
    + reflexivity.
    + intros k Hk. unfold upcoming, glitch_bench; cbn [replies accesses].
      rewrite Nat.add_0_r. destruct (Nat.eqb_spec k 5); [lia | discriminate].
    + reflexivity.
Defined.

(** C2, as the code contradicts it: with the label "Standard" the detector
    returns [None] silently; no error is raised, whatever the fuel. *)
Lemma unsupported_label_returns_silently :
  detect_value 1 [] (str "Standard") default_threshold default_min_gap = Some (Ok PyNone)
  /\ ~ (exists fuel e,
          detect_value fuel [] (str "Standard") default_threshold default_min_gap
          = Some (Raise e)).
Proof.
  split; [reflexivity|]. intros (fuel & e & H).
  destruct fuel as [|fuel]; [discriminate|]. cbn in H. discriminate.
Qed.

(** C2 (amended): for every readings sequence and every label other than
    "Double Beep" and "Triple Beep", a completed scan makes [detect_beep]
    print the spike count and return [None]: no classification and no
    error.  With [min_gap >= 1] the scan does complete. *)
Theorem unsupported_label_yields_none
    (readings : list float) (label : pystr) (threshold : float) (min_gap : Z) :
  label <> str "Double Beep" -> label <> str "Triple Beep" ->
  (forall fuel spikes,
     scan_loop fuel (above_threshold readings threshold) min_gap scan_init
       = Some (Ok spikes) ->
     detect_beep fuel readings label threshold min_gap
       = Some (Ok ([SpikeCount label (List.length spikes)], PyNone)))
  /\
  (1 <= min_gap ->
   exists num_spikes, forall fuel, (List.length readings < fuel)%nat ->
     detect_beep fuel readings label threshold min_gap
       = Some (Ok ([SpikeCount label num_spikes], PyNone))).
Proof.
  intros Hd Ht.
  assert (Hgen : forall fuel spikes,
     scan_loop fuel (above_threshold readings threshold) min_gap scan_init
       = Some (Ok spikes) ->
     detect_beep fuel readings label threshold min_gap
       = Some (Ok ([SpikeCount label (List.length spikes)], PyNone))).
  { intros fuel spikes H. unfold detect_beep. rewrite H.
    now rewrite (pystr_eqb_neq _ _ Hd), (pystr_eqb_neq _ _ Ht). }
  split; [exact Hgen|]. intros Hg.
  destruct (scan_from_start_total (above_threshold readings threshold) min_gap Hg)
    as [spikes Hs].
  exists (List.length spikes). intros fuel Hf. apply Hgen, Hs.
  now rewrite above_threshold_length.
Qed.

Lemma unsupported_label_yields_none_witness :
  detect_beep 4 [0.01; 0; 0.02]%float (str "Standard") default_threshold 1
  = Some (Ok ([SpikeCount (str "Standard") 2], PyNone)).
Proof.
  destruct (unsupported_label_yields_none [0.01; 0; 0.02]%float (str "Standard")
              default_threshold 1) as [H _].
  - discriminate.
  - discriminate.
  - apply (H 4%nat [0; 2]). reflexivity.
Defined.

(** C3: a payload made of decimal numerals joined by commas parses to the
    values [float] gives those numerals, in order and without a warning; the
    payload "0.012A,0.5,bad,0.9" parses to 0.012, 0.5, 0.9; and in general
    the readings are those of the cleaned pieces, a piece that is empty after
    cleaning or that [float] rejects adding nothing. *)
Theorem parser_round_trip_and_tolerance :
  (forall (literals : list pystr) (values : list float),
     Forall2 (fun literal value => float_literal literal /\ py_float literal = Some value)
             literals values ->
     parse_payload (join_comma literals) = (values, []))
  /\ parse_readings (str "0.012A,0.5,bad,0.9") = [0.012; 0.5; 0.9]%float
  /\ (forall raw_data,
        parse_readings raw_data =
          flat_map reading_of
            (if has_comma raw_data then map clean (split_comma raw_data)
             else [clean raw_data])).
Proof.
  split; [|split].
  - intros literals values H. now apply parse_joined.
  - reflexivity.
  - exact parse_readings_pieces.
Qed.

Lemma parser_round_trip_and_tolerance_witness :
  parse_payload (join_comma [str "+1.23456789E-03"; str "-4.5"; str "7"; str "1_0.e+1"])
  = ([0.00123456789; -4.5; 7; 100]%float, []).
Proof.
  destruct parser_round_trip_and_tolerance as [H _].
  apply H. repeat constructor; (eexists; reflexivity) || reflexivity.
Defined.

(** C4: on the readings 0, 0, 0.01, 0.01, 0, 0, 0, 0, 0, 0, 0.02, 0 followed
    by any number of quiet samples, with threshold 0.005 and any
    [min_gap >= 1], the scan completes; its first spike is index 2; from
    [min_gap = 2] on index 3 is not recorded; index 10 is recorded exactly
    when [min_gap <= 10 - 2]; with [min_gap = 10] the recorded indices are
    just index 2, one spike. *)
Theorem debounce_example (n : nat) (min_gap : Z) :
  1 <= min_gap ->
  exists spikes,
    (forall fuel, (12 + n < fuel)%nat ->
       scan_loop fuel (above_threshold (example_readings n) default_threshold)
                 min_gap scan_init = Some (Ok spikes))
    /\ hd_error spikes = Some 2
    /\ (2 <= min_gap -> ~ In 3 spikes)
    /\ (In 10 spikes <-> min_gap <= 10 - 2)
    /\ (2 <= min_gap -> (nth_error spikes 1 = Some 10 <-> min_gap <= 10 - 2))
    /\ (min_gap = 10 -> spikes = [2]).
Proof.
  intros Hg. exists (example_spikes min_gap). split.
  - intros fuel Hf. rewrite example_above_eq. now apply example_scan.
  - unfold example_spikes.
    destruct (Z.eqb_spec min_gap 1) as [->|Hne];
      [|destruct (Z.leb_spec min_gap 8) as [Hle|Hgt]];
      cbn [hd_error nth_error In]; intuition (try lia; try discriminate).
Qed.

Lemma debounce_example_witness :
  exists spikes,
    (forall fuel, (12 + 3 < fuel)%nat ->
       scan_loop fuel (above_threshold (example_readings 3) default_threshold)
                 10 scan_init = Some (Ok spikes))
    /\ spikes = [2].
Proof.
  destruct (debounce_example 3 10) as (spikes & Hscan & _ & _ & _ & _ & Hone).
  - lia.
  - exists spikes. split; [exact Hscan | now apply Hone].
Defined.

(** C5: the call with label "Double Beep" returns a value exactly when
    the scan completes, and that value is the boolean "at least two spikes
    were recorded" (so counts 0 and 1 give [False]); the call with label
    "Triple Beep" likewise returns "at least three spikes were recorded".
    With [min_gap >= 1] the scan completes for every readings sequence, with
    any fuel above the number of readings. *)
Theorem classification_follows_spike_count
    (readings : list float) (threshold : float) (min_gap : Z) :
  (forall fuel v,
     detect_value fuel readings (str "Double Beep") threshold min_gap = Some (Ok v) <->
     exists spikes,
       scan_loop fuel (above_threshold readings threshold) min_gap scan_init
         = Some (Ok spikes) /\
       v = PyBool (2 <=? List.length spikes)%nat)
  /\
  (forall fuel v,
     detect_value fuel readings (str "Triple Beep") threshold min_gap = Some (Ok v) <->
     exists spikes,
       scan_loop fuel (above_threshold readings threshold) min_gap scan_init
         = Some (Ok spikes) /\
       v = PyBool (3 <=? List.length spikes)%nat)
  /\
  (1 <= min_gap ->
   exists spikes, forall fuel, (List.length readings < fuel)%nat ->
     scan_loop fuel (above_threshold readings threshold) min_gap scan_init
       = Some (Ok spikes)).
Proof.
  split; [|split].
  - intros fuel v. unfold detect_value, detect_beep.
    change (pystr_eqb (str "Double Beep") (str "Double Beep")) with true. cbv iota.
    destruct (scan_loop fuel (above_threshold readings threshold) min_gap scan_init)
      as [[spikes|e]|]; split.
    + intros [= <-]. now exists spikes.
    + intros (spikes' & [= <-] & ->). reflexivity.
    + discriminate.
    + intros (spikes' & H & _). discriminate.
    + discriminate.
    + intros (spikes' & H & _). discriminate.
  - intros fuel v. unfold detect_value, detect_beep.
    change (pystr_eqb (str "Triple Beep") (str "Double Beep")) with false.
    change (pystr_eqb (str "Triple Beep") (str "Triple Beep")) with true. cbv iota.
    destruct (scan_loop fuel (above_threshold readings threshold) min_gap scan_init)
      as [[spikes|e]|]; split.
    + intros [= <-]. now exists spikes.
    + intros (spikes' & [= <-] & ->). reflexivity.
    + discriminate.
    + intros (spikes' & H & _). discriminate.
    + discriminate.
    + intros (spikes' & H & _). discriminate.
  - intros Hg.
    destruct (scan_from_start_total (above_threshold readings threshold) min_gap Hg)
      as [spikes Hs].
    exists spikes. intros fuel Hf. apply Hs. now rewrite above_threshold_length.
Qed.

Lemma classification_follows_spike_count_witness :
  exists spikes,
    (forall fuel, (4 < fuel)%nat ->
       scan_loop fuel (above_threshold [0.01; 0; 0.02; 0]%float default_threshold)
                 2 scan_init = Some (Ok spikes))
    /\ detect_value 5 [0.01; 0; 0.02; 0]%float (str "Double Beep") default_threshold 2
       = Some (Ok (PyBool true))
    /\ detect_value 5 [0.01; 0; 0.02; 0]%float (str "Triple Beep") default_threshold 2
       = Some (Ok (PyBool false)).
Proof.
  destruct (classification_follows_spike_count [0.01; 0; 0.02; 0]%float default_threshold 2)
    as (Hd & Ht & Htotal).
  destruct Htotal as [spikes Hs]; [lia|].
  exists spikes. split; [exact Hs|]. split.
  - apply Hd. exists [0; 2]. split; reflexivity.
  - apply Ht. exists [0; 2]. split; reflexivity.
Defined.

(** C6, as the code contradicts it: with [min_gap = 0] and the single
    reading 0.01, two passes through the loop body leave the cursor on index
    0 and the recorded indices 0, 0, which are not strictly increasing. *)
Lemma zero_gap_records_an_index_twice :
  scan_iter 2 (above_threshold [0.01]%float default_threshold) 0 scan_init
    = Some (mkScan 0 [0; 0])
  /\ ~ increasing [0; 0].
Proof.
  split; [reflexivity|]. cbn. lia.
Qed.

(** C6 (amended): for every readings sequence, every threshold and every
    [min_gap >= 1], the recorded indices are strictly increasing and any two
    consecutive ones are at least [min_gap] apart, after each pass through
    the loop body and in the list the completed scan leaves; and the scan
    does complete.  For any [min_gap] at all, the list left by a scan that
    completes has both properties. *)
Theorem spike_indices_increasing_and_spaced
    (readings : list float) (threshold : float) (min_gap : Z) :
  (1 <= min_gap ->
   (forall n st,
      scan_iter n (above_threshold readings threshold) min_gap scan_init = Some st ->
      increasing (spike_indices st) /\ spaced min_gap (spike_indices st))
   /\
   (exists spikes,
      (forall fuel, (List.length readings < fuel)%nat ->
         scan_loop fuel (above_threshold readings threshold) min_gap scan_init
           = Some (Ok spikes))
      /\ increasing spikes /\ spaced min_gap spikes))
  /\
  (forall fuel spikes,
     scan_loop fuel (above_threshold readings threshold) min_gap scan_init
       = Some (Ok spikes) ->
     increasing spikes /\ spaced min_gap spikes).
Proof.
  split.
  - intros Hg. split.
    + intros n st H.
      assert (Hinv : gap_invariant min_gap st).
      { eapply (gap_invariant_iter _ min_gap Hg n scan_init); [|exact H].
        unfold gap_invariant, scan_init; cbn. repeat split; auto; lia. }
      destruct Hinv as (_ & Hs & _). split; [now apply (spaced_increasing min_gap)|exact Hs].
    + destruct (scan_from_start_total (above_threshold readings threshold) min_gap Hg)
        as [spikes Hs].
      rewrite above_threshold_length in Hs. exists spikes. split; [exact Hs|].
      apply (finished_scan_spaced _ _ _ _ (Hs (S (List.length readings)) ltac:(lia))).
  - intros fuel spikes H. exact (finished_scan_spaced _ _ _ _ H).
Qed.

Lemma spike_indices_increasing_and_spaced_witness :
  (forall n st,
     scan_iter n (above_threshold [0.01; 0.01; 0; 0.02; 0; 0; 0.03; 0.01]%float
                    default_threshold) 3 scan_init = Some st ->
     increasing (spike_indices st) /\ spaced 3 (spike_indices st))
  /\ scan_loop 9 (above_threshold [0.01; 0.01; 0; 0.02; 0; 0; 0.03; 0.01]%float
                    default_threshold) 3 scan_init = Some (Ok [0; 3; 6])
  /\ increasing [0; 3; 6] /\ spaced 3 [0; 3; 6].
Proof.
  destruct (spike_indices_increasing_and_spaced
              [0.01; 0.01; 0; 0.02; 0; 0; 0.03; 0.01]%float default_threshold 3)
    as [Hpos Hdone].
  destruct Hpos as [Hstates _]; [lia|].
  split; [exact Hstates|]. split; [reflexivity|]. apply (Hdone 9%nat). reflexivity.
Defined.

(** C7: called with no power supply ([None]), the sequencer prints its
    refusal and returns at once, whatever the multimeter handle and the
    bench: the only new event is the printed line, the access counter is
    unchanged and the accesses of the trace are those it held before, so no
    command reached either instrument. *)
Theorem sequencer_refuses_without_power_supply
    (fuel : nat) (dmm : handle) (v_main v_double v_triple : float) (w : world) :
  exists w',
    run_beep_sequence fuel None dmm v_main v_double v_triple w = Some (Ok PyNone, w')
    /\ trace w' = trace w ++ [Print CannotRun]
    /\ accesses w' = accesses w
    /\ commands_sent (trace w') = commands_sent (trace w).
Proof.
  exists (logged w (Print CannotRun)). split; [reflexivity|].
  unfold logged; cbn [trace accesses]. repeat split.
  unfold commands_sent. rewrite flat_map_app. cbn [flat_map]. now rewrite !app_nil_r.
Qed.

(** C8: when the main run of the sequencer comes back without readings, the
    sequencer prints the no-data line and returns right there: nothing is
    sent to an instrument after the main run, so the double and triple runs
    are not attempted and no statistic is computed.  Whatever the
    instruments answer, the sequencer never raises ZeroDivisionError. *)
Theorem sequencer_aborts_without_main_readings
    (fuel : nat) (d : device) (dmm : handle) (v_main v_double v_triple : float)
    (w : world) :
  (forall w1 res,
     upcoming w 0 <> Failure ->
     run_test (Some d) dmm v_main (str "Main Test") default_nplc default_sample_count
              (advanced w d (Write OUTP_ON)) = Some (Ok res, w1) ->
     readings res = [] ->
     run_beep_sequence fuel (Some d) dmm v_main v_double v_triple w
     = Some (Ok PyNone, mkWorld (replies w1) (accesses w1) (trace w1 ++ [Print NoReadings])))
  /\
  (forall psu w', run_beep_sequence fuel psu dmm v_main v_double v_triple w
                  <> Some (Raise ZeroDivisionError, w')).
Proof.
  split.
  - intros w1 res Hans Hrun Hempty.
    exact (sequence_aborts_on_empty_main fuel d dmm v_main v_double v_triple w w1 res
             Hans Hrun Hempty).
  - intros psu w' H.
    now apply (sequence_no_zero_division fuel psu dmm v_main v_double v_triple w _ w' H).
Qed.

Lemma sequencer_aborts_without_main_readings_witness :
  run_beep_sequence 0 (Some PowerSupply) (Some Multimeter) 5 5.2 5.4 mute_multimeter
  = Some (Ok PyNone,
          mkWorld (replies mute_multimeter) 5
            [Instr PowerSupply (Write OUTP_ON);
             Instr PowerSupply (Write INST_CH1);
             Instr PowerSupply (Write (VOLT 5));
             Instr PowerSupply (Write OUTP_ON);
             Print (Running (str "Main Test") 5);
             Instr Multimeter (SetTimeout 20000);
             Print (MeasurementError VisaIOError);
             Print NoReadings]).
Proof.
  destruct (sequencer_aborts_without_main_readings 0 PowerSupply (Some Multimeter)
              5 5.2 5.4 mute_multimeter) as [H _].
  apply (H (mkWorld (replies mute_multimeter) 5
              [Instr PowerSupply (Write OUTP_ON);
               Instr PowerSupply (Write INST_CH1);
               Instr PowerSupply (Write (VOLT 5));
               Instr PowerSupply (Write OUTP_ON);
               Print (Running (str "Main Test") 5);
               Instr Multimeter (SetTimeout 20000);
               Print (MeasurementError VisaIOError)])
           (mkAcquisition (str "Main Test") 5 [])).
  - discriminate.
  - reflexivity.
  - reflexivity.
Defined.

(** C9: a payload that is empty once stripped parses to no readings and no
    warning, in both senses of stripping: when the removal of the characters
    that are not numeric (everything but digits, [.], [-], [E], [e]) leaves
    nothing, as for the payloads bad and mA, with or without commas; and so
    also when the payload is empty or holds only blanks.  The parser is a
    total function, so nothing is raised. *)
Theorem empty_payload_parses_to_nothing (raw_data : pystr) :
  (clean raw_data = [] -> parse_payload raw_data = ([], []))
  /\ (strip raw_data = [] -> clean raw_data = [] /\ parse_payload raw_data = ([], [])).
Proof.
  split.
  - apply cleaned_away.
  - intros H. pose proof (blank_is_cleaned_away raw_data H) as Hc.
    split; [exact Hc | exact (cleaned_away raw_data Hc)].
Qed.

Lemma empty_payload_parses_to_nothing_witness :
  parse_payload (str "") = ([], [])
  /\ parse_payload [" "%char; ascii_of_nat 13; ascii_of_nat 10] = ([], [])
  /\ parse_payload (str "bad") = ([], [])
  /\ parse_payload (str " mA, n/a ,") = ([], []).
Proof.
  split; [|split; [|split]].
  - apply (proj1 (empty_payload_parses_to_nothing (str ""))). reflexivity.
  - apply (proj2 (empty_payload_parses_to_nothing
                    [" "%char; ascii_of_nat 13; ascii_of_nat 10])). reflexivity.
  - apply (proj1 (empty_payload_parses_to_nothing (str "bad"))). reflexivity.
  - apply (proj1 (empty_payload_parses_to_nothing (str " mA, n/a ,"))). reflexivity.
Defined.

(** C10: with [min_gap >= 1] the scan of [detect_beep] ends for every
    readings sequence, with any fuel above the number of readings, and the
    call returns; with [min_gap = 0] and a reading above the threshold the
    loop never ends, whatever the fuel. *)
Theorem scan_terminates_iff_positive_gap
    (readings : list float) (label : pystr) (threshold : float) :
  (forall min_gap, 1 <= min_gap ->
     exists out, forall fuel, (List.length readings < fuel)%nat ->
       detect_beep fuel readings label threshold min_gap = Some (Ok out))
  /\
  ((exists k x, nth_error readings k = Some x /\ PrimFloat.ltb threshold x = true) ->
   forall fuel, detect_beep fuel readings label threshold 0 = None).
Proof.
  split.
  - intros min_gap Hg.
    destruct (scan_from_start_total (above_threshold readings threshold) min_gap Hg)
      as [spikes Hs].
    rewrite above_threshold_length in Hs. unfold detect_beep.
    destruct (pystr_eqb label (str "Double Beep")) eqn:Ed;
      [|destruct (pystr_eqb label (str "Triple Beep")) eqn:Et];
      eexists; intros fuel Hf; rewrite (Hs fuel Hf); reflexivity.
  - intros (k & x & Hk & Hx) fuel. unfold detect_beep.
    rewrite (scan_loop_stuck (above_threshold readings threshold) k); [reflexivity| |].
    + unfold above_threshold. rewrite nth_error_map, Hk. cbn. now rewrite Hx.
    + cbn. lia.
Qed.

Lemma scan_terminates_iff_positive_gap_witness :
  (exists out, forall fuel, (2 < fuel)%nat ->
     detect_beep fuel [0; 0.01]%float (str "Double Beep") default_threshold 1 = Some (Ok out))
  /\ (forall fuel,
        detect_beep fuel [0; 0.01]%float (str "Double Beep") default_threshold 0 = None).
Proof.
  destruct (scan_terminates_iff_positive_gap [0; 0.01]%float (str "Double Beep")
              default_threshold) as [Hpos Hzero].
  split.
  - apply (Hpos 1). lia.
  - apply Hzero. exists 1%nat, 0.01%float. split; reflexivity.
Defined.

(** * Lemmas for the further properties *)

(** ** More about the scan of [detect_beep] *)

Module PulseFacts.
Import Detector Pulses DetectorFacts.

Lemma np_index_nonneg (above : list bool) (c : Z) (b : bool) :
  0 <= c -> np_index above c = Ok b -> nth_error above (Z.to_nat c) = Some b.
Proof.
  intros Hc. unfold np_index.
  destruct ((0 <=? c) && (c <? Z.of_nat (List.length above))) eqn:E.
  - destruct (nth_error above (Z.to_nat c)); congruence.
  - replace ((- Z.of_nat (List.length above) <=? c) && (c <? 0)) with false; [discriminate|].
    symmetry. apply andb_false_iff. right. apply Z.ltb_ge. lia.
Qed.

(** A property kept by every pass through the loop body holds in the state
    the loop ends in. *)
Lemma scan_loop_keeps (above : list bool) (g : Z) (P : scan_state -> Prop) :
  (forall st st', P st -> scan_step above g st = Continue st' -> P st') ->
  forall fuel st spikes,
    P st -> scan_loop fuel above g st = Some (Ok spikes) ->
    exists last,
      P last /\ spike_indices last = spikes /\
      Z.of_nat (List.length above) <= cursor last.
Proof.
  intros HP. induction fuel as [|fuel IH]; intros st spikes Hst H; [discriminate|].
  cbn [scan_loop] in H. destruct (scan_step above g st) as [st'|l|e] eqn:E.
  - apply (IH st'); [eapply HP; eauto | exact H].
  - inversion H; subst. exists st. split; [exact Hst|].
    unfold scan_step in E.
    destruct (cursor st <? Z.of_nat (List.length above)) eqn:Hlt.
    + destruct (np_index above (cursor st)) as [[|]|]; discriminate.
    + apply Z.ltb_ge in Hlt. inversion E; subst. split; [reflexivity | lia].
  - discriminate.
Qed.

(** What one pass through the body does, read backwards. *)
Lemma scan_step_continue (above : list bool) (g : Z) (st st' : scan_state) :
  0 <= cursor st -> scan_step above g st = Continue st' ->
  exists b,
    nth_error above (Z.to_nat (cursor st)) = Some b /\
    st' = (if b then mkScan (cursor st + g) (spike_indices st ++ [cursor st])
           else mkScan (cursor st + 1) (spike_indices st)).
Proof.
  intros Hc H. unfold scan_step in H.
  destruct (cursor st <? Z.of_nat (List.length above)); [|discriminate].
  destruct (np_index above (cursor st)) as [b|e] eqn:E; [|discriminate].
  exists b. split; [now apply np_index_nonneg|]. destruct b; now inversion H.
Qed.

(** With [min_gap >= 1] every recorded index is an above-threshold position. *)
Lemma recorded_are_active (above : list bool) (g : Z) (fuel : nat) (spikes : list Z) :
  1 <= g ->
  scan_loop fuel above g scan_init = Some (Ok spikes) ->
  Forall (active above) spikes.
Proof.
  intros Hg H.
  destruct (scan_loop_keeps above g
              (fun st => 0 <= cursor st /\ Forall (active above) (spike_indices st)))
    with (fuel := fuel) (st := scan_init) (spikes := spikes)
    as (last & [_ Hall] & <- & _); auto.
  - intros st st' [Hc Hall] Hstep.
    destruct (scan_step_continue above g st st' Hc Hstep) as (b & Hb & ->).
    destruct b; cbn [cursor spike_indices]; split; try lia; auto.
    apply Forall_app. split; [exact Hall|]. constructor; [now split | constructor].
  - cbn. split; [lia | constructor].
Qed.

Lemma active_in_range (above : list bool) (i : Z) :
  active above i -> 0 <= i < Z.of_nat (List.length above).
Proof.
  intros [Hi Hn]. split; [exact Hi|].
  assert (Z.to_nat i < List.length above)%nat by (apply nth_error_Some; congruence). lia.
Qed.

(** Spaced positions inside an array of [len] cells: the first one plus
    [gap] times the number of the others stays below [len]. *)
Lemma spaced_span (g len : Z) (l : list Z) (x : Z) :
  0 <= g -> spaced g (x :: l) -> Forall (fun y => y < len) (x :: l) ->
  x + Z.of_nat (List.length l) * g < len.
Proof.
  intros Hg. revert x. induction l as [|y tl IH]; intros x Hs Hall.
  - inversion Hall; subst. cbn. lia.
  - destruct Hs as [Hxy Htl]. inversion Hall as [|? ? _ Hrest]; subst.
    specialize (IH y Htl Hrest). cbn [List.length]. lia.
Qed.

Lemma spaced_rest_after (g : Z) (x : Z) (l : list Z) :
  0 <= g -> spaced g (x :: l) -> Forall (fun y => x + g <= y) l.
Proof.
  intros Hg. revert x. induction l as [|y tl IH]; intros x Hs; [constructor|].
  destruct Hs as [Hxy Htl]. constructor; [exact Hxy|].
  eapply Forall_impl; [|exact (IH y Htl)]. cbn. intros; lia.
Qed.

(** The scan picks as many positions as any selection can hold. *)
Lemma greedy_is_longest (above : list bool) (g : Z) :
  1 <= g ->
  forall fuel st spikes,
    0 <= cursor st ->
    scan_loop fuel above g st = Some (Ok spikes) ->
    forall l,
      selection above g l -> Forall (fun x => cursor st <= x) l ->
      (List.length (spike_indices st) + List.length l <= List.length spikes)%nat.
Proof.
  intros Hg. induction fuel as [|fuel IH]; intros st spikes Hc H l [Hs Hact] Hge;
    [discriminate|].
  cbn [scan_loop] in H. destruct (scan_step above g st) as [st'|fin|e] eqn:E.
  - destruct (scan_step_continue above g st st' Hc E) as (b & Hb & ->). destruct b.
    + assert (Hpos : 0 <= cursor (mkScan (cursor st + g) (spike_indices st ++ [cursor st])))
        by (cbn [cursor]; lia).
      destruct l as [|x tl].
      * pose proof (IH _ _ Hpos H [] (conj I (Forall_nil _)) (Forall_nil _)) as Hlen.
        cbn [spike_indices] in Hlen. rewrite length_app in Hlen. cbn in *. lia.
      * assert (Htl : Forall (fun y => cursor st + g <= y) tl).
        { pose proof (Forall_inv Hge) as Hx. cbn in Hx.
          eapply Forall_impl; [|exact (spaced_rest_after g x tl ltac:(lia) Hs)].
          cbn. intros; lia. }
        destruct Hs as [_ Hs'].
        pose proof (IH _ _ Hpos H tl (conj Hs' (Forall_inv_tail Hact)) Htl) as Hlen.
        cbn [spike_indices] in Hlen. rewrite length_app in Hlen. cbn in *. lia.
    + assert (Hpos : 0 <= cursor (mkScan (cursor st + 1) (spike_indices st)))
        by (cbn [cursor]; lia).
      apply (IH _ _ Hpos H l (conj Hs Hact)).
      cbn [cursor]. apply Forall_forall. intros x Hx.
      pose proof (proj1 (Forall_forall _ _) Hge x Hx) as Hcx.
      pose proof (proj1 (Forall_forall _ _) Hact x Hx) as [_ Hax].
      assert (x <> cursor st) by (intros ->; congruence). cbn in Hcx. lia.
  - inversion H; subst. unfold scan_step in E.
    destruct (cursor st <? Z.of_nat (List.length above)) eqn:Hlt.
    + destruct (np_index above (cursor st)) as [[|]|]; discriminate.
    + apply Z.ltb_ge in Hlt. inversion E; subst.
      destruct l as [|x tl]; [cbn; lia|].
      pose proof (Forall_inv Hge) as Hx. cbn in Hx.
      pose proof (active_in_range above x (Forall_inv Hact)). lia.
  - discriminate.
Qed.

(** The list the loop ends with extends the list it started from. *)
Lemma scan_loop_extends (above : list bool) (g : Z) (fuel : nat) :
  forall st spikes,
    scan_loop fuel above g st = Some (Ok spikes) ->
    exists rest, spikes = spike_indices st ++ rest.
Proof.
  induction fuel as [|fuel IH]; intros st spikes H; [discriminate|].
  cbn [scan_loop] in H. unfold scan_step in H.
  destruct (cursor st <? Z.of_nat (List.length above)).
  - destruct (np_index above (cursor st)) as [[|]|e]; [| |discriminate].
    + destruct (IH _ _ H) as [rest ->]. cbn [spike_indices].
      exists (cursor st :: rest). now rewrite <- app_assoc.
    + exact (IH _ _ H).
  - inversion H; subst. exists []. now rewrite app_nil_r.
Qed.

(** Cells below the threshold are walked through one by one. *)
Lemma scan_loop_walk (above : list bool) (g : Z) (acc : list Z) :
  forall (n c : nat) (fuel : nat),
    (forall j, (c <= j < c + n)%nat -> nth_error above j = Some false) ->
    scan_loop (n + fuel) above g (mkScan (Z.of_nat c) acc) =
    scan_loop fuel above g (mkScan (Z.of_nat (c + n)) acc).
Proof.
  induction n as [|n IH]; intros c fuel Hq.
  - now rewrite Nat.add_0_r.
  - cbn [Nat.add].
    rewrite (scan_loop_at above g (Z.of_nat c) acc false) by
      (try lia; rewrite Nat2Z.id; apply Hq; lia).
    replace (Z.of_nat c + 1) with (Z.of_nat (S c)) by lia.
    rewrite IH by (intros j Hj; apply Hq; lia).
    now replace (S c + n)%nat with (c + S n)%nat by lia.
Qed.

(** The first reading above the threshold is the first index recorded. *)
Lemma first_active_first_recorded (above : list bool) (g : Z) (k : nat)
    (fuel : nat) (spikes : list Z) :
  first_active above k ->
  scan_loop fuel above g scan_init = Some (Ok spikes) ->
  hd_error spikes = Some (Z.of_nat k).
Proof.
  intros [Hk Hbefore] H.
  destruct (Nat.le_gt_cases fuel k) as [Hshort|Hlong].
  - (* not enough fuel to reach position [k]: the loop cannot have ended *)
    exfalso.
    replace fuel with (fuel + 0)%nat in H by lia.
    unfold scan_init in H. change 0 with (Z.of_nat 0) in H.
    rewrite (scan_loop_walk above g [] fuel 0 0) in H by (intros j Hj; apply Hbefore; lia).
    discriminate.
  - replace fuel with (k + S (fuel - S k))%nat in H by lia.
    unfold scan_init in H. change 0 with (Z.of_nat 0) in H.
    rewrite (scan_loop_walk above g [] k 0) in H by (intros j Hj; apply Hbefore; lia).
    cbn [Nat.add] in H.
    rewrite (scan_loop_at above g (Z.of_nat k) [] true) in H by
      (try lia; now rewrite Nat2Z.id).
    destruct (scan_loop_extends _ _ _ _ _ H) as [rest ->]. reflexivity.
Qed.

(** A scan that ends with nothing recorded has seen no cell above the
    threshold, whatever [min_gap] is. *)
Lemma nothing_recorded_nothing_active (above : list bool) (g : Z) (fuel : nat) :
  scan_loop fuel above g scan_init = Some (Ok []) ->
  forall k, nth_error above k <> Some true.
Proof.
  intros H.
  destruct (scan_loop_keeps above g
              (fun st => spike_indices st = [] ->
                         0 <= cursor st /\
                         forall k, Z.of_nat k < cursor st -> nth_error above k <> Some true))
    with (fuel := fuel) (st := scan_init) (spikes := @nil Z)
    as (last & Hlast & Hnil & Hend); auto.
  - intros st st' Hst Hstep Hnil'.
    assert (Hnil : spike_indices st = []).
    { unfold scan_step in Hstep.
      destruct (cursor st <? _); [|discriminate].
      destruct (np_index above (cursor st)) as [[|]|]; inversion Hstep; subst;
        cbn [spike_indices] in Hnil'; [|exact Hnil'].
      now destruct (spike_indices st). }
    destruct (Hst Hnil) as [Hc Hseen].
    destruct (scan_step_continue above g st st' Hc Hstep) as (b & Hb & ->).
    destruct b; cbn [spike_indices cursor] in *.
    + now destruct (spike_indices st).
    + split; [lia|]. intros k Hk.
      destruct (Z.eq_dec (Z.of_nat k) (cursor st)) as [Heq|Hne].
      * rewrite <- Heq, Nat2Z.id in Hb. congruence.
      * apply Hseen. lia.
  - cbn. intros _. split; [lia|]. intros k Hk. lia.
  - destruct (Hlast Hnil) as [_ Hseen]. intros k Hk.
    assert (k < List.length above)%nat by (apply nth_error_Some; congruence).
    apply (Hseen k); [lia | exact Hk].
Qed.

(** With [min_gap = 1] nothing is skipped: every above-threshold position
    is recorded. *)
Lemma unit_gap_records_all (suffix : list bool) :
  forall (prefix : list bool) (acc : list Z),
    scan_loop (S (List.length suffix)) (prefix ++ suffix) 1
              (mkScan (Z.of_nat (List.length prefix)) acc)
    = Some (Ok (acc ++ active_from (List.length prefix) suffix)).
Proof.
  induction suffix as [|b suffix IH]; intros prefix acc.
  - cbn [List.length scan_loop active_from]. rewrite !app_nil_r.
    now rewrite scan_step_exit by (cbn [cursor]; lia).
  - cbn [List.length active_from].
    rewrite (scan_loop_at (prefix ++ b :: suffix) 1 (Z.of_nat (List.length prefix)) acc b).
    + replace (prefix ++ b :: suffix) with ((prefix ++ [b]) ++ suffix)
        by (now rewrite <- app_assoc).
      replace (Z.of_nat (List.length prefix) + 1)
        with (Z.of_nat (List.length (prefix ++ [b])))
        by (rewrite length_app; cbn; lia).
      replace (S (List.length prefix)) with (List.length (prefix ++ [b]))
        by (rewrite length_app; cbn; lia).
      destruct b; rewrite IH; [|reflexivity].
      now rewrite <- app_assoc.
    + lia.
    + rewrite Nat2Z.id, nth_error_app2 by lia. now rewrite Nat.sub_diag.
Qed.

(** Quiet cells added at the end leave the recorded indices as they are. *)
Lemma quiet_tail_ignored (above : list bool) (g : Z) (n : nat) :
  1 <= g ->
  forall fuel st spikes,
    0 <= cursor st ->
    scan_loop fuel above g st = Some (Ok spikes) ->
    scan_loop (fuel + n) (above ++ repeat false n) g st = Some (Ok spikes).
Proof.
  intros Hg. induction fuel as [|fuel IH]; intros [c acc] spikes Hc H; [discriminate|].
  cbn [cursor] in Hc.
  destruct (Z_lt_le_dec c (Z.of_nat (List.length above))) as [Hin|Hout].
  - destruct (nth_error_in_range above c (conj Hc Hin)) as [b Hb].
    rewrite (scan_loop_at above g c acc b fuel Hc Hb) in H.
    cbn [Nat.add].
    rewrite (scan_loop_at (above ++ repeat false n) g c acc b (fuel + n) Hc)
      by (rewrite nth_error_app1 by lia; exact Hb).
    destruct b; apply IH; cbn [cursor]; auto; lia.
  - cbn [scan_loop] in H. rewrite scan_step_exit in H by (cbn [cursor]; lia).
    inversion H; subst; clear H. cbn [spike_indices].
    rewrite scan_loop_quiet; [reflexivity | exact Hc | |].
    + cbn [cursor]. intros k Hk Hlen. rewrite length_app, repeat_length in Hlen.
      rewrite nth_error_app2 by lia. apply nth_error_repeat. lia.
    + cbn [cursor]. rewrite length_app, repeat_length. lia.
Qed.

Lemma above_threshold_quiet (readings : list float) (threshold : float) :
  all_quiet readings threshold ->
  forall k, (k < List.length (above_threshold readings threshold))%nat ->
            nth_error (above_threshold readings threshold) k = Some false.
Proof.
  unfold all_quiet, above_threshold. intros Hq k Hk. rewrite length_map in Hk.
  rewrite nth_error_map.
  destruct (nth_error readings k) as [x|] eqn:E.
  - cbn. f_equal. apply (proj1 (Forall_forall _ _) Hq). eapply nth_error_In; eauto.
  - apply nth_error_None in E. lia.
Qed.

(** With [min_gap >= 1] the loop never raises. *)
Lemma positive_gap_never_raises (above : list bool) (g : Z) (fuel : nat) (e : exn) :
  1 <= g -> scan_loop fuel above g scan_init <> Some (Raise e).
Proof.
  intros Hg H.
  destruct (scan_from_start_total above g Hg) as [spikes Hs].
  pose proof (scan_loop_fuel_le above g fuel (fuel + S (List.length above)) scan_init
                (Raise e) ltac:(lia) H) as H1.
  rewrite Hs in H1 by lia. discriminate.
Qed.

End PulseFacts.

(** ** More about the parser *)

Module ParserMoreFacts.
Import PyText PyFloat Parser Payloads TextFacts FloatFacts ParserFacts.

Lemma noise_not_kept (c : ascii) : is_noise c = true -> keep c = false.
Proof. unfold is_noise. destruct (keep c); [discriminate | reflexivity]. Qed.

Lemma noise_not_comma (c : ascii) : is_noise c = true -> Ascii.eqb comma c = false.
Proof.
  unfold is_noise. destruct (keep c); [discriminate|].
  destruct (Ascii.eqb comma c); [discriminate | reflexivity].
Qed.

Lemma clean_pieces_comma (c : ascii) (s : pystr) :
  Ascii.eqb comma c = true -> clean_pieces (c :: s) = [] :: clean_pieces s.
Proof. intros Hc. unfold clean_pieces. cbn [split_comma]. now rewrite Hc. Qed.

Lemma clean_pieces_noise (a b : pystr) (c : ascii) :
  is_noise c = true -> clean_pieces (a ++ c :: b) = clean_pieces (a ++ b).
Proof.
  intros Hc. induction a as [|x a IH]; cbn [app].
  - exact (push_dropped is_noise noise_not_kept noise_not_comma c b Hc).
  - destruct (Ascii.eqb comma x) eqn:Hx.
    + now rewrite !clean_pieces_comma, IH.
    + now rewrite !clean_pieces_cons, IH.
Qed.

Lemma noise_leaves_readings (a b : pystr) (c : ascii) :
  is_noise c = true -> parse_readings (a ++ c :: b) = parse_readings (a ++ b).
Proof.
  intros Hc. rewrite !parse_readings_pieces.
  rewrite clean_pieces_noise by exact Hc.
  rewrite !has_comma_app. unfold has_comma at 2. cbn [existsb].
  rewrite (noise_not_comma c Hc). cbn [orb]. fold (has_comma b).
  rewrite !clean_app. unfold clean at 2. cbn [filter].
  now rewrite (noise_not_kept c Hc).
Qed.

(** *** How many readings and warnings a payload can give *)

Lemma split_comma_length (s : pystr) : List.length (split_comma s) = S (commas s).
Proof.
  unfold commas. induction s as [|c t IH]; [reflexivity|].
  cbn [split_comma filter]. destruct (Ascii.eqb comma c).
  - cbn [List.length]. now rewrite IH.
  - destruct (split_comma t) as [|piece pieces]; [discriminate|].
    cbn [List.length] in *. exact IH.
Qed.

Lemma commas_lstrip_by (p : ascii -> bool) (s : pystr) :
  (commas (lstrip_by p s) <= commas s)%nat.
Proof.
  unfold commas. induction s as [|c t IH]; cbn [lstrip_by]; [lia|].
  destruct (p c); [|lia]. cbn [filter]. destruct (Ascii.eqb comma c); cbn [List.length]; lia.
Qed.

Lemma commas_rstrip_by (p : ascii -> bool) (s : pystr) :
  (commas (rstrip_by p s) <= commas s)%nat.
Proof.
  unfold commas. induction s as [|c t IH]; cbn [rstrip_by]; [lia|].
  destruct (is_nil (rstrip_by p t) && p c); cbn [filter];
    destruct (Ascii.eqb comma c); cbn [List.length]; lia.
Qed.

Lemma parse_token_one (value : pystr) :
  (List.length (fst (parse_token value)) + List.length (snd (parse_token value)) <= 1)%nat.
Proof.
  unfold parse_token. destruct (is_nil (clean value)); [cbn; lia|].
  destruct (py_float (clean value)); cbn; lia.
Qed.

Lemma parse_tokens_bounded (tokens : list pystr) :
  (List.length (flat_map fst (map parse_token tokens))
   + List.length (flat_map snd (map parse_token tokens)) <= List.length tokens)%nat.
Proof.
  induction tokens as [|t ts IH]; [cbn; lia|].
  cbn [map flat_map List.length]. rewrite !length_app.
  pose proof (parse_token_one t). lia.
Qed.

Lemma parse_payload_bounded (raw_data : pystr) :
  (List.length (fst (parse_payload raw_data)) + List.length (snd (parse_payload raw_data))
   <= S (commas raw_data))%nat.
Proof.
  unfold parse_payload. destruct (has_comma (strip raw_data)).
  - cbn [fst snd]. pose proof (parse_tokens_bounded (split_comma (strip raw_data))) as H.
    rewrite split_comma_length in H.
    pose proof (commas_rstrip_by isspace (lstrip_by isspace raw_data)).
    pose proof (commas_lstrip_by isspace raw_data). unfold strip in *. lia.
  - unfold parse_single. destruct (is_nil (clean (strip raw_data))); [cbn; lia|].
    destruct (py_float (clean (strip raw_data))); cbn; lia.
Qed.

(** *** No digit, no reading *)

Lemma kept_not_a_word (c : ascii) :
  keep c = true ->
  Ascii.eqb (lower c) "i" = false /\ Ascii.eqb (lower c) "n" = false /\
  Ascii.eqb c "+" = false.
Proof. all_chars c. Qed.

Lemma word_needs_i_or_n (body : pystr) :
  match body with
  | c :: _ => Ascii.eqb (lower c) "i" = false /\ Ascii.eqb (lower c) "n" = false
  | [] => True
  end ->
  (pystr_eqb (map lower body) (str "inf") || pystr_eqb (map lower body) (str "infinity"))
  = false
  /\ pystr_eqb (map lower body) (str "nan") = false.
Proof.
  destruct body as [|c t]; [intros _; split; reflexivity|].
  intros [Hi Hn]. unfold pystr_eqb. cbn [map string_of_list_ascii str list_ascii_of_string].
  cbn [String.eqb]. now rewrite Hi, Hn.
Qed.

Lemma scan_special_clean (s : pystr) : scan_special (clean s) = None.
Proof.
  unfold scan_special. pose proof (clean_all_kept s) as Hk.
  destruct (clean s) as [|c t]; [reflexivity|].
  pose proof (Forall_inv Hk) as Hc. pose proof (Forall_inv_tail Hk) as Ht.
  destruct (kept_not_a_word c Hc) as (Hi & Hn & Hplus).
  cbn [take_sign]. rewrite Hplus.
  destruct (Ascii.eqb c "-").
  - destruct (word_needs_i_or_n t) as [-> ->]; [|reflexivity].
    destruct t as [|c' t']; [exact I|].
    destruct (kept_not_a_word c' (Forall_inv Ht)) as (Hi' & Hn' & _). now split.
  - destruct (word_needs_i_or_n (c :: t)) as [-> ->]; [now split | reflexivity].
Qed.

Lemma render_has_digit (sh : shape) :
  wf sh -> exists c, In c (render sh) /\ is_decimal c = true.
Proof.
  destruct sh as [sg ip pt fp ex]. unfold wf, render, render_frac.
  cbn [sign int_digits point frac_digits expo].
  intros (Hip & Hfp & Hpt & Hne & _).
  destruct ip as [|c ip'].
  - destruct fp as [|c fp']; [now contradiction Hne|].
    destruct pt; [|discriminate (Hpt eq_refl)].
    exists c. split; [|exact (Forall_inv Hfp)].
    apply in_or_app. right. cbn [app]. right. now left.
  - exists c. split; [|exact (Forall_inv Hip)].
    apply in_or_app. right. now left.
Qed.

Lemma reading_needs_digit (value : pystr) :
  reading_of (clean value) <> [] -> exists c, In c value /\ is_decimal c = true.
Proof.
  unfold reading_of. destruct (is_nil (clean value)); [congruence|].
  rewrite py_float_clean, scan_special_clean.
  destruct (scan_shape (clean value)) as [sh|] eqn:E; [|congruence].
  intros _. apply scan_shape_spec in E as [Hr Hwf].
  destruct (render_has_digit sh Hwf) as (c & Hin & Hd).
  exists c. split; [|exact Hd]. rewrite <- Hr in Hin. now apply filter_In in Hin.
Qed.

Lemma digitless_no_reading (raw_data : pystr) :
  digitless raw_data -> parse_readings raw_data = [].
Proof.
  intros Hd. rewrite parse_readings_pieces.
  assert (Hpiece : forall value, (forall c, In c value -> In c raw_data) ->
                                 reading_of (clean value) = []).
  { intros value Hsub. destruct (reading_of (clean value)) eqn:E; [reflexivity|].
    destruct (reading_needs_digit value) as (c & Hin & Hc); [congruence|].
    pose proof (proj1 (Forall_forall _ _) Hd c (Hsub c Hin)). cbn in *. congruence. }
  destruct (has_comma raw_data).
  - unfold clean_pieces.
    assert (Hall : forall pieces, (forall p, In p pieces -> In p (split_comma raw_data)) ->
                                  flat_map reading_of (map clean pieces) = []).
    { induction pieces as [|p ps IH]; intros Hsub; [reflexivity|].
      cbn [map flat_map]. rewrite Hpiece, IH; auto.
      - intros q Hq. apply Hsub. now right.
      - intros c Hc. apply (split_comma_chars raw_data p); [apply Hsub; now left | exact Hc]. }
    apply Hall. auto.
  - cbn [flat_map]. rewrite Hpiece; auto.
Qed.

End ParserMoreFacts.

(** ** More about the drivers *)

Module BenchMoreFacts.
Import PyNum Bench Scripts BenchFacts.

Lemma leaves_bind {A B : Type} (m : M A) (k : A -> M B) (P : A -> Prop)
    (Q : B -> world -> Prop) :
  returns m P -> (forall a, P a -> leaves (k a) Q) -> leaves (bind m k) Q.
Proof.
  intros Hm Hk w b w'. unfold bind.
  destruct (m w) as [[[a|e] w1]|] eqn:E; [|discriminate|discriminate].
  apply Hk. exact (Hm _ _ _ E).
Qed.

Lemma returns_any {A : Type} (m : M A) : returns m (fun _ => True).
Proof. now intros w a w' _. Qed.

Lemma commands_sent_logged (w : world) (line : console) :
  commands_sent (trace (logged w (Print line))) = commands_sent (trace w).
Proof.
  unfold commands_sent, logged; cbn [trace]. rewrite flat_map_app. cbn. now rewrite app_nil_r.
Qed.

Lemma commands_sent_slept (w : world) (seconds : float) :
  commands_sent (trace (logged w (Sleep seconds))) = commands_sent (trace w).
Proof.
  unfold commands_sent, logged; cbn [trace]. rewrite flat_map_app. cbn. now rewrite app_nil_r.
Qed.

Lemma commands_sent_advanced (w : world) (d : device) (a : access) :
  commands_sent (trace (advanced w d a)) = commands_sent (trace w) ++ [(d, a)].
Proof.
  unfold commands_sent, advanced; cbn [trace]. now rewrite flat_map_app.
Qed.

Lemma logged_all_prints (lines : list console) (w : world) :
  commands_sent (trace (logged_all w (map Print lines))) = commands_sent (trace w)
  /\ accesses (logged_all w (map Print lines)) = accesses w.
Proof.
  revert w. induction lines as [|l ls IH]; intros w; cbn [map logged_all]; [now split|].
  destruct (IH (logged w (Print l))) as [-> ->]. now rewrite commands_sent_logged.
Qed.

Ltac tidy_commands :=
  repeat (rewrite commands_sent_logged || rewrite commands_sent_slept
          || rewrite commands_sent_advanced);
  rewrite <- ?app_assoc; cbn [app].

Ltac stopped k ms :=
  eexists _, _, k, ms; split; [reflexivity|];
  split; [tidy_commands; reflexivity | split; [reflexivity | try lia; try discriminate]].

(** Whatever fails, the accesses of [run_test] are the first [k] of its
    script, for some [k]. *)
Lemma run_test_follows_script (d d' : device) (voltage : float) (label : pystr)
    (nplc : pynum) (sample_count : Z) (w : world) :
  exists r w' k ms,
    run_test (Some d) (Some d') voltage label nplc sample_count w = Some (r, w') /\
    commands_sent (trace w') =
      commands_sent (trace w) ++ firstn k (run_script d d' voltage nplc sample_count ms) /\
    accesses w' = (k + accesses w)%nat /\
    (k <= 11)%nat.
Proof.
  unfold run_test, run_script.
  rewrite bind_write. destruct (replies w (accesses w)); [|stopped 1%nat 0].
  rewrite bind_write; cbn [advanced replies accesses].
  destruct (replies w (S (accesses w))); [|stopped 2%nat 0].
  rewrite bind_write; cbn [advanced replies accesses].
  destruct (replies w (S (S (accesses w)))); [|stopped 3%nat 0].
  rewrite bind_print. unfold try_except, measure.
  destruct (timeout_ms sample_count nplc) as [ms|e];
    [rewrite bind_lift_ok | rewrite bind_lift_raise, bind_print; unfold ret; stopped 3%nat 0].
  rewrite bind_set_timeout; cbn [logged advanced replies accesses].
  destruct (replies w (S (S (S (accesses w)))));
    [|rewrite bind_print; unfold ret; stopped 4%nat ms].
  rewrite bind_write; cbn [logged advanced replies accesses].
  destruct (replies w (S (S (S (S (accesses w))))));
    [|rewrite bind_print; unfold ret; stopped 5%nat ms].
  rewrite bind_write; cbn [logged advanced replies accesses].
  destruct (replies w (S (S (S (S (S (accesses w)))))));
    [|rewrite bind_print; unfold ret; stopped 6%nat ms].
  rewrite bind_write; cbn [logged advanced replies accesses].
  destruct (replies w (S (S (S (S (S (S (accesses w))))))));
    [|rewrite bind_print; unfold ret; stopped 7%nat ms].
  rewrite bind_write; cbn [logged advanced replies accesses].
  destruct (replies w (S (S (S (S (S (S (S (accesses w)))))))));
    [|rewrite bind_print; unfold ret; stopped 8%nat ms].
  rewrite bind_write; cbn [logged advanced replies accesses].
  destruct (replies w (S (S (S (S (S (S (S (S (accesses w))))))))));
    [|rewrite bind_print; unfold ret; stopped 9%nat ms].
  rewrite bind_write; cbn [logged advanced replies accesses].
  destruct (replies w (S (S (S (S (S (S (S (S (S (accesses w)))))))))));
    [|rewrite bind_print; unfold ret; stopped 10%nat ms].
  rewrite bind_print.
  destruct (settle_seconds sample_count) as [secs|e];
    [rewrite bind_lift_ok | rewrite bind_lift_raise, bind_print; unfold ret; stopped 10%nat ms].
  match goal with
  | |- context [bind (sleep secs) ?k ?w0] =>
      unfold bind at 1; destruct (sleep_cases secs w0) as [-> | [e ->]];
      [|rewrite bind_print; unfold ret; stopped 10%nat ms]
  end.
  rewrite bind_query; cbn [logged advanced replies accesses].
  destruct (replies w (S (S (S (S (S (S (S (S (S (S (accesses w))))))))))))
    as [raw|]; [|rewrite bind_print; unfold ret; stopped 11%nat ms].
  destruct (Parser.parse_payload raw) as [rs ws].
  rewrite bind_print_all. unfold ret.
  eexists _, _, 11%nat, ms. split; [reflexivity|].
  match goal with
  | |- context [logged_all ?w0 (map Print ?ls)] =>
      destruct (logged_all_prints ls w0) as [-> ->]
  end.
  split; [tidy_commands; reflexivity | split; [reflexivity | lia]].
Qed.

(** A result comes back only when the power supply took its three writes;
    it then carries the label and the voltage of the request. *)
Lemma run_test_ok_inv (psu dmm : handle) (voltage : float) (label : pystr)
    (nplc : pynum) (sample_count : Z) (w w' : world) (res : acquisition) :
  run_test psu dmm voltage label nplc sample_count w = Some (Ok res, w') ->
  exists d,
    psu = Some d /\ (forall k, (k < 3)%nat -> upcoming w k <> Failure) /\
    Bench.label res = label /\ Bench.voltage res = voltage.
Proof.
  intros H. destruct psu as [d|]; [|unfold run_test in H; rewrite bind_write_none in H;
                                    discriminate].
  exists d. split; [reflexivity|].
  assert (Hans : forall k, (k < 3)%nat -> upcoming w k <> Failure).
  { intros k Hk Hf.
    destruct (run_test_power_supply_failure d dmm voltage label nplc sample_count w)
      as [w1 Hw1]; [now exists k|]. congruence. }
  split; [exact Hans|].
  destruct (run_test_returns d dmm voltage label nplc sample_count w Hans)
    as (res' & w1 & Hrun & Hl & Hv & _).
  rewrite H in Hrun. inversion Hrun; subst. now split.
Qed.

(** Readings in a result are always the parsed reply to the fetch, after
    eleven answered accesses. *)
Lemma readings_come_from_fetch (psu dmm : handle) (voltage : float) (label : pystr)
    (nplc : pynum) (sample_count : Z) (w w' : world) (res : acquisition) :
  run_test psu dmm voltage label nplc sample_count w = Some (Ok res, w') ->
  readings res <> [] ->
  exists raw,
    upcoming w 10 = Answer raw /\
    readings res = Parser.parse_readings raw /\
    psu <> None /\ dmm <> None /\
    (forall k, (k < 10)%nat -> upcoming w k <> Failure).
Proof.
  intros H Hne.
  destruct (run_test_ok_inv _ _ _ _ _ _ _ _ _ H) as (d & -> & Hans & _ & _).
  rewrite (run_test_programmed d dmm voltage label nplc sample_count w Hans) in H.
  unfold try_except in H.
  destruct (measure dmm voltage label nplc sample_count (programmed w d voltage label))
    as [[[res'|e] w1]|] eqn:Hm; [| |discriminate].
  - inversion H; subst.
    destruct (measure_ok _ _ _ _ _ _ _ _ Hm) as (raw & Hd & Hk & Hraw & -> & _).
    exists raw. rewrite upcoming_programmed in Hraw. cbn [Nat.add] in Hraw.
    repeat split; auto; [discriminate|].
    intros k Hk10. destruct (Nat.lt_ge_cases k 3) as [Hlt|Hge]; [now apply Hans|].
    specialize (Hk (k - 3)%nat ltac:(lia)). rewrite upcoming_programmed in Hk.
    now replace (3 + (k - 3))%nat with k in Hk by lia.
  - rewrite bind_print in H. unfold ret in H. inversion H; subst. now contradiction Hne.
Qed.

Lemma returns_run_test (psu dmm : handle) (voltage : float) (label : pystr)
    (nplc : pynum) (sample_count : Z) :
  returns (run_test psu dmm voltage label nplc sample_count)
          (fun res => Bench.label res = label /\ Bench.voltage res = voltage).
Proof.
  intros w res w' H. now destruct (run_test_ok_inv _ _ _ _ _ _ _ _ _ H) as (d & _ & _ & Hl & Hv).
Qed.

Lemma first_three_decided (w : world) :
  (forall k, (k < 3)%nat -> upcoming w k <> Failure) \/
  (exists k, (k < 3)%nat /\ upcoming w k = Failure).
Proof.
  destruct (upcoming w 0) eqn:E0; [|right; exists 0%nat; split; [lia|exact E0]].
  destruct (upcoming w 1) eqn:E1; [|right; exists 1%nat; split; [lia|exact E1]].
  destruct (upcoming w 2) eqn:E2; [|right; exists 2%nat; split; [lia|exact E2]].
  left. intros k Hk. assert (Hc : (k = 0 \/ k = 1 \/ k = 2)%nat) by lia.
  destruct Hc as [->|[->| ->]]; congruence.
Qed.

Lemma lets_out_write_connected (d : device) (c : scpi) (P : exn -> Prop) :
  P VisaIOError -> lets_out (write (Some d) c) P.
Proof.
  intros Hv w e w' H. cbv [write bind instr ret] in H.
  destruct (replies w (accesses w)); [discriminate|]. now inversion H; subst.
Qed.

(** With a power-supply handle, [run_test] lets out VisaIOError only. *)
Lemma lets_out_run_test_connected (d : device) (dmm : handle) (voltage : float)
    (label : pystr) (nplc : pynum) (sample_count : Z) (P : exn -> Prop) :
  P VisaIOError -> lets_out (run_test (Some d) dmm voltage label nplc sample_count) P.
Proof.
  intros Hv w e w' H.
  destruct (first_three_decided w) as [Hans|Hfail].
  - destruct (run_test_returns d dmm voltage label nplc sample_count w Hans)
      as (res & w1 & Hrun & _). congruence.
  - destruct (run_test_power_supply_failure d dmm voltage label nplc sample_count w Hfail)
      as [w1 Hw1]. rewrite Hw1 in H. now inversion H; subst.
Qed.

(** A detector call with [min_gap >= 1] lets nothing out. *)
Lemma lets_out_detect_positive (fuel : nat) (rs : list float) (label : pystr)
    (threshold : float) (min_gap : Z) (P : exn -> Prop) :
  1 <= min_gap -> lets_out (call_detect_beep fuel rs label threshold min_gap) P.
Proof.
  intros Hg w e w'. unfold call_detect_beep, Detector.detect_beep.
  destruct (Detector.scan_loop fuel _ min_gap Detector.scan_init)
    as [[spikes|e0]|] eqn:E; [| |discriminate].
  - destruct (pystr_eqb label (str "Double Beep"));
      [|destruct (pystr_eqb label (str "Triple Beep"))];
      rewrite print_all_logged; discriminate.
  - now contradiction (PulseFacts.positive_gap_never_raises _ _ _ _ Hg E).
Qed.

(** The sequencer lets out nothing but a VisaIOError of the power supply or
    the OverflowError of a mean over more readings than a float can count. *)
Lemma sequence_lets_out (fuel : nat) (psu dmm : handle) (v_main v_double v_triple : float) :
  lets_out (run_beep_sequence fuel psu dmm v_main v_double v_triple)
           (fun e => e = VisaIOError \/ e = OverflowError).
Proof.
  unfold run_beep_sequence. destruct psu as [d|].
  2:{ apply lets_out_bind; [apply lets_out_log | intros; apply lets_out_ret]. }
  apply lets_out_bind; [apply lets_out_write_connected; auto|]. intros _.
  apply lets_out_bind; [apply lets_out_run_test_connected; auto|]. intros result_main.
  destruct (readings result_main) as [|x t] eqn:Er.
  - apply lets_out_bind; [apply lets_out_lift; discriminate|]. intros _.
    cbn [is_nil]. apply lets_out_bind; [apply lets_out_log | intros; apply lets_out_ret].
  - apply lets_out_bind; [apply lets_out_lift; cbn [py_max]; discriminate|]. intros _.
    cbn [is_nil].
    apply lets_out_bind; [apply lets_out_log|]. intros _.
    apply lets_out_bind; [apply lets_out_lift; discriminate|]. intros lo.
    apply lets_out_bind; [apply lets_out_lift; discriminate|]. intros hi.
    apply lets_out_bind.
    { apply lets_out_lift. intros e He. right.
      apply (py_mean_raises (x :: t) e); [discriminate | exact He]. }
    intros avg.
    apply lets_out_bind; [apply lets_out_log|]. intros _.
    apply lets_out_bind; [apply lets_out_run_test_connected; auto|]. intros result_double.
    apply lets_out_bind;
      [apply lets_out_detect_positive; unfold Detector.default_min_gap; lia|].
    intros double_detected.
    apply lets_out_bind; [apply lets_out_run_test_connected; auto|]. intros result_triple.
    apply lets_out_bind; [apply lets_out_detect_positive; lia|]. intros triple_detected.
    apply lets_out_bind; [apply lets_out_log | intros; apply lets_out_ret].
Qed.

Lemma leaves_print_return (line : console) (Q : pyval -> world -> Prop) :
  (forall w, Q PyNone (logged w (Print line))) ->
  leaves (bind (print line) (fun _ => ret PyNone)) Q.
Proof.
  intros HQ w a w' H. rewrite bind_print in H. unfold ret in H. inversion H; subst. apply HQ.
Qed.

Lemma sequence_leaves (fuel : nat) (psu dmm : handle) (v_main v_double v_triple : float) :
  leaves (run_beep_sequence fuel psu dmm v_main v_double v_triple)
         (sequence_outcome v_main v_double v_triple).
Proof.
  unfold run_beep_sequence. destruct psu as [d|].
  2:{ apply leaves_print_return. intros w. split; [reflexivity|]. left. now exists (trace w). }
  apply (leaves_bind _ _ (fun _ => True)); [apply returns_any|]. intros _ _.
  eapply leaves_bind; [apply returns_run_test|]. intros result_main [Hl Hv]. cbv zeta.
  apply (leaves_bind _ _ (fun _ => True)); [apply returns_any|]. intros _ _.
  destruct (readings result_main) as [|x t] eqn:Er; cbn [is_nil].
  - apply leaves_print_return. intros w. split; [reflexivity|]. right. left.
    now exists (trace w).
  - apply (leaves_bind _ _ (fun _ => True)); [apply returns_any|]. intros _ _.
    apply (leaves_bind _ _ (fun _ => True)); [apply returns_any|]. intros lo _.
    apply (leaves_bind _ _ (fun _ => True)); [apply returns_any|]. intros hi _.
    apply (leaves_bind _ _ (fun _ => True)); [apply returns_any|]. intros avg _.
    apply (leaves_bind _ _ (fun _ => True)); [apply returns_any|]. intros _ _.
    eapply leaves_bind; [apply returns_run_test|]. intros result_double [Hld Hvd].
    apply (leaves_bind _ _ (fun _ => True)); [apply returns_any|]. intros double_detected _.
    eapply leaves_bind; [apply returns_run_test|]. intros result_triple [Hlt Hvt].
    apply (leaves_bind _ _ (fun _ => True)); [apply returns_any|]. intros triple_detected _.
    intros w a w' H. cbv [bind plot_results log ret] in H. inversion H; subst.
    split; [reflexivity|]. right. right.
    exists result_main, result_double, result_triple. cbn [trace].
    split; [now exists (trace w)|]. rewrite Er. repeat split; auto. discriminate.
Qed.

(** Without a multimeter handle the sequencer still switches the supply on
    at the main voltage before it gives up. *)
Lemma sequence_without_multimeter (fuel : nat) (d : device)
    (v_main v_double v_triple : float) (w : world) :
  (forall k, (k < 4)%nat -> upcoming w k <> Failure) ->
  run_beep_sequence fuel (Some d) None v_main v_double v_triple w =
    Some (Ok PyNone,
          mkWorld (replies w) (4 + accesses w)
            (trace w ++ [Instr d (Write OUTP_ON);
                         Instr d (Write INST_CH1);
                         Instr d (Write (VOLT v_main));
                         Instr d (Write OUTP_ON);
                         Print (Running (str "Main Test") v_main);
                         Print (MeasurementError AttributeError);
                         Print NoReadings])).
Proof.
  intros Hans. unfold upcoming in Hans.
  pose proof (Hans 0%nat ltac:(lia)) as H0. pose proof (Hans 1%nat ltac:(lia)) as H1.
  pose proof (Hans 2%nat ltac:(lia)) as H2. pose proof (Hans 3%nat ltac:(lia)) as H3.
  cbn [Nat.add] in *. clear Hans.
  unfold run_beep_sequence.
  rewrite bind_write. destruct (replies w (accesses w)); [|congruence].
  unfold bind at 1. unfold run_test.
  rewrite bind_write; cbn [advanced replies accesses].
  destruct (replies w (S (accesses w))); [|congruence].
  rewrite bind_write; cbn [advanced replies accesses].
  destruct (replies w (S (S (accesses w)))); [|congruence].
  rewrite bind_write; cbn [advanced replies accesses].
  destruct (replies w (S (S (S (accesses w))))); [|congruence].
  rewrite bind_print. unfold try_except, measure.
  change (timeout_ms default_sample_count default_nplc) with (Ok (A := Z) 20000).
  rewrite bind_lift_ok, bind_set_timeout, bind_print. unfold ret.
  cbn [readings is_nil lift bind ret]. rewrite bind_print. unfold ret.
  unfold logged, advanced; cbn [replies accesses trace Nat.add].
  rewrite <- !app_assoc. reflexivity.
Qed.

End BenchMoreFacts.

(** ** Exceptions come before the plot *)

Module PlotFacts.
Import PyNum Bench Scripts BenchFacts.

Lemma unplotted_refl (w : world) : unplotted w w.
Proof. exists []. rewrite app_nil_r. split; [reflexivity | constructor]. Qed.

Lemma unplotted_trans (w w1 w2 : world) :
  unplotted w w1 -> unplotted w1 w2 -> unplotted w w2.
Proof.
  intros (new1 & H1 & F1) (new2 & H2 & F2). exists (new1 ++ new2).
  split; [now rewrite H2, H1, app_assoc | now apply Forall_app].
Qed.

Lemma plots_nothing_ret {A : Type} (a : A) : plots_nothing (ret a).
Proof. intros w r w' H. inversion H; subst. apply unplotted_refl. Qed.

Lemma plots_nothing_raise {A : Type} (e : exn) : plots_nothing (@raise A e).
Proof. intros w r w' H. inversion H; subst. apply unplotted_refl. Qed.

Lemma plots_nothing_lift {A : Type} (r : result A) : plots_nothing (lift r).
Proof. destruct r; [apply plots_nothing_ret | apply plots_nothing_raise]. Qed.

Lemma plots_nothing_log (ev : event) : is_plot ev = false -> plots_nothing (log ev).
Proof.
  intros Hev w r w' H. inversion H; subst. exists [ev]. cbn [trace].
  split; [reflexivity | now constructor].
Qed.

Lemma plots_nothing_bind {A B : Type} (m : M A) (k : A -> M B) :
  plots_nothing m -> (forall a, plots_nothing (k a)) -> plots_nothing (bind m k).
Proof.
  intros Hm Hk w r w'. unfold bind.
  destruct (m w) as [[[a|e] w1]|] eqn:E; [| |discriminate].
  - intros H. exact (unplotted_trans _ _ _ (Hm _ _ _ E) (Hk a _ _ _ H)).
  - intros H. inversion H; subst. exact (Hm _ _ _ E).
Qed.

Lemma plots_nothing_try_except {A : Type} (body : M A) (handler : exn -> M A) :
  plots_nothing body -> (forall e, plots_nothing (handler e)) ->
  plots_nothing (try_except body handler).
Proof.
  intros Hb Hh w r w'. unfold try_except.
  destruct (body w) as [[[a|e] w1]|] eqn:E; [| |discriminate].
  - intros H. inversion H; subst. exact (Hb _ _ _ E).
  - intros H. exact (unplotted_trans _ _ _ (Hb _ _ _ E) (Hh e _ _ _ H)).
Qed.

Lemma plots_nothing_instr (h : handle) (a : access) : plots_nothing (instr h a).
Proof.
  intros w r w'. unfold instr. destruct h as [d|].
  - destruct (replies w (accesses w)); intros H; inversion H; subst;
      (exists [Instr d a]; cbn [trace]; split; [reflexivity | now constructor]).
  - intros H. inversion H; subst. apply unplotted_refl.
Qed.

Lemma plots_nothing_write (h : handle) (c : scpi) : plots_nothing (write h c).
Proof.
  apply plots_nothing_bind; [apply plots_nothing_instr | intros; apply plots_nothing_ret].
Qed.

Lemma plots_nothing_set_timeout (h : handle) (ms : Z) : plots_nothing (set_timeout h ms).
Proof.
  apply plots_nothing_bind; [apply plots_nothing_instr | intros; apply plots_nothing_ret].
Qed.

Lemma plots_nothing_sleep (seconds : float) : plots_nothing (sleep seconds).
Proof.
  unfold sleep. destruct (PrimFloat.is_nan seconds); [apply plots_nothing_raise|].
  destruct (_ || _); [apply plots_nothing_raise|].
  destruct (PrimFloat.ltb seconds 0); [apply plots_nothing_raise|].
  now apply plots_nothing_log.
Qed.

Lemma plots_nothing_print_all (lines : list console) : plots_nothing (print_all lines).
Proof.
  induction lines as [|line rest IH]; cbn [print_all]; [apply plots_nothing_ret|].
  apply plots_nothing_bind; [now apply plots_nothing_log | intros; exact IH].
Qed.

Lemma plots_nothing_measure (dmm : handle) (voltage : float) (label : pystr)
    (nplc : pynum) (sample_count : Z) :
  plots_nothing (measure dmm voltage label nplc sample_count).
Proof.
  unfold measure.
  apply plots_nothing_bind; [apply plots_nothing_lift|]. intros ms.
  apply plots_nothing_bind; [apply plots_nothing_set_timeout|]. intros _.
  do 6 (apply plots_nothing_bind; [apply plots_nothing_write|]; intros _).
  apply plots_nothing_bind; [now apply plots_nothing_log|]. intros _.
  apply plots_nothing_bind; [apply plots_nothing_lift|]. intros seconds.
  apply plots_nothing_bind; [apply plots_nothing_sleep|]. intros _.
  apply plots_nothing_bind; [apply plots_nothing_instr|]. intros raw_data.
  destruct (Parser.parse_payload raw_data) as [readings warnings].
  apply plots_nothing_bind; [apply plots_nothing_print_all | intros; apply plots_nothing_ret].
Qed.

Lemma plots_nothing_run_test (psu dmm : handle) (voltage : float) (label : pystr)
    (nplc : pynum) (sample_count : Z) :
  plots_nothing (run_test psu dmm voltage label nplc sample_count).
Proof.
  unfold run_test.
  do 3 (apply plots_nothing_bind; [apply plots_nothing_write|]; intros _).
  apply plots_nothing_bind; [now apply plots_nothing_log|]. intros _.
  apply plots_nothing_try_except; [apply plots_nothing_measure|]. intros e.
  apply plots_nothing_bind; [now apply plots_nothing_log | intros; apply plots_nothing_ret].
Qed.

Lemma plots_nothing_detect (fuel : nat) (rs : list float) (label : pystr)
    (threshold : float) (min_gap : Z) :
  plots_nothing (call_detect_beep fuel rs label threshold min_gap).
Proof.
  intros w r w'. unfold call_detect_beep.
  destruct (Detector.detect_beep fuel rs label threshold min_gap)
    as [[[lines v]|e]|]; [| |discriminate].
  - destruct (print_all (map Detection lines) w) as [[r1 w1]|] eqn:E; [|discriminate].
    intros H. inversion H; subst. exact (plots_nothing_print_all _ _ _ _ E).
  - intros H. inversion H; subst. apply unplotted_refl.
Qed.

Lemma raised_well_later (plot : list acquisition -> M unit) (w w1 w' : world) (e : exn) :
  unplotted w w1 -> raised_well plot w1 e w' -> raised_well plot w e w'.
Proof.
  intros H [[He Hu]|(w2 & results & Hu & Hp)].
  - left. split; [exact He | exact (unplotted_trans _ _ _ H Hu)].
  - right. exists w2, results. split; [exact (unplotted_trans _ _ _ H Hu) | exact Hp].
Qed.

Lemma raises_well_bind {A B : Type} (plot : list acquisition -> M unit)
    (m : M A) (k : A -> M B) :
  plots_nothing m -> lets_out m (fun e => e = VisaIOError \/ e = OverflowError) ->
  (forall a, raises_well plot (k a)) -> raises_well plot (bind m k).
Proof.
  intros Hm Hout Hk w e w'. unfold bind.
  destruct (m w) as [[[a|e0] w1]|] eqn:E; [| |discriminate].
  - intros H. exact (raised_well_later plot _ _ _ _ (Hm _ _ _ E) (Hk a _ _ _ H)).
  - intros H. inversion H; subst. left. split; [exact (Hout _ _ _ E) | exact (Hm _ _ _ E)].
Qed.

Lemma raises_well_quiet {A : Type} (plot : list acquisition -> M unit) (m : M A) :
  plots_nothing m -> lets_out m (fun e => e = VisaIOError \/ e = OverflowError) ->
  raises_well plot m.
Proof. intros Hm Hout w e w' H. left. split; [exact (Hout _ _ _ H) | exact (Hm _ _ _ H)]. Qed.

(** The last two lines of the sequencer: what they raise, the plot raises. *)
Lemma raises_well_plot (plot : list acquisition -> M unit) (results : list acquisition)
    (v : pyval) :
  raises_well plot (bind (plot results) (fun _ => ret v)).
Proof.
  intros w e w'. unfold bind.
  destruct (plot results w) as [[[[]|e0] w1]|] eqn:E; [discriminate| |discriminate].
  intros H. inversion H; subst. right. exists w, results.
  split; [apply unplotted_refl | exact E].
Qed.

(** A line printed and [None] returned. *)
Lemma raises_well_refusal (plot : list acquisition -> M unit) (line : console) :
  raises_well plot (bind (print line) (fun _ => ret PyNone)).
Proof.
  apply raises_well_quiet.
  - apply plots_nothing_bind; [now apply plots_nothing_log | intros; apply plots_nothing_ret].
  - apply lets_out_bind; [apply lets_out_log | intros; apply lets_out_ret].
Qed.

(** Whatever the plot does, an exception of the sequencer is raised before
    the plot, and is then one of two, or is raised by the plot. *)
Lemma sequence_raises_well (plot : list acquisition -> M unit) (fuel : nat)
    (psu dmm : handle) (v_main v_double v_triple : float) :
  raises_well plot (sequence_with plot fuel psu dmm v_main v_double v_triple).
Proof.
  unfold sequence_with. destruct psu as [d|]; [|apply raises_well_refusal].
  apply raises_well_bind;
    [apply plots_nothing_write | apply BenchMoreFacts.lets_out_write_connected; auto|].
  intros _.
  apply raises_well_bind;
    [apply plots_nothing_run_test
    |apply BenchMoreFacts.lets_out_run_test_connected; auto|].
  intros result_main.
  destruct (readings result_main) as [|x t] eqn:Er.
  - apply raises_well_bind;
      [apply plots_nothing_lift | apply lets_out_lift; discriminate|].
    intros _. cbn [is_nil]. apply raises_well_refusal.
  - apply raises_well_bind;
      [apply plots_nothing_lift | apply lets_out_lift; cbn [py_max]; discriminate|].
    intros _. cbn [is_nil].
    apply raises_well_bind; [now apply plots_nothing_log | apply lets_out_log|]. intros _.
    apply raises_well_bind;
      [apply plots_nothing_lift | apply lets_out_lift; discriminate|].
    intros lo.
    apply raises_well_bind;
      [apply plots_nothing_lift | apply lets_out_lift; discriminate|].
    intros hi.
    apply raises_well_bind; [apply plots_nothing_lift| |].
    { apply lets_out_lift. intros e He. right.
      apply (py_mean_raises (x :: t) e); [discriminate | exact He]. }
    intros avg.
    apply raises_well_bind; [now apply plots_nothing_log | apply lets_out_log|]. intros _.
    apply raises_well_bind;
      [apply plots_nothing_run_test
      |apply BenchMoreFacts.lets_out_run_test_connected; auto|].
    intros result_double.
    apply raises_well_bind;
      [apply plots_nothing_detect
      |apply BenchMoreFacts.lets_out_detect_positive; unfold Detector.default_min_gap; lia|].
    intros double_detected.
    apply raises_well_bind;
      [apply plots_nothing_run_test
      |apply BenchMoreFacts.lets_out_run_test_connected; auto|].
    intros result_triple.
    apply raises_well_bind;
      [apply plots_nothing_detect | apply BenchMoreFacts.lets_out_detect_positive; lia|].
    intros triple_detected.
    apply raises_well_plot.
Qed.

End PlotFacts.

(** ** What the verdicts of [detect_beep] mean *)

Module VerdictFacts.
Import Detector Pulses DetectorFacts PulseFacts.

Lemma over_active (readings : list float) (threshold : float) (i : Z) :
  over readings threshold i <-> active (above_threshold readings threshold) i.
Proof.
  unfold over, active, above_threshold. rewrite nth_error_map.
  split.
  - intros [Hi (x & Hx & Hlt)]. split; [exact Hi|]. rewrite Hx. cbn. now rewrite Hlt.
  - intros [Hi H]. split; [exact Hi|].
    destruct (nth_error readings (Z.to_nat i)) as [x|]; [|discriminate].
    exists x. split; [reflexivity|]. cbn in H. now inversion H.
Qed.

(** Whatever [min_gap] is, the indices left by a scan that ends are
    positions above the threshold. *)
Lemma finished_scan_active (above : list bool) (g : Z) (fuel : nat) (spikes : list Z) :
  scan_loop fuel above g scan_init = Some (Ok spikes) ->
  Forall (active above) spikes.
Proof.
  intros H. destruct (Z_le_gt_dec 1 g) as [Hg|Hg].
  - exact (recorded_are_active above g fuel spikes Hg H).
  - rewrite (held_back_finish above g ltac:(lia) fuel scan_init spikes); [constructor| |exact H].
    left. cbn. split; [reflexivity | lia].
Qed.

(** Whatever [min_gap] is, no spaced choice of positions above the
    threshold is longer than the list a finished scan leaves. *)
Lemma finished_scan_longest (above : list bool) (g : Z) (fuel : nat) (spikes : list Z)
    (l : list Z) :
  scan_loop fuel above g scan_init = Some (Ok spikes) ->
  selection above g l ->
  (List.length l <= List.length spikes)%nat.
Proof.
  intros H Hsel. destruct (Z_le_gt_dec 1 g) as [Hg|Hg].
  - apply (greedy_is_longest above g Hg fuel scan_init spikes ltac:(cbn; lia) H l Hsel).
    destruct Hsel as [_ Hact]. revert Hact. apply Forall_impl. intros x [Hx _]. exact Hx.
  - assert (Hnil : spikes = []).
    { apply (held_back_finish above g ltac:(lia) fuel scan_init spikes); [|exact H].
      left. cbn. split; [reflexivity | lia]. }
    subst spikes. destruct l as [|x l]; [cbn; lia|]. exfalso.
    destruct Hsel as [_ Hact]. apply Forall_inv in Hact. destruct Hact as [Hx Hact].
    exact (nothing_recorded_nothing_active above g fuel H _ Hact).
Qed.

Lemma detect_value_double (fuel : nat) (readings : list float) (threshold : float)
    (g : Z) (spikes : list Z) :
  scan_loop fuel (above_threshold readings threshold) g scan_init = Some (Ok spikes) ->
  detect_value fuel readings (str "Double Beep") threshold g
  = Some (Ok (PyBool (2 <=? List.length spikes)%nat)).
Proof. intros H. unfold detect_value, detect_beep. rewrite H. reflexivity. Qed.

Lemma detect_value_triple (fuel : nat) (readings : list float) (threshold : float)
    (g : Z) (spikes : list Z) :
  scan_loop fuel (above_threshold readings threshold) g scan_init = Some (Ok spikes) ->
  detect_value fuel readings (str "Triple Beep") threshold g
  = Some (Ok (PyBool (3 <=? List.length spikes)%nat)).
Proof. intros H. unfold detect_value, detect_beep. rewrite H. reflexivity. Qed.

Lemma detect_value_scan (fuel : nat) (readings : list float) (label : pystr)
    (threshold : float) (g : Z) (v : pyval) :
  detect_value fuel readings label threshold g = Some (Ok v) ->
  exists spikes,
    scan_loop fuel (above_threshold readings threshold) g scan_init = Some (Ok spikes).
Proof.
  unfold detect_value, detect_beep.
  destruct (scan_loop fuel _ g scan_init) as [[spikes|e]|]; [|discriminate|discriminate].
  intros _. now exists spikes.
Qed.

(** Two recorded indices: two positions above the threshold, [g] apart. *)
Lemma two_recorded (above : list bool) (g : Z) (spikes : list Z) :
  spaced g spikes -> Forall (active above) spikes ->
  (2 <= List.length spikes)%nat ->
  exists i j, active above i /\ active above j /\ i + g <= j.
Proof.
  intros Hsp Hact Hlen.
  destruct spikes as [|i [|j rest]]; cbn in Hlen; try lia.
  exists i, j. destruct Hsp as [Hij _].
  pose proof (Forall_inv Hact) as Hi.
  pose proof (Forall_inv (Forall_inv_tail Hact)) as Hj.
  split; [exact Hi | split; [exact Hj | exact Hij]].
Qed.

Lemma three_recorded (above : list bool) (g : Z) (spikes : list Z) :
  spaced g spikes -> Forall (active above) spikes ->
  (3 <= List.length spikes)%nat ->
  exists i j k, active above i /\ active above j /\ active above k /\
                i + g <= j /\ j + g <= k.
Proof.
  intros Hsp Hact Hlen.
  destruct spikes as [|i [|j [|k rest]]]; cbn in Hlen; try lia.
  exists i, j, k. destruct Hsp as [Hij [Hjk _]].
  pose proof (Forall_inv Hact) as Hi.
  pose proof (Forall_inv (Forall_inv_tail Hact)) as Hj.
  pose proof (Forall_inv (Forall_inv_tail (Forall_inv_tail Hact))) as Hk.
  split; [exact Hi | split; [exact Hj | split; [exact Hk | split; [exact Hij | exact Hjk]]]].
Qed.

End VerdictFacts.

(** ** The sequencer always ends *)

Module SettleFacts.
Import PyNum Bench Scripts BenchFacts.

Lemma total_ret {A : Type} (a : A) : total (ret a).
Proof. intros w. now eexists _, _. Qed.

Lemma total_log (ev : event) : total (log ev).
Proof. intros w. now eexists _, _. Qed.

Lemma total_lift {A : Type} (r : result A) : total (lift r).
Proof. intros w. destruct r; now eexists _, _. Qed.

Lemma total_write (h : handle) (c : scpi) : total (write h c).
Proof.
  intros w. unfold write, bind, instr. destruct h as [d|]; [|now eexists _, _].
  destruct (replies w (accesses w)); now eexists _, _.
Qed.

Lemma total_run_test (psu dmm : handle) (voltage : float) (label : pystr)
    (nplc : pynum) (sample_count : Z) :
  total (run_test psu dmm voltage label nplc sample_count).
Proof. intros w. apply run_test_total. Qed.

Lemma settles_total {A : Type} (m : M A) : total m -> settles (fun _ => m).
Proof.
  intros Hm w. destruct (Hm w) as (r & w' & H). exists 0%nat, r, w'. now intros.
Qed.

Lemma settles_bind {A B : Type} (m : nat -> M A) (k : nat -> A -> M B) :
  settles m -> (forall a, settles (fun fuel => k fuel a)) ->
  settles (fun fuel => bind (m fuel) (k fuel)).
Proof.
  intros Hm Hk w. destruct (Hm w) as (f1 & r & w1 & H1).
  destruct r as [a|e].
  - destruct (Hk a w1) as (f2 & r2 & w2 & H2).
    exists (Nat.max f1 f2), r2, w2. intros fuel Hfuel.
    unfold bind. rewrite (H1 fuel) by lia. apply H2. lia.
  - exists f1, (Raise e), w1. intros fuel Hfuel. unfold bind. now rewrite (H1 fuel).
Qed.

Lemma settles_after {A B : Type} (m : M A) (k : nat -> A -> M B) :
  total m -> (forall a, settles (fun fuel => k fuel a)) ->
  settles (fun fuel => bind m (k fuel)).
Proof. intros Hm. apply (settles_bind (fun _ => m) k). now apply settles_total. Qed.

(** With a positive [min_gap] a detector call settles as soon as the fuel
    exceeds the number of readings. *)
Lemma settles_detect (rs : list float) (label : pystr) (threshold : float) (min_gap : Z) :
  1 <= min_gap ->
  settles (fun fuel => call_detect_beep fuel rs label threshold min_gap).
Proof.
  intros Hg w.
  destruct (DetectorFacts.scan_from_start_total
              (Detector.above_threshold rs threshold) min_gap Hg) as [spikes Hscan].
  exists (S (List.length (Detector.above_threshold rs threshold))).
  unfold call_detect_beep, Detector.detect_beep.
  destruct (pystr_eqb label (str "Double Beep")) eqn:Hd;
    [|destruct (pystr_eqb label (str "Triple Beep")) eqn:Ht].
  all: eexists _, _; intros fuel Hfuel; rewrite (Hscan fuel) by lia;
    rewrite ?Hd, ?Ht; cbv zeta; rewrite print_all_logged; reflexivity.
Qed.

Lemma sequence_settles (psu dmm : handle) (v_main v_double v_triple : float) :
  settles (fun fuel => run_beep_sequence fuel psu dmm v_main v_double v_triple).
Proof.
  unfold run_beep_sequence. destruct psu as [d|].
  2:{ apply settles_total. intros w. now eexists _, _. }
  apply settles_after; [apply total_write|]. intros _.
  apply settles_after; [apply total_run_test|]. intros result_main. cbv zeta.
  apply settles_after; [apply total_lift|]. intros _.
  destruct (is_nil (readings result_main)).
  { apply settles_total. intros w. now eexists _, _. }
  apply settles_after; [apply total_log|]. intros _.
  apply settles_after; [apply total_lift|]. intros lo.
  apply settles_after; [apply total_lift|]. intros hi.
  apply settles_after; [apply total_lift|]. intros avg.
  apply settles_after; [apply total_log|]. intros _.
  apply settles_after; [apply total_run_test|]. intros result_double.
  apply settles_bind; [apply settles_detect; unfold Detector.default_min_gap; lia|].
  intros double_detected.
  apply settles_after; [apply total_run_test|]. intros result_triple.
  apply settles_bind; [apply settles_detect; lia|]. intros triple_detected.
  apply settles_total. intros w. now eexists _, _.
Qed.

End SettleFacts.

(** ** Facts about the summary file *)

Module SummaryFacts.
Import PyNum Summary.











End SummaryFacts.

(** ** Facts about the session *)

Module SessionFacts.
Import PyNum Bench Session Journals.

Lemma touches_app (a b : list action) : touches (a ++ b) = touches a ++ touches b.
Proof. unfold touches. apply flat_map_app. Qed.

Lemma drivers_app (a b : list action) : drivers (a ++ b) = drivers a ++ drivers b.
Proof. unfold drivers. apply flat_map_app. Qed.

Lemma evolves_refl (s : lab) : evolves s s [].
Proof. unfold evolves. rewrite app_nil_r. repeat split; reflexivity. Qed.

Lemma evolves_trans (s s1 s2 : lab) (a b : list (device * operation)) :
  evolves s s1 a -> evolves s1 s2 b -> evolves s s2 (a ++ b).
Proof.
  intros (R1 & A1 & K1 & N1 & T1 & D1) (R2 & A2 & K2 & N2 & T2 & D2). unfold evolves.
  rewrite R2, A2, K2, N2, T2, D2, R1, A1, K1, N1, T1, D1, length_app, app_assoc.
  repeat split; lia.
Qed.

Ltac settle_journal :=
  unfold evolves; cbn [resources answers keyboard asked journal];
  repeat split; try reflexivity;
  unfold touches, drivers; rewrite ?flat_map_app; cbn [flat_map app];
  rewrite <- ?app_assoc; cbn [app]; rewrite ?app_nil_r; reflexivity.

Lemma evolves_noted (s : lab) (a : action) :
  match a with Touch _ _ | Driver _ => False | _ => True end ->
  evolves s (noted s a) [].
Proof. destruct a; intros H; try contradiction; unfold noted; settle_journal. Qed.

Lemma evolves_touched (s : lab) (d : device) (op : operation) :
  evolves s (touched s d op) [(d, op)].
Proof. unfold touched; settle_journal. Qed.

Lemma bind_record {A : Type} (a : action) (k : unit -> L A) (s : lab) :
  bind (record a) k s = k tt (noted s a).
Proof. reflexivity. Qed.

Lemma record_spec (a : action) (s : lab) : record a s = Some (Done tt, noted s a).
Proof. reflexivity. Qed.

Lemma bind_touch {A : Type} (d : device) (op : operation) (k : pystr -> L A) (s : lab) :
  bind (touch d op) k s =
    match answers s (asked s) with
    | Answer payload => k payload (touched s d op)
    | Failure => Some (Stop (Exception VisaIOError), touched s d op)
    end.
Proof. unfold bind, touch, touched. now destruct (answers s (asked s)). Qed.

Lemma attempt_touch {A : Type} (d : device) (op : operation) (k : pystr -> L A)
    (handler : signal -> L A) (s : lab) :
  attempt (bind (touch d op) k) handler s =
    match answers s (asked s) with
    | Answer payload => attempt (k payload) handler (touched s d op)
    | Failure => handler (Exception VisaIOError) (touched s d op)
    end.
Proof. unfold attempt, bind, touch, touched. now destruct (answers s (asked s)). Qed.

Lemma attempt_record {A : Type} (a : action) (k : unit -> L A)
    (handler : signal -> L A) (s : lab) :
  attempt (bind (record a) k) handler s = attempt (k tt) handler (noted s a).
Proof. reflexivity. Qed.

Lemma answers_touched (s : lab) (d : device) (op : operation) :
  answers (touched s d op) = answers s.
Proof. reflexivity. Qed.

Lemma answers_noted (s : lab) (a : action) : answers (noted s a) = answers s.
Proof. reflexivity. Qed.

Lemma asked_touched (s : lab) (d : device) (op : operation) :
  asked (touched s d op) = S (asked s).
Proof. reflexivity. Qed.

Lemma asked_noted (s : lab) (a : action) : asked (noted s a) = asked s.
Proof. reflexivity. Qed.

Lemma evolves_then_touched (s s1 : lab) (d : device) (op : operation)
    (ts : list (device * operation)) :
  evolves s s1 ts -> evolves s (touched s1 d op) (ts ++ [(d, op)]).
Proof. intros H. exact (evolves_trans _ _ _ _ _ H (evolves_touched s1 d op)). Qed.

Lemma evolves_then_noted (s s1 : lab) (a : action) (ts : list (device * operation)) :
  match a with Touch _ _ | Driver _ => False | _ => True end ->
  evolves s s1 ts -> evolves s (noted s1 a) ts.
Proof.
  intros Ha H. pose proof (evolves_trans _ _ _ _ _ H (evolves_noted s1 a Ha)) as H'.
  now rewrite app_nil_r in H'.
Qed.

(** The fields of a laboratory reached through accesses and notes. *)
Ltac lab_fields :=
  repeat (rewrite answers_touched || rewrite answers_noted
          || rewrite asked_touched || rewrite asked_noted).

(** A laboratory reached from [s] through accesses and notes has evolved
    by these accesses. *)
Ltac settle_chain :=
  cbn [fst snd firstn psu_script dmm_script voltage_script];
  repeat lazymatch goal with
         | |- evolves ?s ?s [] => apply evolves_refl
         | |- evolves ?s (touched ?x ?d ?op) ?l =>
             let ts := eval cbv [removelast] in (removelast l) in
             apply (evolves_then_touched s x d op ts)
         | |- evolves ?s (noted ?x ?a) ?l =>
             apply (evolves_then_noted s x a l); [exact I|]
         end.

(** The end of a branch of a chain of accesses: the laboratory reached is
    the one announced. *)
Ltac chain_ends :=
  cbv beta; rewrite ?bind_record; cbv beta; rewrite ?record_spec; unfold ret;
  eexists; (split; [reflexivity|]); settle_chain.

(** One access of a chain: the chain goes on when it is answered and ends
    when it fails. *)
Ltac chain_touch s :=
  first [rewrite bind_touch | rewrite attempt_touch];
  lab_fields;
  lazymatch goal with
  | |- context [match answers s ?k with _ => _ end] =>
      let E := fresh "E" in
      destruct (answers s k) eqn:E; [cbv beta|chain_ends]
  end.

Ltac chain_note :=
  first [rewrite bind_record | rewrite attempt_record]; cbv beta.

(** The multimeter paragraph always leaves a handle or [None], having made
    a prefix of its script. *)
Lemma connect_dmm_spec (available_resources : list pystr) (s : lab) :
  exists s',
    connect_dmm available_resources s
    = Some (Done (connected Multimeter (snd (dmm_reach available_resources s))), s')
    /\ evolves s s' (firstn (fst (dmm_reach available_resources s)) dmm_script).
Proof.
  unfold connect_dmm, dmm_reach.
  destruct (listed dmm_addr available_resources).
  2:{ eexists. split; [reflexivity|]. cbn [fst firstn]. settle_journal. }
  unfold say, pause. cbn [reach dmm_script].
  chain_touch s. chain_touch s. chain_note. chain_touch s. chain_note. chain_touch s.
  chain_ends.
Qed.

(** The lines both power-supply paragraphs share: they end with the first
    access that fails. *)
Lemma initialize_psu_spec (s : lab) :
  exists s',
    initialize_psu s
    = Some (if snd (reach (answers s) (asked s) 7) then Done tt
            else Stop (Exception VisaIOError), s')
    /\ evolves s s' (firstn (fst (reach (answers s) (asked s) 7)) psu_script).
Proof.
  unfold initialize_psu, say, pause. cbn [reach psu_script].
  chain_touch s. chain_touch s. chain_note. chain_touch s. chain_note.
  chain_touch s. chain_touch s. chain_touch s. chain_touch s.
  chain_ends.
Qed.

(** The same for the power-supply paragraph of current_code.py, from the
    laboratory it starts in. *)
Lemma connect_psu_spec (available_resources : list pystr) (s : lab) :
  exists s',
    connect_psu available_resources s
    = Some (Done (connected PowerSupply
                    (snd (if listed psu_addr available_resources
                          then reach (answers s) (asked s) 7 else (0%nat, false)))), s')
    /\ evolves s s'
         (firstn (fst (if listed psu_addr available_resources
                       then reach (answers s) (asked s) 7 else (0%nat, false)))
                 psu_script).
Proof.
  unfold connect_psu.
  destruct (listed psu_addr available_resources).
  2:{ eexists. split; [reflexivity|]. cbn [fst firstn]. settle_journal. }
  destruct (initialize_psu_spec s) as (s1 & Hinit & H1).
  unfold attempt, bind. rewrite Hinit.
  destruct (snd (reach (answers s) (asked s) 7)).
  - exists s1. split; [reflexivity | exact H1].
  - cbn [is_exception]. eexists. split; [reflexivity|].
    pose proof (evolves_trans _ _ _ _ _ H1
                  (evolves_noted s1 (Say (PsuFailed (Exception VisaIOError))) I)) as H.
    now rewrite app_nil_r in H.
Qed.

Lemma reach_le (a : nat -> reply) (len : nat) :
  forall start, (fst (reach a start len) <= len)%nat.
Proof.
  induction len as [|len IH]; intros start; cbn [reach fst]; [lia|].
  destruct (a start); cbn [fst]; [|lia].
  specialize (IH (S start)). destruct (reach a (S start) len) as [n ok]. cbn [fst] in *. lia.
Qed.

(** A run that is answered throughout makes all its accesses. *)
Lemma reach_all (a : nat -> reply) (len : nat) :
  forall start, snd (reach a start len) = true -> fst (reach a start len) = len.
Proof.
  induction len as [|len IH]; intros start; cbn [reach fst snd]; [reflexivity|].
  destruct (a start); cbn [fst snd]; [|discriminate].
  specialize (IH (S start)). destruct (reach a (S start) len) as [n ok]. cbn [fst snd] in *.
  intros H. now rewrite (IH H).
Qed.

(** A run is answered throughout exactly when none of its accesses fails. *)
Lemma reach_ok (a : nat -> reply) (len : nat) :
  forall start,
    snd (reach a start len) = true <->
    forall k, (k < len)%nat -> a (k + start)%nat <> Failure.
Proof.
  induction len as [|len IH]; intros start; cbn [reach snd].
  - split; [intros _ k Hk; lia | reflexivity].
  - destruct (a start) eqn:E; cbn [snd].
    + specialize (IH (S start)). destruct (reach a (S start) len) as [n ok]. cbn [snd] in *.
      rewrite IH. split.
      * intros H [|k] Hk; [cbn; now rewrite E|].
        replace (S k + start)%nat with (k + S start)%nat by lia. apply H. lia.
      * intros H k Hk. replace (k + S start)%nat with (S k + start)%nat by lia.
        apply H. lia.
    + split; [discriminate|]. intros H. exfalso. apply (H 0%nat); [lia | exact E].
Qed.

(** A run that stops early stops at the access that failed. *)
Lemma reach_stopped (a : nat -> reply) (len : nat) :
  forall start,
    snd (reach a start len) = false ->
    (1 <= fst (reach a start len))%nat /\
    a (fst (reach a start len) - 1 + start)%nat = Failure.
Proof.
  induction len as [|len IH]; intros start; cbn [reach fst snd]; [discriminate|].
  destruct (a start) eqn:E; cbn [fst snd].
  - specialize (IH (S start)). destruct (reach a (S start) len) as [n ok]. cbn [fst snd] in *.
    intros H. destruct (IH H) as [Hn Hfail]. split; [lia|].
    replace (S n - 1 + start)%nat with (n - 1 + S start)%nat by lia. exact Hfail.
  - intros _. split; [lia | exact E].
Qed.

Lemma length_firstn_reach (a : nat -> reply) (start : nat) {A : Type} (script : list A) :
  List.length (firstn (fst (reach a start (List.length script))) script)
  = fst (reach a start (List.length script)).
Proof. rewrite length_firstn. pose proof (reach_le a (List.length script) start). lia. Qed.

Lemma length_dmm_prefix (available_resources : list pystr) (s : lab) :
  List.length (firstn (fst (dmm_reach available_resources s)) dmm_script)
  = fst (dmm_reach available_resources s).
Proof.
  unfold dmm_reach. destruct (listed dmm_addr available_resources); [|reflexivity].
  exact (length_firstn_reach (answers s) (asked s) dmm_script).
Qed.

Lemma bind_list_resources {A : Type} (k : list pystr -> L A) (s : lab)
    (available_resources : list pystr) :
  resources s = Ok available_resources ->
  bind list_resources k s = k available_resources (noted s ListResources).
Proof.
  intros Hres. unfold bind, list_resources, noted.
  destruct (resources s) as [l|e] eqn:E; [|discriminate].
  inversion Hres; subst. reflexivity.
Qed.

Lemma bind_list_resources_raise {A : Type} (k : list pystr -> L A) (s : lab) (e : exn) :
  resources s = Raise e ->
  bind list_resources k s = Some (Stop (Exception e), noted s ListResources).
Proof.
  intros Hres. unfold bind, list_resources, noted.
  destruct (resources s) as [l|e'] eqn:E; [discriminate|].
  inversion Hres; subst. reflexivity.
Qed.

(** [setup_instruments] of current_code.py when the resources can be
    listed. *)
Lemma setup_instruments_spec (available_resources : list pystr) (s : lab) :
  resources s = Ok available_resources ->
  exists s',
    setup_instruments s
    = Some (Done (connected PowerSupply (snd (psu_reach available_resources s)),
                  connected Multimeter (snd (dmm_reach available_resources s))), s')
    /\ evolves s s'
         (firstn (fst (dmm_reach available_resources s)) dmm_script
          ++ firstn (fst (psu_reach available_resources s)) psu_script).
Proof.
  intros Hres. unfold setup_instruments.
  rewrite (bind_list_resources _ s available_resources Hres).
  unfold say. rewrite bind_record. cbv beta.
  set (s1 := noted (noted s ListResources) (Say (Available available_resources))).
  assert (H1 : evolves s s1 []).
  { apply (evolves_trans s (noted s ListResources) s1 [] []); now apply evolves_noted. }
  destruct (connect_dmm_spec available_resources s1) as (s2 & Hdmm & H2).
  unfold bind at 1. rewrite Hdmm. unfold pause. rewrite bind_record. cbv beta.
  assert (H3 : evolves s2 (noted s2 (Pause 0.5)) []) by now apply evolves_noted.
  destruct (connect_psu_spec available_resources (noted s2 (Pause 0.5))) as (s4 & Hpsu & H4).
  unfold bind at 1. rewrite Hpsu. unfold ret.
  assert (Hsame : dmm_reach available_resources s1 = dmm_reach available_resources s).
  { unfold dmm_reach. destruct H1 as (_ & -> & _ & -> & _). reflexivity. }
  rewrite Hsame in *.
  pose proof (evolves_trans _ _ _ _ _ (evolves_trans _ _ _ _ _ H1 H2) H3) as H13.
  rewrite app_nil_r in H13. cbn [app] in H13.
  assert (Hpsu_reach :
            (if listed psu_addr available_resources
             then reach (answers (noted s2 (Pause 0.5))) (asked (noted s2 (Pause 0.5))) 7
             else (0%nat, false))
            = psu_reach available_resources s).
  { unfold psu_reach. destruct H13 as (_ & -> & _ & -> & _).
    now rewrite length_dmm_prefix. }
  rewrite Hpsu_reach in *.
  eexists. split; [reflexivity|].
  exact (evolves_trans _ _ _ _ _ H13 H4).
Qed.

(** When the resources cannot be listed, [setup_instruments] raises at
    once. *)
Lemma setup_instruments_unlisted (e : exn) (s : lab) :
  resources s = Raise e ->
  setup_instruments s = Some (Stop (Exception e), noted s ListResources).
Proof.
  intros Hres. unfold setup_instruments. now apply bind_list_resources_raise.
Qed.

(** The power-supply paragraph of Current_module.py: as in current_code.py
    when the address is listed. *)
Lemma connect_psu_or_exit_listed (available_resources : list pystr) (s : lab) :
  listed psu_addr available_resources = true ->
  exists s',
    connect_psu_or_exit available_resources s
    = Some (Done (connected PowerSupply (snd (reach (answers s) (asked s) 7))), s')
    /\ evolves s s' (firstn (fst (reach (answers s) (asked s) 7)) psu_script).
Proof.
  intros Hl. unfold connect_psu_or_exit. rewrite Hl.
  destruct (initialize_psu_spec s) as (s1 & Hinit & H1).
  unfold attempt, bind. rewrite Hinit.
  destruct (snd (reach (answers s) (asked s) 7)).
  - eexists. split; [reflexivity|].
    pose proof (evolves_trans _ _ _ _ _ H1
                  (evolves_trans _ _ _ _ _
                     (evolves_noted s1 (Say PsuConnected) I)
                     (evolves_noted (noted s1 (Say PsuConnected)) (Say ContinueTest) I)))
      as H.
    now rewrite !app_nil_r in H.
  - cbn [is_exception]. eexists. split; [reflexivity|].
    pose proof (evolves_trans _ _ _ _ _ H1
                  (evolves_noted s1 (Say (PsuFailed (Exception VisaIOError))) I)) as H.
    now rewrite app_nil_r in H.
Qed.

Lemma connect_psu_or_exit_unlisted (available_resources : list pystr) (s : lab) :
  listed psu_addr available_resources = false ->
  exists s',
    connect_psu_or_exit available_resources s = Some (Stop SystemExit, s')
    /\ evolves s s' [].
Proof.
  intros Hl. unfold connect_psu_or_exit. rewrite Hl.
  eexists. split; [reflexivity|]. settle_journal.
Qed.

(** The first lines of both versions of [setup_instruments], up to the
    wait before the power-supply paragraph. *)
Lemma setup_prologue (available_resources : list pystr) (s : lab) :
  exists s2,
    (bind (say (Available available_resources))
       (fun _ => bind (connect_dmm available_resources)
                   (fun dmm => bind (pause 0.5) (fun _ => ret dmm))))
      (noted s ListResources)
    = Some (Done (connected Multimeter (snd (dmm_reach available_resources s))), s2)
    /\ evolves s s2 (firstn (fst (dmm_reach available_resources s)) dmm_script).
Proof.
  unfold say. rewrite bind_record. cbv beta.
  set (s1 := noted (noted s ListResources) (Say (Available available_resources))).
  assert (H1 : evolves s s1 []).
  { apply (evolves_trans s (noted s ListResources) s1 [] []); now apply evolves_noted. }
  destruct (connect_dmm_spec available_resources s1) as (s2 & Hdmm & H2).
  unfold bind at 1. rewrite Hdmm. unfold pause. rewrite bind_record. cbv beta.
  assert (H3 : evolves s2 (noted s2 (Pause 0.5)) []) by now apply evolves_noted.
  assert (Hsame : dmm_reach available_resources s1 = dmm_reach available_resources s).
  { unfold dmm_reach. destruct H1 as (_ & -> & _ & -> & _). reflexivity. }
  rewrite Hsame in *.
  pose proof (evolves_trans _ _ _ _ _ (evolves_trans _ _ _ _ _ H1 H2) H3) as H13.
  rewrite app_nil_r in H13. cbn [app] in H13.
  eexists. split; [reflexivity | exact H13].
Qed.

(** [setup_instruments] of Current_module.py when the address of the power
    supply is listed: as in current_code.py. *)
Lemma setup_instruments_or_exit_listed (available_resources : list pystr) (s : lab) :
  resources s = Ok available_resources ->
  listed psu_addr available_resources = true ->
  exists s',
    setup_instruments_or_exit s
    = Some (Done (connected PowerSupply (snd (psu_reach available_resources s)),
                  connected Multimeter (snd (dmm_reach available_resources s))), s')
    /\ evolves s s'
         (firstn (fst (dmm_reach available_resources s)) dmm_script
          ++ firstn (fst (psu_reach available_resources s)) psu_script).
Proof.
  intros Hres Hl. unfold setup_instruments_or_exit.
  rewrite (bind_list_resources _ s available_resources Hres).
  destruct (setup_prologue available_resources s) as (s2 & Hpro & H2).
  cbv [bind] in Hpro |- *.
  destruct (say (Available available_resources) (noted s ListResources))
    as [[[[]|sg] s0]|]; try discriminate.
  destruct (connect_dmm available_resources s0) as [[[dmm|sg] s1]|]; try discriminate.
  destruct (pause 0.5 s1) as [[[[]|sg] s1']|]; try discriminate.
  unfold ret in Hpro. inversion Hpro; subst.
  destruct (connect_psu_or_exit_listed available_resources s2 Hl) as (s4 & Hpsu & H4).
  rewrite Hpsu. unfold ret.
  assert (Hreach : reach (answers s2) (asked s2) 7 = psu_reach available_resources s).
  { unfold psu_reach. rewrite Hl. destruct H2 as (_ & -> & _ & -> & _).
    now rewrite length_dmm_prefix. }
  rewrite Hreach in *.
  eexists. split; [reflexivity|].
  exact (evolves_trans _ _ _ _ _ H2 H4).
Qed.

(** [setup_instruments] of Current_module.py when the address of the power
    supply is not listed: the interpreter is left, after the multimeter
    paragraph. *)
Lemma setup_instruments_or_exit_unlisted (available_resources : list pystr) (s : lab) :
  resources s = Ok available_resources ->
  listed psu_addr available_resources = false ->
  exists s',
    setup_instruments_or_exit s = Some (Stop SystemExit, s')
    /\ evolves s s' (firstn (fst (dmm_reach available_resources s)) dmm_script).
Proof.
  intros Hres Hl. unfold setup_instruments_or_exit.
  rewrite (bind_list_resources _ s available_resources Hres).
  destruct (setup_prologue available_resources s) as (s2 & Hpro & H2).
  cbv [bind] in Hpro |- *.
  destruct (say (Available available_resources) (noted s ListResources))
    as [[[[]|sg] s0]|]; try discriminate.
  destruct (connect_dmm available_resources s0) as [[[dmm|sg] s1]|]; try discriminate.
  destruct (pause 0.5 s1) as [[[[]|sg] s1']|]; try discriminate.
  unfold ret in Hpro. inversion Hpro; subst.
  destruct (connect_psu_or_exit_unlisted available_resources s2 Hl) as (s4 & Hpsu & H4).
  rewrite Hpsu.
  eexists. split; [reflexivity|].
  pose proof (evolves_trans _ _ _ _ _ H2 H4) as H. now rewrite app_nil_r in H.
Qed.

(** *** The pieces of [main] *)

Lemma talks_refl (s : lab) : talks s s.
Proof. unfold talks. auto. Qed.

Lemma talks_trans (s s1 s2 : lab) : talks s s1 -> talks s1 s2 -> talks s s2.
Proof.
  intros (R1 & A1 & N1 & T1 & D1) (R2 & A2 & N2 & T2 & D2). unfold talks.
  rewrite R2, A2, N2, T2, D2. auto.
Qed.

Lemma talks_noted (s : lab) (a : action) :
  match a with Touch _ _ | Driver _ => False | _ => True end ->
  talks s (noted s a).
Proof.
  intros H. destruct (evolves_noted s a H) as (R & A & _ & N & T & D).
  rewrite app_nil_r in T. unfold talks. auto.
Qed.

Lemma talks_prompted (s : lab) (p : prompt) : talks s (prompted s p).
Proof.
  unfold talks, prompted; cbn [resources answers asked journal].
  rewrite touches_app, drivers_app. cbn. now rewrite !app_nil_r.
Qed.

Lemma evolves_talks (s s' : lab) : evolves s s' [] -> talks s s'.
Proof.
  intros (R & A & _ & N & T & D). rewrite app_nil_r in T. unfold talks. auto.
Qed.

(** [float(input(p))]: end of input, a line that is a number, or a line
    that is not. *)
Lemma read_voltage_spec (p : prompt) (s : lab) :
  read_voltage p s =
    Some (match keyboard s with
          | [] => Stop EOFError
          | line :: _ =>
              match PyFloat.py_float line with
              | Some v => Done v
              | None => Stop (Exception ValueError)
              end
          end, prompted s p).
Proof.
  unfold read_voltage, bind, input, prompted.
  destruct (keyboard s) as [|line rest]; [reflexivity|].
  cbn [tl]. now destruct (PyFloat.py_float line).
Qed.

Lemma bind_read_voltage {A : Type} (p : prompt) (k : float -> L A) (s : lab) :
  bind (read_voltage p) k s =
    match keyboard s with
    | [] => Some (Stop EOFError, prompted s p)
    | line :: _ =>
        match PyFloat.py_float line with
        | Some v => k v (prompted s p)
        | None => Some (Stop (Exception ValueError), prompted s p)
        end
    end.
Proof.
  unfold bind. rewrite read_voltage_spec.
  destruct (keyboard s) as [|line rest]; [reflexivity|].
  now destruct (PyFloat.py_float line).
Qed.

Lemma touches_drivers (evs : list event) :
  touches (map Driver evs) = map driver_touch (commands_sent evs).
Proof.
  induction evs as [|ev evs IH]; [reflexivity|].
  cbn [map]. change (Driver ev :: map Driver evs) with ([Driver ev] ++ map Driver evs).
  rewrite touches_app, IH.
  change (ev :: evs) with ([ev] ++ evs). unfold commands_sent at 2.
  rewrite flat_map_app. fold (commands_sent evs). rewrite map_app.
  f_equal. destruct ev; reflexivity.
Qed.

Lemma drivers_map (evs : list event) : drivers (map Driver evs) = evs.
Proof. induction evs as [|ev evs IH]; [reflexivity|]. cbn. now rewrite <- IH at 2. Qed.

(** A driver call from the session. *)
Lemma drive_spec {A : Type} (m : M A) (s : lab) :
  drive m s =
    match m (bench_of s) with
    | None => None
    | Some (r, w') =>
        Some (match r with Ok a => Done a | Raise e => Stop (Exception e) end, driven s w')
    end.
Proof. reflexivity. Qed.

Lemma driven_touches (s : lab) (w' : world) :
  touches (journal (driven s w'))
  = touches (journal s) ++ map driver_touch (commands_sent (trace w')).
Proof. unfold driven; cbn [journal]. now rewrite touches_app, touches_drivers. Qed.

Lemma driven_drivers (s : lab) (w' : world) :
  drivers (journal (driven s w')) = drivers (journal s) ++ trace w'.
Proof. unfold driven; cbn [journal]. now rewrite drivers_app, drivers_map. Qed.

(** The [finally] block of [main] always ends normally, having closed what
    it could. *)
Lemma close_instruments_spec (psu dmm : handle) (s : lab) :
  exists s',
    close_instruments psu dmm s = Some (Done tt, s') /\
    evolves s s'
      (firstn (fst (reach (answers s) (asked s) (List.length (close_script psu dmm))))
              (close_script psu dmm)).
Proof.
  unfold close_instruments, say. rewrite bind_record. cbv beta.
  set (s0 := noted s (Say Closing)).
  assert (H0 : evolves s s0 []) by now apply evolves_noted.
  assert (Hclose : exists s',
            attempt
              (bind match dmm with
                    | Some d => bind (touch d Close) (fun _ => record (Say DmmClosed))
                    | None => ret tt
                    end
                    (fun _ => match psu with
                              | Some d => bind (touch d Close) (fun _ => record (Say PsuClosed))
                              | None => ret tt
                              end))
              (fun e => record (Say (CloseError e))) s0
            = Some (Done tt, s') /\
            evolves s0 s'
              (firstn (fst (reach (answers s0) (asked s0)
                              (List.length (close_script psu dmm))))
                      (close_script psu dmm))).
  { destruct psu as [d|], dmm as [d'|];
      cbv [attempt bind touch record ret close_script app List.length];
      cbn [reach];
      repeat (cbn [answers asked is_exception fst snd];
              lazymatch goal with
              | |- context [match answers s0 ?k with _ => _ end] =>
                  let E := fresh "E" in destruct (answers s0 k) eqn:E
              end);
      eexists; (split; [reflexivity|]); cbn [fst snd firstn]; settle_journal. }
  destruct Hclose as (s' & Hrun & H1). exists s'. split; [exact Hrun|].
  exact (evolves_trans _ _ _ _ _ H0 H1).
Qed.

(** The two [except] clauses of [main]: every exception is reported, and
    only SystemExit goes on. *)
Lemma report_errors_spec (body : L unit) (s s1 : lab) (o : outcome unit) :
  body s = Some (o, s1) ->
  exists s2,
    report_errors body s
    = Some (match o with
            | Done a => Done a
            | Stop sg => if is_exception sg then Done tt else Stop sg
            end, s2)
    /\ evolves s1 s2 [].
Proof.
  intros H. unfold report_errors. rewrite H.
  destruct o as [a|sg].
  - exists s1. split; [reflexivity | apply evolves_refl].
  - destruct sg as [e| |].
    + destruct e; cbn [is_value_error is_exception]; eexists;
        (split; [reflexivity | now apply evolves_noted]).
    + cbn [is_value_error is_exception]. eexists.
      split; [reflexivity | now apply evolves_noted].
    + cbn [is_value_error is_exception]. exists s1.
      split; [reflexivity | apply evolves_refl].
Qed.

Lemma finally_spec {A : Type} (body : L A) (cleanup : L unit) (s s1 s2 : lab)
    (o : outcome A) :
  body s = Some (o, s1) -> cleanup s1 = Some (Done tt, s2) ->
  finally body cleanup s = Some (o, s2).
Proof. intros Hb Hc. unfold finally. now rewrite Hb, Hc. Qed.

(** When the resources cannot be listed, [main] reports it and closes
    nothing. *)
Lemma main_unlisted (fuel : nat) (e : exn) (s : lab) :
  resources s = Raise e ->
  main fuel s
  = Some (Done tt,
          noted (noted (noted s ListResources) (Say (listing_report e))) (Say Closing)).
Proof.
  intros Hres. unfold main. rewrite (setup_instruments_unlisted e s Hres).
  destruct e; reflexivity.
Qed.

(** What [main] does between [setup_instruments] and its [finally] block:
    either nothing reaches the instruments, or three lines were read, all
    of them numbers, and the sequencer was called with them. *)
Lemma run_tests_cases (fuel : nat) (psu dmm : handle) (s s' : lab) (o : outcome unit) :
  run_tests fuel psu dmm s = Some (o, s') ->
  (talks s s' /\ catchable o)
  \/
  (exists l1 l2 l3 v1 v2 v3 s_mid r w',
     dmm <> None /\
     keyboard s = l1 :: l2 :: l3 :: keyboard s_mid /\
     PyFloat.py_float l1 = Some v1 /\
     PyFloat.py_float l2 = Some v2 /\
     PyFloat.py_float l3 = Some v3 /\
     talks s s_mid /\
     run_beep_sequence fuel psu dmm v1 v2 v3 (bench_of s_mid) = Some (r, w') /\
     s' = driven s_mid w' /\
     o = match r with Ok _ => Done tt | Raise e => Stop (Exception e) end).
Proof.
  unfold run_tests. destruct dmm as [d|].
  2:{ intros H. inversion H; subst. left. split; [now apply talks_noted | exact I]. }
  unfold say. rewrite bind_record. cbv beta.
  set (s0 := noted s (Say EnterVoltages)).
  assert (H0 : talks s s0) by now apply talks_noted.
  assert (K0 : keyboard s0 = keyboard s) by reflexivity.
  rewrite bind_read_voltage. rewrite K0.
  destruct (keyboard s) as [|l1 k1] eqn:K.
  { intros H. inversion H; subst. left.
    split; [exact (talks_trans _ _ _ H0 (talks_prompted _ _)) | reflexivity]. }
  destruct (PyFloat.py_float l1) as [v1|] eqn:F1.
  2:{ intros H. inversion H; subst. left.
      split; [exact (talks_trans _ _ _ H0 (talks_prompted _ _)) | reflexivity]. }
  set (s1 := prompted s0 MainVoltage).
  assert (H1 : talks s s1) by exact (talks_trans _ _ _ H0 (talks_prompted _ _)).
  assert (K1 : keyboard s1 = k1) by (unfold s1, prompted; cbn [keyboard]; rewrite K0; rewrite ?K; reflexivity).
  rewrite bind_read_voltage. rewrite K1.
  destruct k1 as [|l2 k2].
  { intros H. inversion H; subst. left.
    split; [exact (talks_trans _ _ _ H1 (talks_prompted _ _)) | reflexivity]. }
  destruct (PyFloat.py_float l2) as [v2|] eqn:F2.
  2:{ intros H. inversion H; subst. left.
      split; [exact (talks_trans _ _ _ H1 (talks_prompted _ _)) | reflexivity]. }
  set (s2 := prompted s1 DoubleVoltage).
  assert (H2 : talks s s2) by exact (talks_trans _ _ _ H1 (talks_prompted _ _)).
  assert (K2 : keyboard s2 = k2) by (unfold s2, prompted; cbn [keyboard]; now rewrite K1).
  rewrite bind_read_voltage. rewrite K2.
  destruct k2 as [|l3 k3].
  { intros H. inversion H; subst. left.
    split; [exact (talks_trans _ _ _ H2 (talks_prompted _ _)) | reflexivity]. }
  destruct (PyFloat.py_float l3) as [v3|] eqn:F3.
  2:{ intros H. inversion H; subst. left.
      split; [exact (talks_trans _ _ _ H2 (talks_prompted _ _)) | reflexivity]. }
  set (s3 := prompted s2 TripleVoltage).
  assert (H3 : talks s s3) by exact (talks_trans _ _ _ H2 (talks_prompted _ _)).
  assert (K3 : keyboard s3 = k3) by (unfold s3, prompted; cbn [keyboard]; now rewrite K2).
  unfold bind. rewrite drive_spec.
  destruct (run_beep_sequence fuel psu (Some d) v1 v2 v3 (bench_of s3)) as [[r w']|] eqn:Hrun;
    [|discriminate].
  intros H. right. exists l1, l2, l3, v1, v2, v3, s3, r, w'.
  rewrite K3. repeat (split; [first [discriminate | reflexivity | assumption]|]).
  destruct r as [a|e]; unfold ret in H; inversion H; subst; split; reflexivity.
Qed.

(** [main] when the resources can be listed, cut into its four parts:
    setup, the tests, the report of an error, the closing. *)
Lemma main_cases (fuel : nat) (available_resources : list pystr) (s s' : lab)
    (o : outcome unit) :
  resources s = Ok available_resources ->
  main fuel s = Some (o, s') ->
  exists s1 o1 s2 s3,
    setup_instruments s
    = Some (Done (connected PowerSupply (snd (psu_reach available_resources s)),
                  connected Multimeter (snd (dmm_reach available_resources s))), s1)
    /\ evolves s s1
         (firstn (fst (dmm_reach available_resources s)) dmm_script
          ++ firstn (fst (psu_reach available_resources s)) psu_script)
    /\ run_tests fuel (connected PowerSupply (snd (psu_reach available_resources s)))
                 (connected Multimeter (snd (dmm_reach available_resources s))) s1
       = Some (o1, s2)
    /\ evolves s2 s3 []
    /\ evolves s3 s'
         (firstn (fst (reach (answers s3) (asked s3)
                         (List.length
                            (close_script
                               (connected PowerSupply (snd (psu_reach available_resources s)))
                               (connected Multimeter (snd (dmm_reach available_resources s)))))))
                 (close_script
                    (connected PowerSupply (snd (psu_reach available_resources s)))
                    (connected Multimeter (snd (dmm_reach available_resources s)))))
    /\ o = match o1 with
           | Done a => Done a
           | Stop sg => if is_exception sg then Done tt else Stop sg
           end.
Proof.
  intros Hres. unfold main.
  destruct (setup_instruments_spec available_resources s Hres) as (s1 & Hsetup & H1).
  rewrite Hsetup.
  set (psu := connected PowerSupply (snd (psu_reach available_resources s))).
  set (dmm := connected Multimeter (snd (dmm_reach available_resources s))).
  destruct (run_tests fuel psu dmm s1) as [[o1 s2]|] eqn:Hrun.
  2:{ unfold finally, report_errors. rewrite Hrun. discriminate. }
  destruct (report_errors_spec _ _ _ _ Hrun) as (s3 & Hreport & H3).
  destruct (close_instruments_spec psu dmm s3) as (s4 & Hclose & H4).
  rewrite (finally_spec _ _ _ _ _ _ Hreport Hclose).
  intros H. inversion H; subst.
  exists s1, o1, s2, s3. auto 10.
Qed.

(** From some fuel on, the tests of [main] end, always in the same way,
    and with nothing an [except Exception] clause would let through. *)
Lemma run_tests_settles (psu dmm : handle) (s : lab) :
  exists fuel0 o s',
    catchable o /\
    forall fuel, (fuel0 <= fuel)%nat -> run_tests fuel psu dmm s = Some (o, s').
Proof.
  unfold run_tests. destruct dmm as [d|].
  2:{ exists 0%nat. eexists _, _. split; [|intros; reflexivity]. exact I. }
  unfold say.
  set (s0 := noted s (Say EnterVoltages)).
  destruct (keyboard s0) as [|l1 k1] eqn:K0.
  { exists 0%nat. eexists _, _. split; [|intros; rewrite bind_record; cbv beta;
      fold s0; rewrite bind_read_voltage, K0; reflexivity]. reflexivity. }
  destruct (PyFloat.py_float l1) as [v1|] eqn:F1.
  2:{ exists 0%nat. eexists _, _. split; [|intros; rewrite bind_record; cbv beta;
        fold s0; rewrite bind_read_voltage, K0, F1; reflexivity]. reflexivity. }
  set (s1 := prompted s0 MainVoltage).
  destruct (keyboard s1) as [|l2 k2] eqn:K1.
  { exists 0%nat. eexists _, _. split; [|intros; rewrite bind_record; cbv beta;
      fold s0; rewrite bind_read_voltage, K0, F1; fold s1;
      rewrite bind_read_voltage, K1; reflexivity]. reflexivity. }
  destruct (PyFloat.py_float l2) as [v2|] eqn:F2.
  2:{ exists 0%nat. eexists _, _. split; [|intros; rewrite bind_record; cbv beta;
        fold s0; rewrite bind_read_voltage, K0, F1; fold s1;
        rewrite bind_read_voltage, K1, F2; reflexivity]. reflexivity. }
  set (s2 := prompted s1 DoubleVoltage).
  destruct (keyboard s2) as [|l3 k3] eqn:K2.
  { exists 0%nat. eexists _, _. split; [|intros; rewrite bind_record; cbv beta;
      fold s0; rewrite bind_read_voltage, K0, F1; fold s1;
      rewrite bind_read_voltage, K1, F2; fold s2;
      rewrite bind_read_voltage, K2; reflexivity]. reflexivity. }
  destruct (PyFloat.py_float l3) as [v3|] eqn:F3.
  2:{ exists 0%nat. eexists _, _. split; [|intros; rewrite bind_record; cbv beta;
        fold s0; rewrite bind_read_voltage, K0, F1; fold s1;
        rewrite bind_read_voltage, K1, F2; fold s2;
        rewrite bind_read_voltage, K2, F3; reflexivity]. reflexivity. }
  set (s3 := prompted s2 TripleVoltage).
  destruct (SettleFacts.sequence_settles psu (Some d) v1 v2 v3 (bench_of s3))
    as (fuel0 & r & w' & Hrun).
  exists fuel0,
    (match r with Ok _ => Done tt | Raise e => Stop (Exception e) end), (driven s3 w').
  split; [destruct r; reflexivity|].
  intros fuel Hfuel. rewrite bind_record. cbv beta.
  fold s0. rewrite bind_read_voltage, K0, F1. fold s1.
  rewrite bind_read_voltage, K1, F2. fold s2.
  rewrite bind_read_voltage, K2, F3. fold s3.
  unfold bind. rewrite drive_spec, (Hrun fuel Hfuel). now destruct r.
Qed.

(** [main] always ends normally, from some fuel on. *)
Lemma main_ends (s : lab) :
  exists fuel0 s', forall fuel, (fuel0 <= fuel)%nat -> main fuel s = Some (Done tt, s').
Proof.
  destruct (resources s) as [available_resources|e] eqn:Hres.
  2:{ exists 0%nat. eexists. intros fuel _. exact (main_unlisted fuel e s Hres). }
  destruct (setup_instruments_spec available_resources s Hres) as (s1 & Hsetup & H1).
  set (psu := connected PowerSupply (snd (psu_reach available_resources s))) in *.
  set (dmm := connected Multimeter (snd (dmm_reach available_resources s))) in *.
  destruct (run_tests_settles psu dmm s1) as (fuel0 & o1 & s2 & Hcatch & Hrun).
  destruct (report_errors_spec _ _ _ _ (Hrun fuel0 (Nat.le_refl _))) as (s3 & _ & _).
  assert (Hreport : exists s3, forall fuel, (fuel0 <= fuel)%nat ->
            report_errors (run_tests fuel psu dmm) s1 = Some (Done tt, s3)).
  { unfold report_errors. destruct o1 as [[]|sg].
    - exists s2. intros fuel Hfuel. now rewrite (Hrun fuel Hfuel).
    - cbn in Hcatch. destruct (is_value_error sg) eqn:Hv.
      + eexists. intros fuel Hfuel. rewrite (Hrun fuel Hfuel), Hv. reflexivity.
      + eexists. intros fuel Hfuel. rewrite (Hrun fuel Hfuel), Hv, Hcatch. reflexivity. }
  clear s3. destruct Hreport as (s3 & Hreport).
  destruct (close_instruments_spec psu dmm s3) as (s4 & Hclose & _).
  exists fuel0, s4. intros fuel Hfuel. unfold main. rewrite Hsetup.
  exact (finally_spec _ _ _ _ _ _ (Hreport fuel Hfuel) Hclose).
Qed.

(** *** [run_at_voltage] *)

Lemma run_at_voltage_spec (d : device) (dmm : handle) (voltage : float)
    (available_resources : list pystr) (s : lab) :
  resources s = Ok available_resources ->
  exists s',
    run_at_voltage (Some d) dmm voltage s
    = Some (if snd (reach (answers s) (asked s) 4) then Done tt
            else Stop (Exception VisaIOError), s')
    /\ evolves s s' (firstn (fst (reach (answers s) (asked s) 4)) (voltage_script d voltage)).
Proof.
  intros Hres. unfold run_at_voltage.
  rewrite (bind_list_resources _ s available_resources Hres).
  unfold touch_handle, say, pause. cbn [reach voltage_script].
  set (s0 := noted s ListResources).
  assert (H0 : evolves s s0 []) by now apply evolves_noted.
  change (answers s) with (answers s0). change (asked s) with (asked s0).
  assert (Hrun : exists s',
            bind (touch d (WriteMessage (Scpi INST_CH1)))
              (fun _ => bind (touch d (WriteMessage (Scpi (VOLT voltage))))
                 (fun _ => bind (touch d (WriteMessage (Scpi OUTP_ON)))
                    (fun _ => bind (record (Say (RunningAt voltage)))
                       (fun _ => bind (record (Pause 3))
                          (fun _ => bind (touch d (WriteMessage OUTP_OFF))
                             (fun _ => record (Say TurnedOff))))))) s0
            = Some (if snd (reach (answers s0) (asked s0) 4) then Done tt
                    else Stop (Exception VisaIOError), s')
            /\ evolves s0 s'
                 (firstn (fst (reach (answers s0) (asked s0) 4)) (voltage_script d voltage))).
  { cbn [reach voltage_script].
    chain_touch s0. chain_touch s0. chain_touch s0. chain_note. chain_note.
    chain_touch s0. chain_ends. }
  destruct Hrun as (s' & Hrun & H1). exists s'. split; [exact Hrun|].
  exact (evolves_trans _ _ _ _ _ H0 H1).
Qed.

Lemma run_at_voltage_no_supply (dmm : handle) (voltage : float)
    (available_resources : list pystr) (s : lab) :
  resources s = Ok available_resources ->
  run_at_voltage None dmm voltage s
  = Some (Stop (Exception AttributeError), noted s ListResources).
Proof.
  intros Hres. unfold run_at_voltage.
  now rewrite (bind_list_resources _ s available_resources Hres).
Qed.

Lemma run_at_voltage_unlisted (psu dmm : handle) (voltage : float) (e : exn) (s : lab) :
  resources s = Raise e ->
  run_at_voltage psu dmm voltage s = Some (Stop (Exception e), noted s ListResources).
Proof.
  intros Hres. unfold run_at_voltage. now apply bind_list_resources_raise.
Qed.

(** Three answered accesses carry a run of four to its last access. *)
Lemma reach_four (a : nat -> reply) (start : nat) :
  (forall k, (k < 3)%nat -> a (k + start)%nat <> Failure) ->
  fst (reach a start 4) = 4%nat.
Proof.
  intros H. cbn [reach].
  pose proof (H 0%nat ltac:(lia)) as H0. pose proof (H 1%nat ltac:(lia)) as H1.
  pose proof (H 2%nat ltac:(lia)) as H2. cbn [Nat.add] in H0, H1, H2.
  destruct (a start); [|contradiction].
  destruct (a (S start)); [|contradiction].
  destruct (a (S (S start))); [|contradiction].
  now destruct (a (S (S (S start)))).
Qed.

(** *** What [main] sends, and when it drives *)

Lemma length_psu_prefix (available_resources : list pystr) (s : lab) :
  List.length (firstn (fst (psu_reach available_resources s)) psu_script)
  = fst (psu_reach available_resources s).
Proof.
  unfold psu_reach. destruct (listed psu_addr available_resources); [|reflexivity].
  exact (length_firstn_reach (answers s) _ psu_script).
Qed.

Lemma connected_some (d : device) (ok : bool) : connected d ok <> None -> ok = true.
Proof. destruct ok; [reflexivity | intros H; now contradiction H]. Qed.

(** The drivers are reached only with a connected multimeter and after
    three lines were read that are all numbers; the sequencer is then called
    with these three numbers, in the order typed, on the answers that follow
    those of the setup. *)
Lemma main_drivers (fuel : nat) (s s' : lab) (o : outcome unit) :
  main fuel s = Some (o, s') ->
  drivers (journal s') <> drivers (journal s) ->
  exists available_resources l1 l2 l3 v1 v2 v3 r w',
    resources s = Ok available_resources /\
    snd (dmm_reach available_resources s) = true /\
    keyboard s = l1 :: l2 :: l3 :: keyboard s' /\
    PyFloat.py_float l1 = Some v1 /\
    PyFloat.py_float l2 = Some v2 /\
    PyFloat.py_float l3 = Some v3 /\
    run_beep_sequence fuel
      (connected PowerSupply (snd (psu_reach available_resources s)))
      (Some Multimeter) v1 v2 v3
      (mkWorld (fun k => answers s
                           (k + (fst (dmm_reach available_resources s)
                                 + fst (psu_reach available_resources s) + asked s))%nat)
               0 [])
    = Some (r, w') /\
    drivers (journal s') = drivers (journal s) ++ trace w'.
Proof.
  intros Hmain Hdiff.
  destruct (resources s) as [available_resources|e] eqn:Hres.
  2:{ exfalso. apply Hdiff. rewrite (main_unlisted fuel e s Hres) in Hmain.
      inversion Hmain; subst. unfold noted; cbn [journal].
      rewrite !drivers_app. cbn. now rewrite !app_nil_r. }
  destruct (main_cases fuel available_resources s s' o Hres Hmain)
    as (s1 & o1 & s2 & s3 & _ & H1 & Hrun & H3 & H4 & _).
  destruct H1 as (_ & A1 & K1 & N1 & _ & D1).
  destruct H3 as (_ & _ & K3 & _ & _ & D3).
  destruct H4 as (_ & _ & K4 & _ & _ & D4).
  destruct (run_tests_cases _ _ _ _ _ _ Hrun) as [[Htalk _]|Hdrive].
  { exfalso. apply Hdiff. destruct Htalk as (_ & _ & _ & _ & D2).
    now rewrite D4, D3, D2, D1. }
  destruct Hdrive as (l1 & l2 & l3 & v1 & v2 & v3 & s_mid & r & w' &
                      Hdmm & Hkeys & F1 & F2 & F3 & Htalk & Hseq & Hs2 & _).
  apply connected_some in Hdmm.
  destruct Htalk as (_ & A2 & N2 & _ & D2).
  exists available_resources, l1, l2, l3, v1, v2, v3, r, w'.
  split; [reflexivity|]. split; [exact Hdmm|]. split.
  { rewrite K4, K3, Hs2. unfold driven; cbn [keyboard]. now rewrite <- K1. }
  repeat (split; [assumption|]). split.
  - unfold bench_of in Hseq. rewrite A2, N2, A1, N1 in Hseq.
    rewrite length_app, length_dmm_prefix, length_psu_prefix in Hseq.
    rewrite Hdmm in Hseq. exact Hseq.
  - rewrite D4, D3, Hs2, driven_drivers, D2, D1. reflexivity.
Qed.

(** Everything [main] sends to the instruments: the accesses of the setup,
    then accesses of the drivers, then the closing, which stops early only
    at a close that fails. *)
Lemma main_touches (fuel : nat) (available_resources : list pystr) (s s' : lab)
    (o : outcome unit) :
  resources s = Ok available_resources ->
  main fuel s = Some (o, s') ->
  exists cmds n,
    touches (journal s')
    = touches (journal s)
      ++ (firstn (fst (dmm_reach available_resources s)) dmm_script
          ++ firstn (fst (psu_reach available_resources s)) psu_script)
      ++ map driver_touch cmds
      ++ firstn n (close_script
                     (connected PowerSupply (snd (psu_reach available_resources s)))
                     (connected Multimeter (snd (dmm_reach available_resources s))))
    /\ (n = List.length
              (close_script
                 (connected PowerSupply (snd (psu_reach available_resources s)))
                 (connected Multimeter (snd (dmm_reach available_resources s))))
        \/ ((1 <= n)%nat /\ answers s (asked s' - 1)%nat = Failure)).
Proof.
  intros Hres Hmain.
  destruct (main_cases fuel available_resources s s' o Hres Hmain)
    as (s1 & o1 & s2 & s3 & _ & H1 & Hrun & H3 & H4 & _).
  set (psu := connected PowerSupply (snd (psu_reach available_resources s))) in *.
  set (dmm := connected Multimeter (snd (dmm_reach available_resources s))) in *.
  destruct H1 as (_ & A1 & _ & _ & T1 & _).
  destruct H3 as (_ & A3 & _ & _ & T3 & _). rewrite app_nil_r in T3.
  destruct H4 as (_ & _ & _ & N4 & T4 & _).
  assert (Hmid : answers s2 = answers s1 /\
                 exists cmds, touches (journal s2)
                              = touches (journal s1) ++ map driver_touch cmds).
  { destruct (run_tests_cases _ _ _ _ _ _ Hrun) as [[Htalk _]|Hdrive].
    - destruct Htalk as (_ & A2 & _ & T2 & _). split; [exact A2|].
      exists []. now rewrite T2, app_nil_r.
    - destruct Hdrive as (l1 & l2 & l3 & v1 & v2 & v3 & s_mid & r & w' &
                          _ & _ & _ & _ & _ & Htalk & _ & Hs2 & _).
      destruct Htalk as (_ & A2 & _ & T2 & _). subst s2. split; [exact A2|].
      exists (commands_sent (trace w')). now rewrite driven_touches, T2. }
  destruct Hmid as (A2 & cmds & T2).
  exists cmds, (fst (reach (answers s3) (asked s3) (List.length (close_script psu dmm)))).
  split.
  - rewrite T4, T3, T2, T1, <- !app_assoc. reflexivity.
  - destruct (snd (reach (answers s3) (asked s3) (List.length (close_script psu dmm))))
      eqn:Hok.
    + left. now apply reach_all.
    + right. destruct (reach_stopped _ _ _ Hok) as [Hn Hfail]. split; [exact Hn|].
      rewrite N4, length_firstn_reach, <- A1, <- A2, <- A3.
      replace (fst (reach (answers s3) (asked s3) (List.length (close_script psu dmm)))
               + asked s3 - 1)%nat
        with (fst (reach (answers s3) (asked s3) (List.length (close_script psu dmm)))
              - 1 + asked s3)%nat by lia.
      exact Hfail.
Qed.

Lemma in_firstn {A : Type} (x : A) (l : list A) :
  forall n, In x (firstn n l) -> In x l.
Proof.
  induction l as [|y l IH]; intros [|n] H; cbn in H; try contradiction.
  destruct H as [H|H]; [now left | right; exact (IH n H)].
Qed.

End SessionFacts.

(** * Further properties of the detector *)

Import Pulses PulseFacts VerdictFacts.

(** X1: whatever the readings, the threshold and [min_gap], the list a
    finished scan of [detect_beep] leaves is a selection of readings above
    the threshold, consecutive ones at least [min_gap] apart, and no such
    selection is longer: the spike count is the largest number of
    above-threshold readings that can be picked [min_gap] apart. *)
Theorem scan_records_a_longest_selection
    (readings : list float) (threshold : float) (min_gap : Z) (fuel : nat)
    (spikes : list Z) :
  scan_loop fuel (above_threshold readings threshold) min_gap scan_init = Some (Ok spikes) ->
  Forall (over readings threshold) spikes
  /\ spaced min_gap spikes
  /\ forall l, spaced min_gap l -> Forall (over readings threshold) l ->
               (List.length l <= List.length spikes)%nat.
Proof.
  intros H. split; [|split].
  - pose proof (finished_scan_active _ _ _ _ H) as Hact.
    revert Hact. apply Forall_impl. intros i. apply over_active.
  - exact (proj2 (finished_scan_spaced _ _ _ _ H)).
  - intros l Hsp Hover. apply (finished_scan_longest _ _ _ _ l H).
    split; [exact Hsp|]. revert Hover. apply Forall_impl. intros i. apply over_active.
Qed.

Lemma scan_records_a_longest_selection_witness :
  Forall (over [0.01; 0.01; 0; 0.02; 0; 0; 0.03; 0.01]%float default_threshold) [0; 3; 6]
  /\ spaced 3 [0; 3; 6]
  /\ forall l, spaced 3 l ->
       Forall (over [0.01; 0.01; 0; 0.02; 0; 0; 0.03; 0.01]%float default_threshold) l ->
       (List.length l <= 3)%nat.
Proof.
  exact (scan_records_a_longest_selection
           [0.01; 0.01; 0; 0.02; 0; 0; 0.03; 0.01]%float default_threshold 3 9 [0; 3; 6]
           eq_refl).
Defined.

(** X2: with [min_gap >= 1] the verdicts of [detect_beep] mean what their
    names say.  The call labelled "Double Beep" returns a boolean, and it is
    [True] exactly when two readings above the threshold lie at least
    [min_gap] samples apart; the call labelled "Triple Beep" returns [True]
    exactly when three such readings lie at least [min_gap] apart each from
    the next. *)
Theorem verdicts_mean_spaced_readings
    (readings : list float) (threshold : float) (min_gap : Z) (fuel : nat) :
  1 <= min_gap -> (List.length readings < fuel)%nat ->
  (exists b,
     detect_value fuel readings (str "Double Beep") threshold min_gap
       = Some (Ok (PyBool b)) /\
     (b = true <->
      exists i j, over readings threshold i /\ over readings threshold j /\
                  i + min_gap <= j))
  /\
  (exists b,
     detect_value fuel readings (str "Triple Beep") threshold min_gap
       = Some (Ok (PyBool b)) /\
     (b = true <->
      exists i j k, over readings threshold i /\ over readings threshold j /\
                    over readings threshold k /\
                    i + min_gap <= j /\ j + min_gap <= k)).
Proof.
  intros Hg Hfuel.
  destruct (scan_from_start_total (above_threshold readings threshold) min_gap Hg)
    as [spikes Hscan].
  specialize (Hscan fuel). rewrite above_threshold_length in Hscan.
  specialize (Hscan Hfuel).
  pose proof (finished_scan_active _ _ _ _ Hscan) as Hact.
  pose proof (proj2 (finished_scan_spaced _ _ _ _ Hscan)) as Hsp.
  split.
  - exists (2 <=? List.length spikes)%nat. split; [now apply detect_value_double|].
    rewrite Nat.leb_le. split.
    + intros Hlen. destruct (two_recorded _ _ _ Hsp Hact Hlen) as (i & j & Hi & Hj & Hij).
      exists i, j. rewrite !over_active. auto.
    + intros (i & j & Hi & Hj & Hij). rewrite over_active in Hi, Hj.
      apply (finished_scan_longest _ _ _ _ [i; j] Hscan).
      split; [cbn; auto | auto using Forall_cons, Forall_nil].
  - exists (3 <=? List.length spikes)%nat. split; [now apply detect_value_triple|].
    rewrite Nat.leb_le. split.
    + intros Hlen.
      destruct (three_recorded _ _ _ Hsp Hact Hlen) as (i & j & k & Hi & Hj & Hk & Hij & Hjk).
      exists i, j, k. rewrite !over_active. auto.
    + intros (i & j & k & Hi & Hj & Hk & Hij & Hjk). rewrite over_active in Hi, Hj, Hk.
      apply (finished_scan_longest _ _ _ _ [i; j; k] Hscan).
      split; [cbn; auto | auto using Forall_cons, Forall_nil].
Qed.

Lemma verdicts_mean_spaced_readings_witness :
  (exists b,
     detect_value 5 [0.01; 0; 0.02; 0]%float (str "Double Beep") default_threshold 2
       = Some (Ok (PyBool b)) /\
     (b = true <->
      exists i j, over [0.01; 0; 0.02; 0]%float default_threshold i /\
                  over [0.01; 0; 0.02; 0]%float default_threshold j /\
                  i + 2 <= j))
  /\
  (exists b,
     detect_value 5 [0.01; 0; 0.02; 0]%float (str "Triple Beep") default_threshold 2
       = Some (Ok (PyBool b)) /\
     (b = true <->
      exists i j k, over [0.01; 0; 0.02; 0]%float default_threshold i /\
                    over [0.01; 0; 0.02; 0]%float default_threshold j /\
                    over [0.01; 0; 0.02; 0]%float default_threshold k /\
                    i + 2 <= j /\ j + 2 <= k)).
Proof.
  apply (verdicts_mean_spaced_readings [0.01; 0; 0.02; 0]%float default_threshold 2 5);
    [lia | cbn; lia].
Defined.

(** X3: the first reading above the threshold is always the first spike:
    when position [k] holds the first reading above the threshold, a finished
    scan has [k] at the head of its list, whatever [min_gap] is. *)
Theorem first_reading_above_threshold_is_first_spike
    (readings : list float) (threshold : float) (min_gap : Z) (k : nat)
    (fuel : nat) (spikes : list Z) :
  first_active (above_threshold readings threshold) k ->
  scan_loop fuel (above_threshold readings threshold) min_gap scan_init = Some (Ok spikes) ->
  hd_error spikes = Some (Z.of_nat k).
Proof. apply first_active_first_recorded. Qed.

Lemma first_reading_above_threshold_is_first_spike_witness :
  hd_error [2; 6] = Some (Z.of_nat 2).
Proof.
  apply (first_reading_above_threshold_is_first_spike
           [0; 0.001; 0.01; 0.01; 0; 0; 0.03]%float default_threshold 3 2 8 [2; 6]).
  - split; [reflexivity|]. intros [|[|j]] Hj; [reflexivity | reflexivity | lia].
  - reflexivity.
Defined.

(** X4: when no reading is above the threshold (a NaN reading is not), the
    call returns [False] for the label "Double Beep" and for the label
    "Triple Beep" with every [min_gap], zero and negative ones included, as
    soon as the fuel exceeds the number of readings. *)
Theorem quiet_readings_are_never_a_beep
    (readings : list float) (threshold : float) (min_gap : Z) (fuel : nat) :
  all_quiet readings threshold -> (List.length readings < fuel)%nat ->
  detect_value fuel readings (str "Double Beep") threshold min_gap = Some (Ok (PyBool false))
  /\ detect_value fuel readings (str "Triple Beep") threshold min_gap
     = Some (Ok (PyBool false)).
Proof.
  intros Hq Hfuel.
  assert (Hscan : scan_loop fuel (above_threshold readings threshold) min_gap scan_init
                  = Some (Ok [])).
  { apply (scan_loop_quiet _ min_gap fuel scan_init).
    - cbn. lia.
    - intros k _ Hk. now apply above_threshold_quiet.
    - cbn [cursor scan_init]. rewrite above_threshold_length. lia. }
  split.
  - now rewrite (detect_value_double _ _ _ _ _ Hscan).
  - now rewrite (detect_value_triple _ _ _ _ _ Hscan).
Qed.

Lemma quiet_readings_are_never_a_beep_witness :
  detect_value 4 [0.001; nan; 0.005]%float (str "Double Beep") default_threshold 0
    = Some (Ok (PyBool false))
  /\ detect_value 4 [0.001; nan; 0.005]%float (str "Triple Beep") default_threshold 0
     = Some (Ok (PyBool false)).
Proof.
  apply (quiet_readings_are_never_a_beep [0.001; nan; 0.005]%float default_threshold 0 4).
  - repeat constructor.
  - cbn. lia.
Defined.

(** X5: with [min_gap = 1] nothing is debounced: the scan ends and records
    every position whose reading is above the threshold, in order. *)
Theorem unit_gap_counts_every_reading_above_threshold
    (readings : list float) (threshold : float) (fuel : nat) :
  (List.length readings < fuel)%nat ->
  scan_loop fuel (above_threshold readings threshold) 1 scan_init
  = Some (Ok (active_indices (above_threshold readings threshold))).
Proof.
  intros Hfuel.
  apply (scan_loop_fuel_le _ 1 (S (List.length (above_threshold readings threshold)))).
  - rewrite above_threshold_length. lia.
  - exact (unit_gap_records_all (above_threshold readings threshold) [] []).
Qed.

Lemma unit_gap_counts_every_reading_above_threshold_witness :
  scan_loop 5 (above_threshold [0.01; 0.02; 0; 0.03]%float default_threshold) 1 scan_init
  = Some (Ok [0; 1; 3]).
Proof.
  apply (unit_gap_counts_every_reading_above_threshold
           [0.01; 0.02; 0; 0.03]%float default_threshold 5).
  cbn. lia.
Defined.

(** X6: with [min_gap <= 0] and at least one reading above the threshold,
    [detect_beep] never returns: for every fuel the call is still looping or
    has raised IndexError (a negative [min_gap] walks the cursor off the
    front of the array). *)
Theorem non_positive_gap_never_returns
    (readings : list float) (label : pystr) (threshold : float) (min_gap : Z)
    (fuel : nat) :
  min_gap <= 0 ->
  (exists k x, nth_error readings k = Some x /\ PrimFloat.ltb threshold x = true) ->
  detect_beep fuel readings label threshold min_gap = None
  \/ detect_beep fuel readings label threshold min_gap = Some (Raise IndexError).
Proof.
  intros Hg (k & x & Hk & Hx). unfold detect_beep.
  destruct (scan_loop fuel (above_threshold readings threshold) min_gap scan_init)
    as [[spikes|e]|] eqn:Hscan.
  - exfalso.
    assert (Hnil : spikes = []).
    { apply (held_back_finish (above_threshold readings threshold) min_gap Hg fuel
               scan_init spikes); [|exact Hscan].
      left. cbn. split; [reflexivity | lia]. }
    subst spikes.
    apply (nothing_recorded_nothing_active _ _ _ Hscan k).
    unfold above_threshold. rewrite nth_error_map, Hk. cbn. now rewrite Hx.
  - right. now rewrite (scan_loop_raises _ _ _ _ _ Hscan).
  - now left.
Qed.

Lemma non_positive_gap_never_returns_witness :
  detect_beep 3 [0.01]%float (str "Double Beep") default_threshold (-1) = None
  \/ detect_beep 3 [0.01]%float (str "Double Beep") default_threshold (-1)
     = Some (Raise IndexError).
Proof.
  apply (non_positive_gap_never_returns [0.01]%float (str "Double Beep")
           default_threshold (-1) 3).
  - lia.
  - exists 0%nat, 0.01%float. split; reflexivity.
Defined.

(** X7: quiet samples after the last reading change nothing: with
    [min_gap >= 1], a call that returns a value returns the same value when
    readings that are not above the threshold are appended. *)
Theorem trailing_quiet_samples_change_nothing
    (readings tail : list float) (label : pystr) (threshold : float) (min_gap : Z)
    (fuel : nat) (out : list report * pyval) :
  1 <= min_gap -> all_quiet tail threshold ->
  detect_beep fuel readings label threshold min_gap = Some (Ok out) ->
  detect_beep (fuel + List.length tail) (readings ++ tail) label threshold min_gap
  = Some (Ok out).
Proof.
  intros Hg Hq. unfold detect_beep.
  destruct (scan_loop fuel (above_threshold readings threshold) min_gap scan_init)
    as [[spikes|e]|] eqn:Hscan; [|discriminate|discriminate].
  intros Hout.
  assert (Htail : above_threshold (readings ++ tail) threshold
                  = above_threshold readings threshold ++ repeat false (List.length tail)).
  { unfold above_threshold. rewrite map_app. f_equal.
    induction Hq as [|x t Hx _ IH]; [reflexivity|]. cbn. now rewrite Hx, IH. }
  rewrite Htail.
  rewrite (quiet_tail_ignored _ min_gap (List.length tail) Hg fuel scan_init spikes
             ltac:(cbn; lia) Hscan).
  exact Hout.
Qed.

Lemma trailing_quiet_samples_change_nothing_witness :
  detect_beep (4 + 2) ([0.01; 0; 0.02] ++ [0; 0.001])%float (str "Double Beep")
              default_threshold 2
  = Some (Ok ([SpikeCount (str "Double Beep") 2; DoubleVerdict true], PyBool true)).
Proof.
  apply (trailing_quiet_samples_change_nothing [0.01; 0; 0.02]%float [0; 0.001]%float
           (str "Double Beep") default_threshold 2 4).
  - lia.
  - repeat constructor.
  - reflexivity.
Defined.

(** X8: the spike count is bounded by the length of the recording: with
    [min_gap >= 1], [n] recorded spikes need more than [(n - 1) * min_gap]
    readings.  With the defaults of the sequencer's triple-beep call, three
    spikes need at least 21 readings. *)
Theorem spike_count_is_bounded_by_the_recording
    (readings : list float) (threshold : float) (min_gap : Z) (fuel : nat)
    (spikes : list Z) :
  1 <= min_gap ->
  scan_loop fuel (above_threshold readings threshold) min_gap scan_init = Some (Ok spikes) ->
  (Z.of_nat (List.length spikes) - 1) * min_gap < Z.of_nat (List.length readings).
Proof.
  intros Hg Hscan.
  pose proof (recorded_are_active _ _ _ _ Hg Hscan) as Hact.
  pose proof (proj2 (finished_scan_spaced _ _ _ _ Hscan)) as Hsp.
  pose proof (Nat2Z.is_nonneg (List.length readings)) as Hlen.
  destruct spikes as [|x l]; [cbn [List.length]; nia|].
  assert (Hrange : Forall (fun y => y < Z.of_nat (List.length readings)) (x :: l)).
  { revert Hact. apply Forall_impl. intros y Hy.
    pose proof (active_in_range _ _ Hy) as Hr. rewrite above_threshold_length in Hr. lia. }
  pose proof (spaced_span min_gap _ l x ltac:(lia) Hsp Hrange) as Hspan.
  pose proof (Forall_inv Hact) as [Hx _].
  cbn [List.length]. rewrite Nat2Z.inj_succ. nia.
Qed.

Lemma spike_count_is_bounded_by_the_recording_witness :
  (Z.of_nat (List.length [0; 3; 6]) - 1) * 3
  < Z.of_nat (List.length [0.01; 0.01; 0; 0.02; 0; 0; 0.03; 0.01]%float).
Proof.
  apply (spike_count_is_bounded_by_the_recording
           [0.01; 0.01; 0; 0.02; 0; 0; 0.03; 0.01]%float default_threshold 3 9 [0; 3; 6]).
  - lia.
  - reflexivity.
Defined.

(** * Further properties of the parser inside [run_test] *)

Import Payloads ParserMoreFacts.

(** X9: the parser sees only digits, the characters [.], [-], [E], [e] and
    the commas: every other character of the payload, wherever it stands,
    can be deleted without changing the readings.  So a unit after a number
    is harmless, and two numbers separated by a blank instead of a comma are
    read as one piece. *)
Theorem parser_sees_only_kept_characters_and_commas (raw_data : pystr) :
  parse_readings raw_data
  = parse_readings (filter (fun c => negb (is_noise c)) raw_data).
Proof.
  change raw_data with ([] ++ raw_data) at 1.
  change (filter (fun c => negb (is_noise c)) raw_data)
    with ([] ++ filter (fun c => negb (is_noise c)) raw_data).
  generalize (@nil ascii) as before.
  induction raw_data as [|c rest IH]; intros before; [reflexivity|].
  cbn [filter]. destruct (is_noise c) eqn:Hc; cbn [negb].
  - rewrite (noise_leaves_readings before rest c Hc). apply IH.
  - change (before ++ c :: rest) with (before ++ [c] ++ rest).
    change (before ++ c :: filter (fun c0 => negb (is_noise c0)) rest)
      with (before ++ [c] ++ filter (fun c0 => negb (is_noise c0)) rest).
    rewrite !app_assoc. apply IH.
Qed.

(** X10: a payload gives at most one reading or one warning per
    comma-separated piece: readings and warnings together number at most one
    more than the commas of the payload. *)
Theorem at_most_one_reading_per_piece (raw_data : pystr) :
  (List.length (fst (parse_payload raw_data)) + List.length (snd (parse_payload raw_data))
   <= S (commas raw_data))%nat.
Proof. apply parse_payload_bounded. Qed.

(** X11: a payload without any decimal digit gives no reading: the letters
    that would spell "inf" or "nan" are removed before [float] is called, so
    no piece can become a number. *)
Theorem payload_without_digit_has_no_reading (raw_data : pystr) :
  digitless raw_data -> parse_readings raw_data = [].
Proof. apply digitless_no_reading. Qed.

Lemma payload_without_digit_has_no_reading_witness :
  parse_readings (str "-inf,nan,e-.E,--") = [].
Proof.
  apply (payload_without_digit_has_no_reading (str "-inf,nan,e-.E,--")).
  repeat constructor.
Defined.

(** * Further properties of the drivers *)

Import Scripts BenchMoreFacts.

(** X12: with both instruments connected, [run_test] always comes back,
    and whatever fails on the way, what it has sent is a prefix of one fixed
    script of eleven accesses: channel, voltage and output-on to the power
    supply, then timeout, five configuration writes, start and fetch to the
    multimeter.  It never sends anything else; in particular it never
    switches the output off. *)
Theorem run_test_sends_a_prefix_of_its_script
    (d d' : device) (voltage : float) (label : pystr) (nplc : pynum)
    (sample_count : Z) (w : world) :
  exists r w' k ms,
    run_test (Some d) (Some d') voltage label nplc sample_count w = Some (r, w') /\
    commands_sent (trace w') =
      commands_sent (trace w) ++ firstn k (run_script d d' voltage nplc sample_count ms) /\
    accesses w' = (k + accesses w)%nat /\
    (k <= 11)%nat.
Proof. apply run_test_follows_script. Qed.

(** X13: readings are never made up: when [run_test] returns a result with
    readings, both instruments were connected, the ten accesses before the
    fetch were all answered, and the readings are the parse of the reply to
    the fetch, the eleventh access of the call. *)
Theorem readings_are_the_parsed_fetch_reply
    (psu dmm : handle) (voltage : float) (label : pystr) (nplc : pynum)
    (sample_count : Z) (w w' : world) (res : acquisition) :
  run_test psu dmm voltage label nplc sample_count w = Some (Ok res, w') ->
  readings res <> [] ->
  exists raw,
    upcoming w 10 = Answer raw /\
    readings res = parse_readings raw /\
    psu <> None /\ dmm <> None /\
    (forall k, (k < 10)%nat -> upcoming w k <> Failure).
Proof. apply readings_come_from_fetch. Qed.

Lemma readings_are_the_parsed_fetch_reply_witness :
  exists raw,
    upcoming (glitch_bench 99 (str "0.1,0.2")) 10 = Answer raw /\
    readings (mkAcquisition (str "Main Test") 5 [0.1; 0.2]%float) = parse_readings raw /\
    Some PowerSupply <> None /\ Some Multimeter <> None /\
    (forall k, (k < 10)%nat -> upcoming (glitch_bench 99 (str "0.1,0.2")) k <> Failure).
Proof.
  apply (readings_are_the_parsed_fetch_reply (Some PowerSupply) (Some Multimeter) 5
           (str "Main Test") default_nplc default_sample_count
           (glitch_bench 99 (str "0.1,0.2"))
           (mkWorld (replies (glitch_bench 99 (str "0.1,0.2"))) 11
              [Instr PowerSupply (Write INST_CH1);
               Instr PowerSupply (Write (VOLT 5));
               Instr PowerSupply (Write OUTP_ON);
               Print (Running (str "Main Test") 5);
               Instr Multimeter (SetTimeout 20000);
               Instr Multimeter (Write CLS);
               Instr Multimeter (Write CONF_CURR_DC);
               Instr Multimeter (Write (CURR_DC_NPLC default_nplc));
               Instr Multimeter (Write (SAMP_COUN 100));
               Instr Multimeter (Write TRIG_SOUR_IMM);
               Instr Multimeter (Write INIT);
               Print (Initialized 100);
               Sleep 1;
               Instr Multimeter (Query FETC)])
           (mkAcquisition (str "Main Test") 5 [0.1; 0.2]%float)).
  - vm_compute. reflexivity.
  - discriminate.
Defined.

(** X14: whatever [plot_results] does, an exception that comes out of
    [run_beep_sequence] either was raised before [plot_results] was called,
    and is then VisaIOError (an access to the power supply) or OverflowError
    (the average of the main readings), or was raised by [plot_results]
    itself, the last call of the sequencer.  So in the acquisition and the
    analysis a missing multimeter (AttributeError), a reply that is not a
    number (ValueError), the detector's indexing (IndexError) and an empty
    recording (ZeroDivisionError) never reach the caller; what matplotlib
    raises does.  The sequencer is taken with its last call left open, and is
    [run_beep_sequence] when that call only records the plot. *)
Theorem sequencer_raises_two_exceptions_before_the_plot
    (plot : list acquisition -> M unit) (fuel : nat) (psu dmm : handle)
    (v_main v_double v_triple : float) :
  (forall w w' e,
     sequence_with plot fuel psu dmm v_main v_double v_triple w = Some (Raise e, w') ->
     ((e = VisaIOError \/ e = OverflowError) /\ unplotted w w')
     \/
     (exists w1 results,
        unplotted w w1 /\ plot results w1 = Some (Raise e, w')))
  /\ sequence_with plot_results fuel psu dmm v_main v_double v_triple
     = run_beep_sequence fuel psu dmm v_main v_double v_triple.
Proof.
  split; [|reflexivity].
  intros w w' e H.
  exact (PlotFacts.sequence_raises_well plot fuel psu dmm v_main v_double v_triple w e w' H).
Qed.

Lemma sequencer_raises_two_exceptions_before_the_plot_witness :
  exists w',
    sequence_with (fun _ => raise ValueError) 2 (Some PowerSupply) (Some Multimeter)
                  5 5.2 5.4 (glitch_bench 99 (str "0.01"))
    = Some (Raise ValueError, w')
    /\ (((ValueError = VisaIOError \/ ValueError = OverflowError)
         /\ unplotted (glitch_bench 99 (str "0.01")) w')
        \/
        (exists w1 (results : list acquisition),
           unplotted (glitch_bench 99 (str "0.01")) w1 /\
           @raise unit ValueError w1 = Some (Raise ValueError, w'))).
Proof.
  set (res := sequence_with (fun _ => raise ValueError) 2 (Some PowerSupply)
                (Some Multimeter) 5 5.2 5.4 (glitch_bench 99 (str "0.01"))).
  assert (E : sequence_with (fun _ => raise ValueError) 2 (Some PowerSupply)
                (Some Multimeter) 5 5.2 5.4 (glitch_bench 99 (str "0.01")) = res)
    by reflexivity.
  vm_compute in res.
  eexists. split; [exact E|].
  exact (proj1 (sequencer_raises_two_exceptions_before_the_plot
                  (fun _ => raise ValueError) 2 (Some PowerSupply) (Some Multimeter)
                  5 5.2 5.4) _ _ _ E).
Defined.

(** X15: when [run_beep_sequence] returns, it returns [None] and its last
    act is one of three: the refusal line, the no-data line, or the plot of
    exactly three results, in the order main, double, triple, carrying the
    labels "Main Test", "Double Beep", "Triple Beep" and the three voltages
    of the call, the main one with readings.  Nothing is plotted from a
    partial sequence. *)
Theorem sequencer_ends_in_one_of_three_ways
    (fuel : nat) (psu dmm : handle) (v_main v_double v_triple : float)
    (w w' : world) (v : pyval) :
  run_beep_sequence fuel psu dmm v_main v_double v_triple w = Some (Ok v, w') ->
  sequence_outcome v_main v_double v_triple v w'.
Proof. apply (sequence_leaves fuel psu dmm v_main v_double v_triple w v w'). Qed.

Lemma sequencer_ends_in_one_of_three_ways_witness :
  sequence_outcome 5 5.2 5.4 PyNone
    (mkWorld (replies mute_multimeter) 5
       [Instr PowerSupply (Write OUTP_ON);
        Instr PowerSupply (Write INST_CH1);
        Instr PowerSupply (Write (VOLT 5));
        Instr PowerSupply (Write OUTP_ON);
        Print (Running (str "Main Test") 5);
        Instr Multimeter (SetTimeout 20000);
        Print (MeasurementError VisaIOError);
        Print NoReadings]).
Proof.
  apply (sequencer_ends_in_one_of_three_ways 0 (Some PowerSupply) (Some Multimeter)
           5 5.2 5.4 mute_multimeter).
  reflexivity.
Defined.

(** X16: a missing multimeter is found out only after the power supply has
    been switched on: called with a connected supply whose next four
    accesses are answered and with [None] for the multimeter, the sequencer
    switches the output on, programs the main voltage, reports the
    AttributeError of the first multimeter access as a measurement error,
    prints the no-data line and returns, leaving the output on. *)
Theorem sequencer_without_multimeter_powers_the_supply
    (fuel : nat) (d : device) (v_main v_double v_triple : float) (w : world) :
  (forall k, (k < 4)%nat -> upcoming w k <> Failure) ->
  run_beep_sequence fuel (Some d) None v_main v_double v_triple w =
    Some (Ok PyNone,
          mkWorld (replies w) (4 + accesses w)
            (trace w ++ [Instr d (Write OUTP_ON);
                         Instr d (Write INST_CH1);
                         Instr d (Write (VOLT v_main));
                         Instr d (Write OUTP_ON);
                         Print (Running (str "Main Test") v_main);
                         Print (MeasurementError AttributeError);
                         Print NoReadings])).
Proof. apply sequence_without_multimeter. Qed.

Lemma sequencer_without_multimeter_powers_the_supply_witness :
  run_beep_sequence 0 (Some PowerSupply) None 5 5.2 5.4 mute_multimeter =
    Some (Ok PyNone,
          mkWorld (replies mute_multimeter) (4 + accesses mute_multimeter)
            (trace mute_multimeter
               ++ [Instr PowerSupply (Write OUTP_ON);
                   Instr PowerSupply (Write INST_CH1);
                   Instr PowerSupply (Write (VOLT 5));
                   Instr PowerSupply (Write OUTP_ON);
                   Print (Running (str "Main Test") 5);
                   Print (MeasurementError AttributeError);
                   Print NoReadings])).
Proof.
  apply (sequencer_without_multimeter_powers_the_supply 0 PowerSupply 5 5.2 5.4
           mute_multimeter).
  intros [|[|[|[|k]]]] Hk; try discriminate. lia.
Defined.

(** X17: [run_beep_sequence] always ends: whatever the handles, the
    voltages and the answers of the instruments, from some fuel on the call
    comes back, always with the same result.  Its two detector calls both
    use [min_gap = 10], which is positive, so neither scan can loop. *)
Theorem sequencer_always_ends
    (psu dmm : handle) (v_main v_double v_triple : float) (w : world) :
  exists fuel0 r w',
    forall fuel, (fuel0 <= fuel)%nat ->
      run_beep_sequence fuel psu dmm v_main v_double v_triple w = Some (r, w').
Proof. apply SettleFacts.sequence_settles. Qed.

(** * Properties of the summary file *)

Import Summary SummaryFacts.


(** * Properties of the session *)

Import Session Journals SessionFacts.

(** X19: when the resources can be listed, [setup_instruments] of
    current_code.py always returns, whatever the instruments do.  Each of the
    two handles is connected exactly when its address is listed and every
    access of its paragraph is answered (four for the multimeter, seven for
    the power supply), and is [None] otherwise; a failure on the multimeter
    does not keep the power supply from being connected.  What was sent is a
    prefix of the multimeter script followed by a prefix of the power-supply
    script, so an instrument that is not listed is not touched, and a
    connected power supply has acknowledged output-off and zero volts as its
    last two messages. *)
Theorem setup_instruments_connects_what_answers
    (available_resources : list pystr) (s : lab) :
  resources s = Ok available_resources ->
  (exists s',
     setup_instruments s
     = Some (Done (connected PowerSupply (snd (psu_reach available_resources s)),
                   connected Multimeter (snd (dmm_reach available_resources s))), s')
     /\ evolves s s'
          (firstn (fst (dmm_reach available_resources s)) dmm_script
           ++ firstn (fst (psu_reach available_resources s)) psu_script))
  /\ (snd (dmm_reach available_resources s) = true <->
      listed dmm_addr available_resources = true /\
      forall k, (k < 4)%nat -> answers s (k + asked s)%nat <> Failure)
  /\ (snd (psu_reach available_resources s) = true <->
      listed psu_addr available_resources = true /\
      forall k, (k < 7)%nat ->
        answers s (k + (fst (dmm_reach available_resources s) + asked s))%nat <> Failure)
  /\ (listed dmm_addr available_resources = false ->
      fst (dmm_reach available_resources s) = 0%nat)
  /\ (listed psu_addr available_resources = false ->
      fst (psu_reach available_resources s) = 0%nat)
  /\ (snd (psu_reach available_resources s) = true ->
      fst (psu_reach available_resources s) = 7%nat).
Proof.
  intros Hres. split; [exact (setup_instruments_spec available_resources s Hres)|].
  assert (Hlisted : forall (addr : pystr) (start : nat),
            snd (if listed addr available_resources
                 then reach (answers s) start 7 else (0%nat, false)) = true ->
            fst (if listed addr available_resources
                 then reach (answers s) start 7 else (0%nat, false)) = 7%nat).
  { intros addr start. destruct (listed addr available_resources); [|discriminate].
    apply reach_all. }
  assert (Hok : forall (addr : pystr) (start len : nat),
            snd (if listed addr available_resources
                 then reach (answers s) start len else (0%nat, false)) = true <->
            listed addr available_resources = true /\
            forall k, (k < len)%nat -> answers s (k + start)%nat <> Failure).
  { intros addr start len. destruct (listed addr available_resources); cbn [snd].
    - rewrite reach_ok. split; [intros H; split; [reflexivity | exact H] | intros [_ H]; exact H].
    - split; [discriminate | intros [H _]; discriminate]. }
  assert (Hnone : forall (addr : pystr) (start len : nat),
            listed addr available_resources = false ->
            fst (if listed addr available_resources
                 then reach (answers s) start len else (0%nat, false)) = 0%nat).
  { intros addr start len H. now rewrite H. }
  unfold dmm_reach, psu_reach.
  split; [apply Hok|]. split; [apply Hok|]. split; [apply Hnone|]. split; [apply Hnone|].
  apply Hlisted.
Qed.

Lemma setup_instruments_connects_what_answers_witness :
  (exists s',
     setup_instruments (steady_lab [psu_addr] [] [])
     = Some (Done (connected PowerSupply (snd (psu_reach [psu_addr] (steady_lab [psu_addr] [] []))),
                   connected Multimeter (snd (dmm_reach [psu_addr] (steady_lab [psu_addr] [] [])))),
             s')
     /\ evolves (steady_lab [psu_addr] [] []) s'
          (firstn (fst (dmm_reach [psu_addr] (steady_lab [psu_addr] [] []))) dmm_script
           ++ firstn (fst (psu_reach [psu_addr] (steady_lab [psu_addr] [] []))) psu_script))
  /\ connected PowerSupply (snd (psu_reach [psu_addr] (steady_lab [psu_addr] [] [])))
     = Some PowerSupply
  /\ connected Multimeter (snd (dmm_reach [psu_addr] (steady_lab [psu_addr] [] []))) = None.
Proof.
  split; [|split; reflexivity].
  apply (setup_instruments_connects_what_answers [psu_addr] (steady_lab [psu_addr] [] [])).
  reflexivity.
Defined.

(** X20: the two versions of [setup_instruments] differ only when the
    address of the power supply is not listed.  When it is listed,
    Current_module.py returns the same pair of handles as current_code.py
    after the same accesses.  When it is not, Current_module.py leaves the
    interpreter with SystemExit, which no [except Exception] clause catches,
    after the multimeter paragraph has run: a multimeter that was opened is
    not closed on that path. *)
Theorem setup_versions_differ_only_without_supply
    (available_resources : list pystr) (s : lab) :
  resources s = Ok available_resources ->
  (listed psu_addr available_resources = true ->
   exists handles s1 s2 ts,
     setup_instruments s = Some (Done handles, s1) /\
     setup_instruments_or_exit s = Some (Done handles, s2) /\
     evolves s s1 ts /\ evolves s s2 ts)
  /\
  (listed psu_addr available_resources = false ->
   exists s',
     setup_instruments_or_exit s = Some (Stop SystemExit, s') /\
     is_exception SystemExit = false /\
     evolves s s' (firstn (fst (dmm_reach available_resources s)) dmm_script) /\
     ~ In (Multimeter, Close) (firstn (fst (dmm_reach available_resources s)) dmm_script)).
Proof.
  intros Hres. split; intros Hl.
  - destruct (setup_instruments_spec available_resources s Hres) as (s1 & H1 & E1).
    destruct (setup_instruments_or_exit_listed available_resources s Hres Hl)
      as (s2 & H2 & E2).
    eexists _, s1, s2, _.
    split; [exact H1 | split; [exact H2 | split; [exact E1 | exact E2]]].
  - destruct (setup_instruments_or_exit_unlisted available_resources s Hres Hl)
      as (s' & H & E).
    exists s'. split; [exact H|]. split; [reflexivity|]. split; [exact E|].
    intros Hin. apply in_firstn in Hin. cbn in Hin.
    repeat (destruct Hin as [Hin|Hin]; [discriminate|]). exact Hin.
Qed.

Lemma setup_versions_differ_only_without_supply_witness :
  exists s',
    setup_instruments_or_exit (steady_lab [dmm_addr] [] []) = Some (Stop SystemExit, s') /\
    is_exception SystemExit = false /\
    evolves (steady_lab [dmm_addr] [] []) s'
      (firstn (fst (dmm_reach [dmm_addr] (steady_lab [dmm_addr] [] []))) dmm_script) /\
    ~ In (Multimeter, Close)
         (firstn (fst (dmm_reach [dmm_addr] (steady_lab [dmm_addr] [] []))) dmm_script).
Proof.
  apply (setup_versions_differ_only_without_supply [dmm_addr] (steady_lab [dmm_addr] [] []));
    reflexivity.
Defined.

(** X21: [main] always ends normally: whatever the listing gives, whatever
    the instruments answer and whatever is typed, from some fuel on the call
    returns without letting an exception out. *)
Theorem main_always_ends_normally (s : lab) :
  exists fuel0 s', forall fuel, (fuel0 <= fuel)%nat -> main fuel s = Some (Done tt, s').
Proof. apply main_ends. Qed.

(** X22: when the resource manager cannot be created or the resources
    cannot be listed, [main] touches no instrument and asks nothing: it prints
    one line about the failure and the closing line, and returns.  The line is
    the "invalid input" message, meant for the typed voltages, when the
    failure is a ValueError. *)
Theorem main_reports_a_listing_failure (fuel : nat) (e : exn) (s : lab) :
  resources s = Raise e ->
  main fuel s
  = Some (Done tt,
          mkLab (resources s) (answers s) (asked s) (keyboard s)
                (journal s ++ [ListResources; Say (listing_report e); Say Closing]))
  /\ listing_report ValueError = InvalidInput.
Proof.
  intros Hres. split; [|reflexivity]. rewrite (main_unlisted fuel e s Hres).
  unfold noted; cbn [resources answers asked keyboard journal].
  now rewrite <- !app_assoc.
Qed.

Lemma main_reports_a_listing_failure_witness :
  main 0 (mkLab (Raise ValueError) (fun _ => Failure) 0 [str "5"] [])
  = Some (Done tt,
          mkLab (Raise ValueError) (fun _ => Failure) 0 [str "5"]
                [ListResources; Say InvalidInput; Say Closing]).
Proof.
  apply (main_reports_a_listing_failure 0 ValueError
           (mkLab (Raise ValueError) (fun _ => Failure) 0 [str "5"] [])).
  reflexivity.
Defined.

(** X23: [main] reaches the drivers only when the multimeter is connected
    and three lines could be read that [float] accepts; the sequencer is then
    called once, with these three numbers as main, double and triple voltage
    in the order typed, on the answers that follow those of the setup.  In
    every other case (no multimeter, end of input, a line that is not a
    number) no driver event happens at all. *)
Theorem main_drives_only_after_three_numbers
    (fuel : nat) (s s' : lab) (o : outcome unit) :
  main fuel s = Some (o, s') ->
  drivers (journal s') <> drivers (journal s) ->
  exists available_resources l1 l2 l3 v1 v2 v3 r w',
    resources s = Ok available_resources /\
    snd (dmm_reach available_resources s) = true /\
    keyboard s = l1 :: l2 :: l3 :: keyboard s' /\
    py_float l1 = Some v1 /\
    py_float l2 = Some v2 /\
    py_float l3 = Some v3 /\
    run_beep_sequence fuel
      (connected PowerSupply (snd (psu_reach available_resources s)))
      (Some Multimeter) v1 v2 v3
      (mkWorld (fun k => answers s
                           (k + (fst (dmm_reach available_resources s)
                                 + fst (psu_reach available_resources s) + asked s))%nat)
               0 [])
    = Some (r, w') /\
    drivers (journal s') = drivers (journal s) ++ trace w'.
Proof. apply main_drivers. Qed.

Lemma main_drives_only_after_three_numbers_witness :
  exists available_resources l1 l2 l3 v1 v2 v3 r w',
    resources (steady_lab [dmm_addr] [] [str "5"; str "6.5"; str "7"])
    = Ok available_resources /\
    snd (dmm_reach available_resources
           (steady_lab [dmm_addr] [] [str "5"; str "6.5"; str "7"])) = true /\
    [str "5"; str "6.5"; str "7"] = [l1; l2; l3] /\
    py_float l1 = Some v1 /\
    py_float l2 = Some v2 /\
    py_float l3 = Some v3 /\
    run_beep_sequence 0
      (connected PowerSupply
         (snd (psu_reach available_resources
                 (steady_lab [dmm_addr] [] [str "5"; str "6.5"; str "7"]))))
      (Some Multimeter) v1 v2 v3
      (mkWorld (fun k => answers (steady_lab [dmm_addr] [] [str "5"; str "6.5"; str "7"])
                           (k + (fst (dmm_reach available_resources
                                        (steady_lab [dmm_addr] [] [str "5"; str "6.5"; str "7"]))
                                 + fst (psu_reach available_resources
                                          (steady_lab [dmm_addr] [] [str "5"; str "6.5"; str "7"]))
                                 + asked (steady_lab [dmm_addr] [] [str "5"; str "6.5"; str "7"])))%nat)
               0 [])
    = Some (r, w') /\
    [Print CannotRun] = [] ++ trace w'.
Proof.
  set (res := main 0 (steady_lab [dmm_addr] [] [str "5"; str "6.5"; str "7"])).
  assert (E : main 0 (steady_lab [dmm_addr] [] [str "5"; str "6.5"; str "7"]) = res)
    by reflexivity.
  vm_compute in res.
  exact (main_drives_only_after_three_numbers 0 _ _ _ E ltac:(discriminate)).
Defined.

(** X24: everything [main] sends to the instruments is, in order: the
    accesses of [setup_instruments], then accesses of the drivers only, then
    the closing of each connected instrument, the multimeter first.  The
    closing stops early only at a close that fails, so a multimeter whose
    close fails leaves the power supply open.  Between the setup and the
    closing nothing is sent but driver messages, none of which switches the
    output off: once the sequencer has switched the supply on, [main] ends
    with the output still on. *)
Theorem main_sends_setup_drivers_then_closes
    (fuel : nat) (available_resources : list pystr) (s s' : lab) (o : outcome unit) :
  resources s = Ok available_resources ->
  main fuel s = Some (o, s') ->
  exists cmds n,
    touches (journal s')
    = touches (journal s)
      ++ (firstn (fst (dmm_reach available_resources s)) dmm_script
          ++ firstn (fst (psu_reach available_resources s)) psu_script)
      ++ map driver_touch cmds
      ++ firstn n (close_script
                     (connected PowerSupply (snd (psu_reach available_resources s)))
                     (connected Multimeter (snd (dmm_reach available_resources s))))
    /\ (n = List.length
              (close_script
                 (connected PowerSupply (snd (psu_reach available_resources s)))
                 (connected Multimeter (snd (dmm_reach available_resources s))))
        \/ ((1 <= n)%nat /\ answers s (asked s' - 1)%nat = Failure))
    /\ ~ In (PowerSupply, WriteMessage OUTP_OFF) (map driver_touch cmds)
    /\ ~ In (PowerSupply, Close) (map driver_touch cmds).
Proof.
  intros Hres Hmain.
  destruct (main_touches fuel available_resources s s' o Hres Hmain)
    as (cmds & n & Htouches & Hn).
  exists cmds, n. split; [exact Htouches|]. split; [exact Hn|].
  split; intros Hin; apply in_map_iff in Hin; destruct Hin as ([d a] & Heq & _);
    destruct a; discriminate.
Qed.

Lemma main_sends_setup_drivers_then_closes_witness :
  exists cmds n,
    [(Multimeter, OpenResource); (Multimeter, Timeout 3000);
     (Multimeter, QueryMessage IDN); (Multimeter, WriteMessage (Scpi CLS));
     (Multimeter, Close)]
    = [] ++ (firstn (fst (dmm_reach [dmm_addr] (steady_lab [dmm_addr] [] [])))
                    dmm_script
             ++ firstn (fst (psu_reach [dmm_addr] (steady_lab [dmm_addr] [] [])))
                       psu_script)
         ++ map driver_touch cmds
         ++ firstn n (close_script
                        (connected PowerSupply
                           (snd (psu_reach [dmm_addr] (steady_lab [dmm_addr] [] []))))
                        (connected Multimeter
                           (snd (dmm_reach [dmm_addr] (steady_lab [dmm_addr] [] [])))))
    /\ (n = List.length
              (close_script
                 (connected PowerSupply
                    (snd (psu_reach [dmm_addr] (steady_lab [dmm_addr] [] []))))
                 (connected Multimeter
                    (snd (dmm_reach [dmm_addr] (steady_lab [dmm_addr] [] [])))))
        \/ ((1 <= n)%nat /\ answers (steady_lab [dmm_addr] [] []) (5 - 1)%nat = Failure))
    /\ ~ In (PowerSupply, WriteMessage OUTP_OFF) (map driver_touch cmds)
    /\ ~ In (PowerSupply, Close) (map driver_touch cmds).
Proof.
  set (res := main 0 (steady_lab [dmm_addr] [] [])).
  assert (E : main 0 (steady_lab [dmm_addr] [] []) = res) by reflexivity.
  vm_compute in res.
  exact (main_sends_setup_drivers_then_closes 0 [dmm_addr] (steady_lab [dmm_addr] [] [])
           _ _ eq_refl E).
Defined.

(** X25: [run_at_voltage] of Current_module.py begins by creating the
    resource manager and listing the resources; when that raises, the
    exception is let out before any access, whatever the handles.  When the
    listing succeeds: with [None] for the supply the call raises
    AttributeError before any access; with a connected supply it stops only at
    an access that fails, sends a prefix of channel, voltage, output-on,
    output-off, and returns normally exactly when all four were answered.  So
    once the three first writes are acknowledged the output-off is sent: the
    function cannot come back, by a return or by an exception, having switched
    the output on without having asked to switch it off. *)
Theorem run_at_voltage_switches_off_what_it_switched_on
    (psu dmm : handle) (voltage : float) (s : lab) :
  (forall e,
     resources s = Raise e ->
     run_at_voltage psu dmm voltage s
     = Some (Stop (Exception e), noted s ListResources))
  /\
  (forall available_resources,
     resources s = Ok available_resources ->
     psu = None ->
     run_at_voltage psu dmm voltage s
     = Some (Stop (Exception AttributeError), noted s ListResources))
  /\
  (forall available_resources d,
     resources s = Ok available_resources ->
     psu = Some d ->
     (exists s',
        run_at_voltage psu dmm voltage s
        = Some (if snd (reach (answers s) (asked s) 4) then Done tt
                else Stop (Exception VisaIOError), s')
        /\ evolves s s'
             (firstn (fst (reach (answers s) (asked s) 4)) (voltage_script d voltage)))
     /\ ((forall k, (k < 3)%nat -> answers s (k + asked s)%nat <> Failure) ->
         firstn (fst (reach (answers s) (asked s) 4)) (voltage_script d voltage)
         = voltage_script d voltage)).
Proof.
  split; [|split].
  - intros e Hres. exact (run_at_voltage_unlisted psu dmm voltage e s Hres).
  - intros available_resources Hres ->.
    exact (run_at_voltage_no_supply dmm voltage available_resources s Hres).
  - intros available_resources d Hres ->. split.
    + exact (run_at_voltage_spec d dmm voltage available_resources s Hres).
    + intros H. now rewrite (reach_four _ _ H).
Qed.

Lemma run_at_voltage_switches_off_what_it_switched_on_witness :
  (exists s',
     run_at_voltage (Some PowerSupply) None 5 (steady_lab [psu_addr] [] [])
     = Some (Done tt, s')
     /\ evolves (steady_lab [psu_addr] [] []) s' (voltage_script PowerSupply 5))
  /\ run_at_voltage None None 5 (mkLab (Raise ValueError) (fun _ => Failure) 0 [] [])
     = Some (Stop (Exception ValueError),
             noted (mkLab (Raise ValueError) (fun _ => Failure) 0 [] []) ListResources).
Proof.
  split.
  - apply (proj2 (proj2 (run_at_voltage_switches_off_what_it_switched_on
                           (Some PowerSupply) None 5 (steady_lab [psu_addr] [] [])))
             [psu_addr] PowerSupply); reflexivity.
  - apply (proj1 (run_at_voltage_switches_off_what_it_switched_on
                    None None 5 (mkLab (Raise ValueError) (fun _ => Failure) 0 [] []))
             ValueError).
    reflexivity.
Defined.
